(** * The validation-and-relay pipeline of the n8n WhatsApp launchpad

    A shallow embedding of
      - [src/web/src/app/api/trigger/route.ts]: [inboundSchema] and the
        [POST] handler of the relay endpoint;
      - the form component (automation-form): [payloadSchema],
        [normalizeDateField], [tryParseWorkflowVars] and the validation
        part of [handleSubmit];
    together with the part of the JavaScript runtime and of the zod
    combinators that these two files use.

    Conventions.
      - A string is its sequence of UTF-16 code units; a value is what
        [JSON.parse] can produce, or [undefined]; an object is the list
        of its own properties in enumeration order.
      - A JSON text on the wire (the body of a request, of a response, of
        the outbound call) is the value it denotes: [to_json v] is the
        value that [JSON.stringify(v)] denotes.
      - The zod combinators follow the synchronous parser of zod 3
        ([ZodString._parse], [ZodArray._parse], [ZodObject._parse],
        [ZodUnion._parse], [ZodRecord._parse], [ZodEffects._parse],
        [ParseStatus.mergeObjectSync]); the messages of the issues that
        carry no message of their own are a parameter.
      - What the engine and the libraries decide (the URL parser,
        [Date.parse], date-fns, [JSON.parse], the rendering of numbers)
        is a parameter, the record [Platform]; the theorems hold for
        every platform. The form and the relay run on the same one.
      - The handler runs in a small monad of computations that may throw
        and that record the calls of [fetch] and of [console.error]. *)

From Stdlib Require Import String Ascii List NArith Bool Lia.
From Corelib Require Import PrimFloat.
Import ListNotations.

#[local] Set Warnings "-register-all".

(* ===================================================================== *)
(** * JavaScript strings and values *)
(* ===================================================================== *)

Module JS.

(** A JavaScript string is a sequence of UTF-16 code units. *)
Definition code_unit := N.
Definition jstring := list code_unit.

(** The code units of an ASCII literal of the source text. *)
Definition js (s : string) : jstring :=
  map N_of_ascii (list_ascii_of_string s).

Fixpoint eqb (a b : jstring) : bool :=
  match a, b with
  | [], [] => true
  | x :: a', y :: b' => N.eqb x y && eqb a' b'
  | _, _ => false
  end.

(** [WhiteSpace] and [LineTerminator] of ECMA-262, the code units that
    [String.prototype.trim] removes. *)
Definition isWhiteSpace (c : code_unit) : bool :=
  match c with
  | 9 | 10 | 11 | 12 | 13 | 32 | 160 | 5760
  | 8192 | 8193 | 8194 | 8195 | 8196 | 8197 | 8198 | 8199 | 8200 | 8201 | 8202
  | 8232 | 8233 | 8239 | 8287 | 12288 | 65279 => true
  | _ => false
  end%N.

Fixpoint trimStart (s : jstring) : jstring :=
  match s with
  | c :: r => if isWhiteSpace c then trimStart r else s
  | [] => []
  end.

Definition trimEnd (s : jstring) : jstring := rev (trimStart (rev s)).

(** [s.trim()] *)
Definition trim (s : jstring) : jstring := trimEnd (trimStart s).

(** [\d] of a regular expression without the [u] and [i] flags. *)
Definition isDigit (c : code_unit) : bool := (48 <=? c)%N && (c <=? 57)%N.

(** [s.split(/[\n,]+/)]: the pieces of [s] between the maximal runs of
    line feeds and commas.  [cur] is the piece being read (reversed) and
    [in_sep] says that the previous code unit belonged to a separator. *)
Definition isSeparator (c : code_unit) : bool := N.eqb c 10 || N.eqb c 44.

Fixpoint split_from (cur : jstring) (in_sep : bool) (s : jstring) : list jstring :=
  match s with
  | [] => [rev cur]
  | c :: r =>
      if isSeparator c
      then if in_sep then split_from cur true r
           else rev cur :: split_from [] true r
      else split_from (c :: cur) false r
  end.

Definition split (s : jstring) : list jstring := split_from [] false s.

(** Decimal rendering of a non-negative integer, as [String(n)] and a
    template literal give it. *)
Definition digit_of (d : N) : code_unit := (48 + d)%N.

Fixpoint decimal_fuel (fuel : nat) (n : N) (acc : jstring) : jstring :=
  match fuel with
  | O => acc
  | S fuel' =>
      let acc' := digit_of (n mod 10) :: acc in
      if (n <? 10)%N then acc' else decimal_fuel fuel' (n / 10) acc'
  end.

Definition decimal (n : N) : jstring := decimal_fuel (S (N.to_nat (N.log2 n))) n [].

(** ** Values *)

(** The values that reach the two schemas: what [JSON.parse] produces,
    and [undefined]. An object is the list of its own enumerable
    properties in the order in which the object enumerates them. *)
Inductive value : Type :=
| VUndefined
| VNull
| VBool (b : bool)
| VNum (x : float)
| VStr (s : jstring)
| VArr (items : list value)
| VObj (props : list (jstring * value)).

(** Truthiness ([!v] is [negb (truthy v)]). *)
Definition truthy (v : value) : bool :=
  match v with
  | VUndefined | VNull => false
  | VBool b => b
  | VNum x => negb (is_nan x || is_zero x)
  | VStr s => negb (eqb s [])
  | VArr _ | VObj _ => true
  end.

(** Property lookup [o[k]] and the [k in o] test on an object that has
    no inherited property named [k]. *)
Fixpoint get_prop (k : jstring) (props : list (jstring * value)) : option value :=
  match props with
  | [] => None
  | (k', v) :: rest => if eqb k k' then Some v else get_prop k rest
  end.

Definition has_prop (k : jstring) (props : list (jstring * value)) : bool :=
  match get_prop k props with Some _ => true | None => false end.

(** [o[k]] as a value: [undefined] when the property is missing. *)
Definition read_prop (k : jstring) (props : list (jstring * value)) : value :=
  match get_prop k props with Some v => v | None => VUndefined end.

(** [o[k] = v] on an ordinary object whose own properties are [props]: an
    existing property keeps its place, a new one goes last. *)
Fixpoint define_prop (k : jstring) (v : value) (props : list (jstring * value))
  : list (jstring * value) :=
  match props with
  | [] => [(k, v)]
  | (k', v') :: rest =>
      if eqb k k' then (k, v) :: rest else (k', v') :: define_prop k v rest
  end.

Definition proto_key : jstring := js "__proto__".

(** [acc[k] = s] for a string [s] on an object created by a literal: the
    key [__proto__] reaches the setter inherited from [Object.prototype],
    which ignores a value that is neither an object nor [null]. *)
Definition assign_string (k : jstring) (s : jstring) (props : list (jstring * value))
  : list (jstring * value) :=
  if eqb k proto_key then props else define_prop k (VStr s) props.

(** [{ ...a, k1: v1, ... }]: the properties of [a], then each listed
    property defined in turn. *)
Definition spread_with (a : list (jstring * value)) (more : list (jstring * value))
  : list (jstring * value) :=
  fold_left (fun acc kv => define_prop (fst kv) (snd kv) acc) more a.

(** The document that [JSON.stringify(v)] writes, read back as a value:
    a property whose value is [undefined] is left out, an [undefined]
    array element and a non-finite number become [null], and [-0] is
    written [0]. *)
Definition is_undefined (v : value) : bool :=
  match v with VUndefined => true | _ => false end.

Fixpoint to_json (v : value) : value :=
  match v with
  | VObj props =>
      VObj (flat_map
              (fun kv =>
                 if is_undefined (snd kv) then [] else [(fst kv, to_json (snd kv))])
              props)
  | VArr items =>
      VArr (map (fun x => if is_undefined x then VNull else to_json x) items)
  | VNum x =>
      if is_finite x then (if is_zero x then VNum zero else VNum x) else VNull
  | _ => v
  end.

(** The own properties that a spread [{ ...v }] copies from the result
    of a schema whose output is an object. *)
Definition own_props (v : value) : list (jstring * value) :=
  match v with VObj props => props | _ => [] end.

(** A thrown value, seen through the three operations the code applies
    to it: [e instanceof Error], [e.message] and [String(e)]. *)
Record thrown : Type := Thrown {
  instanceof_Error : bool;
  error_message : jstring;
  error_String : jstring
}.

End JS.

(* ===================================================================== *)
(** * zod: issues *)
(* ===================================================================== *)

Module ZodError.
Import JS.

(** [ZodParsedType], restricted to the values of [JS.value]. *)
Inductive parsed_type : Type :=
| t_undefined | t_null | t_boolean | t_number | t_nan | t_string | t_array | t_object.

Definition getParsedType (v : value) : parsed_type :=
  match v with
  | VUndefined => t_undefined
  | VNull => t_null
  | VBool _ => t_boolean
  | VNum x => if is_nan x then t_nan else t_number
  | VStr _ => t_string
  | VArr _ => t_array
  | VObj _ => t_object
  end.

Inductive issue_code : Type :=
| invalid_type (expected received : parsed_type)
| invalid_literal (expected : jstring)
| invalid_union
| invalid_string_url
| invalid_string_regex
| too_small_string (minimum : nat)
| too_small_array (minimum : nat)
| custom.

Inductive path_segment : Type :=
| Key (k : jstring)
| Index (i : nat).

Record issue : Type := Issue {
  issue_path : list path_segment;
  issue_code_of : issue_code;
  message : jstring
}.

(** An issue is about a top-level field when its path starts there. *)
Definition about (field : jstring) (i : issue) : bool :=
  match issue_path i with
  | Key k :: _ => eqb k field
  | _ => false
  end.

End ZodError.

(* ===================================================================== *)
(** * The platform *)
(* ===================================================================== *)

(** What the two files take from their environment and do not define:
    the URL parser behind [z.string().url()], [Date.parse], the number
    rendering of [String] and the error it throws, [JSON.parse],
    date-fns and the messages of zod's error map for the issues that
    carry no message of their own. Both validators are run on the same
    platform. *)
Record Platform : Type := {
  (** [new URL(s)] does not throw *)
  URL_ok : JS.jstring -> bool;
  (** [!Number.isNaN(Date.parse(s))] *)
  Date_parse_ok : JS.jstring -> bool;
  (** [String(x)] for a number [x] *)
  Number_toString : float -> JS.jstring;
  (** the [TypeError] that [String(o)] throws for an object [o] that
      has no primitive value *)
  toPrimitive_TypeError : JS.thrown;
  (** [JSON.parse(s)]: the value, or the [SyntaxError] thrown *)
  JSON_parse : JS.jstring -> JS.thrown + JS.value;
  (** [formatISO(parseISO(s))]: the text, or the [RangeError] thrown *)
  formatISO_parseISO : JS.jstring -> JS.thrown + JS.jstring;
  (** the message zod gives an issue without a custom one *)
  errorMap : ZodError.issue_code -> JS.jstring
}.

(* ===================================================================== *)
(** * zod: schemas and their synchronous parser *)
(* ===================================================================== *)

Module Zod.
Import JS ZodError.

(** The checks of a [ZodString], in the order the chain lists them. *)
Inductive string_check : Type :=
| check_trim
| check_min (n : nat) (msg : option jstring)
| check_regex (test : jstring -> bool) (msg : option jstring)
| check_url (msg : option jstring).

(** The schema constructors the two files use. *)
Inductive schema : Type :=
| z_string (checks : list string_check)
| z_array (element : schema) (min : option (nat * option jstring))
| z_object (shape : list (jstring * schema))
| z_optional (inner : schema)
| z_union (options : list schema)
| z_literal (expected : jstring)
| z_record (valueType : schema)
| z_refine (inner : schema) (check : value -> bool) (msg : jstring)
| z_transform (inner : schema) (f : value -> value).

(** [a.or(b)] *)
Definition z_or (a b : schema) : schema := z_union [a; b].

Inductive parse_status : Type := valid | dirty | aborted.

(** What [_parse] returns, with the issues it added to the context. *)
Record parsed : Type := Parsed {
  status : parse_status;
  output : value;
  issues : list issue
}.

Definition INVALID (iss : list issue) : parsed := Parsed aborted VUndefined iss.
Definition OK (v : value) : parsed := Parsed valid v [].

Definition is_aborted (st : parse_status) : bool :=
  match st with aborted => true | _ => false end.
Definition is_valid (st : parse_status) : bool :=
  match st with valid => true | _ => false end.
Definition is_dirty (st : parse_status) : bool :=
  match st with dirty => true | _ => false end.

(** [status.dirty()]: a status that is not aborted becomes dirty. *)
Definition mark_dirty (st : parse_status) : parse_status :=
  match st with valid => dirty | _ => st end.

(** The status of several results merged into one. *)
Definition merge_status (st : parse_status) (sts : list parse_status) : parse_status :=
  if existsb is_aborted sts then aborted
  else if existsb is_dirty sts then mark_dirty st
  else st.

Fixpoint mapi_from {A B : Type} (i : nat) (f : nat -> A -> B) (l : list A) : list B :=
  match l with
  | [] => []
  | x :: r => f i x :: mapi_from (S i) f r
  end.

(** One parsed property of an object: key, value and [alwaysSet]. *)
Record pair : Type := Pair {
  pair_key : jstring;
  pair_value : parsed;
  alwaysSet : bool
}.

(** The loop of [ParseStatus.mergeObjectSync] that fills [finalObject]. *)
Definition finalObject (pairs : list pair) : list (jstring * value) :=
  fold_left
    (fun acc p =>
       if negb (eqb (pair_key p) proto_key)
          && (negb (is_undefined (output (pair_value p))) || alwaysSet p)
       then define_prop (pair_key p) (output (pair_value p)) acc
       else acc)
    pairs [].

Definition all_issues (rs : list parsed) : list issue := concat (map issues rs).

(** [ParseStatus.mergeObjectSync] *)
Definition mergeObjectSync (pairs : list pair) : parsed :=
  let rs := map pair_value pairs in
  let st := merge_status valid (map status rs) in
  if is_aborted st then INVALID (all_issues rs)
  else Parsed st (VObj (finalObject pairs)) (all_issues rs).

Section Parser.
Variable P : Platform.

(** [addIssueToContext]: the message of the check, or the error map's. *)
Definition mk_issue (path : list path_segment) (code : issue_code)
  (msg : option jstring) : issue :=
  Issue path code (match msg with Some m => m | None => errorMap P code end).

Definition fails_check (c : string_check) (s : jstring) : option (issue_code * option jstring) :=
  match c with
  | check_trim => None
  | check_min n msg =>
      if Nat.ltb (length s) n then Some (too_small_string n, msg) else None
  | check_regex test msg =>
      if test s then None else Some (invalid_string_regex, msg)
  | check_url msg =>
      if URL_ok P s then None else Some (invalid_string_url, msg)
  end.

(** The loop over [this._def.checks] of [ZodString._parse]. *)
Fixpoint run_checks (path : list path_segment) (checks : list string_check)
  (st : parse_status) (s : jstring) (acc : list issue) : parsed :=
  match checks with
  | [] => Parsed st (VStr s) acc
  | check_trim :: rest => run_checks path rest st (trim s) acc
  | c :: rest =>
      match fails_check c s with
      | Some (code, msg) =>
          run_checks path rest (mark_dirty st) s (acc ++ [mk_issue path code msg])
      | None => run_checks path rest st s acc
      end
  end.

Definition wrong_type (path : list path_segment) (expected : parsed_type)
  (data : value) : parsed :=
  INVALID [mk_issue path (invalid_type expected (getParsedType data)) None].

(** [ZodUnion._parse]: the first valid result wins; failing that, the
    first dirty one, with its issues; failing that, [invalid_union]. *)
Definition pick_union (path : list path_segment) (rs : list parsed) : parsed :=
  match find (fun r => is_valid (status r)) rs with
  | Some r => Parsed valid (output r) []
  | None =>
      match find (fun r => is_dirty (status r)) rs with
      | Some r => r
      | None => INVALID [mk_issue path invalid_union None]
      end
  end.

(** [_parseSync] at [path] on [data]. *)
Fixpoint parse (s : schema) (path : list path_segment) (data : value) {struct s} : parsed :=
  match s with
  | z_string checks =>
      match data with
      | VStr str => run_checks path checks valid str []
      | _ => wrong_type path t_string data
      end
  | z_array element min =>
      match data with
      | VArr items =>
          let short :=
            match min with
            | Some (n, msg) =>
                if Nat.ltb (length items) n
                then [mk_issue path (too_small_array n) msg] else []
            | None => []
            end in
          let rs := mapi_from 0 (fun i item => parse element (path ++ [Index i]) item) items in
          let st0 := match short with [] => valid | _ => dirty end in
          let st := merge_status st0 (map status rs) in
          if is_aborted st then INVALID (short ++ all_issues rs)
          else Parsed st (VArr (map output rs)) (short ++ all_issues rs)
      | _ => wrong_type path t_array data
      end
  | z_object shape =>
      match data with
      | VObj props =>
          mergeObjectSync
            (map (fun ks =>
                    Pair (fst ks)
                         (parse (snd ks) (path ++ [Key (fst ks)]) (read_prop (fst ks) props))
                         (has_prop (fst ks) props))
                 shape)
      | _ => wrong_type path t_object data
      end
  | z_optional inner =>
      match data with
      | VUndefined => OK VUndefined
      | _ => parse inner path data
      end
  | z_union options =>
      pick_union path (map (fun o => parse o path data) options)
  | z_literal expected =>
      match data with
      | VStr str =>
          if eqb str expected then OK data
          else INVALID [mk_issue path (invalid_literal expected) None]
      | _ => INVALID [mk_issue path (invalid_literal expected) None]
      end
  | z_record valueType =>
      match data with
      | VObj props =>
          mergeObjectSync
            (map (fun kv =>
                    Pair (fst kv) (parse valueType (path ++ [Key (fst kv)]) (snd kv)) true)
                 props)
      | _ => wrong_type path t_object data
      end
  | z_refine inner check msg =>
      let r := parse inner path data in
      if is_aborted (status r) then INVALID (issues r)
      else if check (output r) then r
      else Parsed (mark_dirty (status r)) (output r)
                  (issues r ++ [mk_issue path custom (Some msg)])
  | z_transform inner f =>
      let r := parse inner path data in
      if is_valid (status r) then Parsed valid (f (output r)) (issues r)
      else r
  end.

(** [schema.safeParse(data)]: the data, or the issues of the [ZodError]. *)
Inductive safe_result : Type :=
| success (data : value)
| failure (error_issues : list issue).

Definition safeParse (s : schema) (data : value) : safe_result :=
  let r := parse s [] data in
  if is_valid (status r) then success (output r) else failure (issues r).

End Parser.
End Zod.

(* ===================================================================== *)
(** * The relay endpoint: src/web/src/app/api/trigger/route.ts *)
(* ===================================================================== *)

Module Route.
Import JS ZodError Zod.

(** [/^\d{6,15}$/.test(s)] *)
Definition recipient_regex (s : jstring) : bool :=
  forallb isDigit s && Nat.leb 6 (length s) && Nat.leb (length s) 15.

(** [process.env], read when the module is loaded. *)
Record Env : Type := {
  N8N_WEBHOOK_URL : option jstring;
  N8N_API_KEY : option jstring
}.

(** Truthiness of [string | undefined]. *)
Definition configured (x : option jstring) : bool :=
  match x with Some s => negb (eqb s []) | None => false end.

(** The downstream's answer, through [status], [text()] and [json()]. *)
Record Response : Type := {
  response_status : N;
  response_text : thrown + jstring;
  response_json : thrown + value
}.

(** [response.ok] *)
Definition ok (r : Response) : bool :=
  (200 <=? response_status r)%N && (response_status r <=? 299)%N.

(** One call of [fetch]; [fetch_body] is the document that the text
    passed as [body] denotes. *)
Record fetch_call : Type := {
  fetch_url : jstring;
  fetch_method : jstring;
  fetch_headers : list (jstring * jstring);
  fetch_body : value
}.

(** The world of one request: the clock, and what the network answers. *)
Record World : Type := {
  toISOString_now : jstring;
  fetch : fetch_call -> thrown + Response
}.

(** The inbound request, through [request.json()] and
    [request.headers.get("origin")]. *)
Record NextRequest : Type := {
  request_json : thrown + value;
  headers_get_origin : option jstring
}.

(** [NextResponse.json(body, { status })] *)
Record NextResponse : Type := {
  status_code : N;
  json_body : value
}.

Definition NextResponse_json (body : list (jstring * value)) (st : N) : NextResponse :=
  {| status_code := st; json_body := to_json (VObj body) |}.

(** What a request does besides answering. *)
Inductive event : Type :=
| Fetch (call : fetch_call)
| ConsoleError (label : jstring) (error : thrown).

(** Computations that may throw and that record their events. *)
Definition M (A : Type) : Type := list event -> (thrown + A) * list event.

Definition ret {A} (a : A) : M A := fun tr => (inr a, tr).

Definition bind {A B} (m : M A) (k : A -> M B) : M B :=
  fun tr =>
    match m tr with
    | (inr a, tr') => k a tr'
    | (inl e, tr') => (inl e, tr')
    end.

(** [try { m } catch (error) { handler }] *)
Definition try_catch {A} (m : M A) (handler : thrown -> M A) : M A :=
  fun tr =>
    match m tr with
    | (inl e, tr') => handler e tr'
    | r => r
    end.

(** [await p] for a promise that settles as [r]. *)
Definition await {A} (r : thrown + A) : M A := fun tr => (r, tr).

(** The outcome of a [try] block whose [catch] returns from the function. *)
Definition attempt {A} (m : M A) : M (thrown + A) :=
  fun tr => let (r, tr') := m tr in (inr r, tr').

Definition emit (ev : event) : M unit := fun tr => (inr tt, tr ++ [ev]).

Notation "x <- m ;; k" := (bind m (fun x => k))
  (at level 61, m at next level, right associativity).
Notation "m ;;; k" := (bind m (fun _ => k))
  (at level 61, right associativity).

Section Handler.
Variable P : Platform.
Variable env : Env.
Variable world : World.

Definition inboundSchema : schema :=
  z_object
    [ (js "workflowTag",
        z_string [check_trim; check_min 1 (Some (js "workflowTag is required"))]);
      (js "recipients",
        z_array
          (z_string
             [check_trim;
              check_regex recipient_regex
                (Some (js "Recipients must be numeric in international format"))])
          (Some (1, Some (js "Provide at least one recipient"))));
      (js "message",
        z_string [check_trim; check_min 1 (Some (js "message is required"))]);
      (js "mediaUrl", z_optional (z_string [check_url None]));
      (js "workflowVars", z_optional (z_record (z_string [])));
      (js "sendAt",
        z_refine (z_optional (z_string []))
          (fun value =>
             negb (truthy value)
             || match value with VStr s => Date_parse_ok P s | _ => false end)
          (js "sendAt must be a valid ISO 8601 date string")) ].

(** [fetch(url, init)]: the call is recorded, then it settles. *)
Definition do_fetch (call : fetch_call) : M Response :=
  emit (Fetch call) ;;; await (fetch world call).

Definition safeJson (response : Response) : M value :=
  try_catch (await (response_json response)) (fun _ => ret VUndefined).

(** The payload sent downstream. *)
Definition payload_of (data : value) (request : NextRequest) : list (jstring * value) :=
  spread_with (own_props data)
    [ (js "requestedAt", VStr (toISOString_now world));
      (js "origin",
        match headers_get_origin request with
        | Some o => VStr o
        | None => VUndefined
        end) ].

(** [N8N_WEBHOOK_URL] where the handler has found it truthy. *)
Definition webhook_url : jstring :=
  match N8N_WEBHOOK_URL env with Some url => url | None => [] end.

Definition outbound_headers : list (jstring * jstring) :=
  (js "Content-Type", js "application/json")
  :: match N8N_API_KEY env with
     | Some key => if eqb key [] then [] else [(js "X-N8N-API-KEY", key)]
     | None => []
     end.

Definition not_configured_message : jstring :=
  js "N8N_WEBHOOK_URL is not configured. Set it in your Vercel project environment variables.".

(** The handler. The first [try] covers [request.json()] alone and its
    [catch] returns; the second covers the outbound call and the reading
    of its answer. *)
Definition POST (request : NextRequest) : M NextResponse :=
  if negb (configured (N8N_WEBHOOK_URL env)) then
    ret (NextResponse_json [ (js "message", VStr not_configured_message) ] 500)
  else
    read <- attempt (await (request_json request)) ;;
    match read with
    | inl error =>
        ret (NextResponse_json
               [ (js "message", VStr (js "Invalid JSON payload"));
                 (js "issues", VArr [VStr (error_String error)]) ]
               400)
    | inr body =>
        match safeParse P inboundSchema body with
        | failure iss =>
            ret (NextResponse_json
                   [ (js "message", VStr (js "Validation failed"));
                     (js "issues", VArr (map (fun i => VStr (message i)) iss)) ]
                   422)
        | success data =>
            let payload := payload_of data request in
            try_catch
              (response <- do_fetch
                             {| fetch_url := webhook_url;
                                fetch_method := js "POST";
                                fetch_headers := outbound_headers;
                                fetch_body := to_json (VObj payload) |} ;;
               if negb (ok response) then
                 details <- await (response_text response) ;;
                 ret (NextResponse_json
                        [ (js "message",
                            VStr (js "n8n responded with status "
                                  ++ decimal (response_status response)));
                          (js "issues",
                            if eqb details [] then VUndefined
                            else VArr [VStr details]) ]
                        502)
               else
                 result <- safeJson response ;;
                 ret (NextResponse_json
                        [ (js "message", VStr (js "Workflow dispatched to n8n."));
                          (js "n8nResponse", result) ]
                        200))
              (fun error =>
                 emit (ConsoleError (js "[n8n] webhook call failed") error) ;;;
                 ret (NextResponse_json
                        [ (js "message",
                            VStr (js "Failed to communicate with n8n webhook."));
                          (js "issues",
                            VArr [VStr (if instanceof_Error error
                                        then error_message error
                                        else error_String error)]) ]
                        504))
        end
    end.

(** One request, from an empty record of events. *)
Definition handle (request : NextRequest) : (thrown + NextResponse) * list event :=
  POST request [].

End Handler.
End Route.

(* ===================================================================== *)
(** * The form component: payloadSchema and its helpers *)
(* ===================================================================== *)

Module Form.
Import JS ZodError Zod.

(** The state of the form: six raw strings. *)
Record FormFields : Type := {
  workflowTag : jstring;
  recipients : jstring;
  message : jstring;
  mediaUrl : jstring;
  sendAt : jstring;
  workflowVars : jstring
}.

(** [items.join(sep)] on strings. *)
Fixpoint join (sep : jstring) (items : list jstring) : jstring :=
  match items with
  | [] => []
  | [x] => x
  | x :: rest => x ++ sep ++ join sep rest
  end.

Definition is_nullish (v : value) : bool :=
  match v with VUndefined | VNull => true | _ => false end.

(** [typeof v === "object"] *)
Definition typeof_object (v : value) : bool :=
  match v with VNull | VArr _ | VObj _ => true | _ => false end.

Definition Array_isArray (v : value) : bool :=
  match v with VArr _ => true | _ => false end.

(** The results of evaluations made from left to right, up to the first
    one that throws. *)
Fixpoint all_or_thrown {A : Type} (results : list (thrown + A)) : thrown + list A :=
  match results with
  | [] => inr []
  | inl error :: _ => inl error
  | inr a :: rest =>
      match all_or_thrown rest with
      | inr more => inr (a :: more)
      | inl error => inl error
      end
  end.

(** [value.split(/[\n,]+/).map((entry) => entry.trim()).filter(Boolean)] *)
Definition split_recipients (value : jstring) : list jstring :=
  filter (fun entry => negb (eqb entry [])) (map trim (split value)).

(** The result of [tryParseWorkflowVars]. *)
Inductive vars_result : Type :=
| vars_ok (value : JS.value)
| vars_error (msg : jstring).

(** What [handleSubmit] does with the form, up to the call of the relay:
    it stops on the variables, stops on the schema, or posts a body. *)
Inductive submission : Type :=
| VarsRejected (msg : jstring)
| SchemaRejected (issue_messages : list jstring)
| Posted (body : value).

(** [FormState]; [issues] is [None] where the state has no such key. *)
Inductive FormState : Type :=
| idle
| success_state (message : JS.value)
| error_state (message : JS.value) (issues : option JS.value).

(** The answer of the relay as the form reads it: [status], [ok] and
    [json()]. *)
Record Reply : Type := {
  reply_status : N;
  reply_json : thrown + JS.value
}.

Definition reply_ok (r : Reply) : bool :=
  (200 <=? reply_status r)%N && (reply_status r <=? 299)%N.

Section Component.
Variable P : Platform.

(** [String(v)]. An object is converted by [OrdinaryToPrimitive]: its
    [toString] is called when it is callable, then its [valueOf]. An
    object that [JSON.parse] made inherits both from [Object.prototype]
    unless it has an own property of that name, whose value is never
    callable; so with an own [toString] the conversion finds no
    primitive ([Object.prototype.valueOf] returns the object) and
    throws, and without one it gives [[object Object]]. An array is
    joined with commas, its elements converted in turn, [undefined] and
    [null] to the empty string. *)
Fixpoint String_ (v : value) : thrown + jstring :=
  match v with
  | VUndefined => inr (js "undefined")
  | VNull => inr (js "null")
  | VBool true => inr (js "true")
  | VBool false => inr (js "false")
  | VNum x => inr (Number_toString P x)
  | VStr s => inr s
  | VArr items =>
      match all_or_thrown
              (map (fun x => if is_nullish x then inr [] else String_ x) items) with
      | inr parts => inr (join (js ",") parts)
      | inl error => inl error
      end
  | VObj props =>
      if has_prop (js "toString") props then inl (toPrimitive_TypeError P)
      else inr (js "[object Object]")
  end.

Definition payloadSchema : schema :=
  z_object
    [ (js "workflowTag",
        z_string [check_trim; check_min 1 (Some (js "Workflow tag is required"))]);
      (js "recipients",
        z_transform
          (z_string [check_trim;
                     check_min 1 (Some (js "At least one recipient is required"))])
          (fun value =>
             match value with
             | VStr s => VArr (map VStr (split_recipients s))
             | _ => VUndefined
             end));
      (js "message",
        z_string [check_trim; check_min 1 (Some (js "A message body is required"))]);
      (js "mediaUrl",
        z_or (z_optional (z_string [check_url (Some (js "Must be a valid URL"))]))
             (z_literal []));
      (js "workflowVars", z_optional (z_record (z_string [])));
      (js "sendAt",
        z_refine (z_optional (z_string []))
          (fun value =>
             negb (truthy value)
             || match value with VStr s => Date_parse_ok P s | _ => false end)
          (js "Send at must be a valid ISO date")) ].

Definition normalizeDateField (value : jstring) : JS.value :=
  if eqb value [] then VUndefined
  else match formatISO_parseISO P value with
       | inr iso => VStr iso
       | inl _ => VStr value
       end.

(** The [reduce] over [Object.entries(parsed)] from the accumulator
    [acc]: [String(current)] is evaluated, then assigned. *)
Fixpoint reduce_entries (entries : list (jstring * value)) (acc : list (jstring * value))
  : thrown + list (jstring * value) :=
  match entries with
  | [] => inr acc
  | kv :: rest =>
      match String_ (snd kv) with
      | inr s => reduce_entries rest (assign_string (fst kv) s acc)
      | inl error => inl error
      end
  end.

Definition stringify_entries (entries : list (jstring * value))
  : thrown + list (jstring * value) :=
  reduce_entries entries [].

(** The message of the [catch] block of [tryParseWorkflowVars]. *)
Definition catch_message (error : thrown) : jstring :=
  if instanceof_Error error
  then js "Invalid workflow variables JSON: " ++ error_message error
  else js "Invalid workflow variables JSON.".

Definition tryParseWorkflowVars (input : jstring) : vars_result :=
  if eqb (trim input) [] then vars_ok VUndefined
  else
    match JSON_parse P input with
    | inr parsed =>
        if negb (truthy parsed) || negb (typeof_object parsed) || Array_isArray parsed
        then vars_error (js "Workflow variables must be a JSON object.")
        else
          match stringify_entries (own_props parsed) with
          | inr value => vars_ok (VObj value)
          | inl error => vars_error (catch_message error)
          end
    | inl error => vars_error (catch_message error)
    end.

(** The object that [handleSubmit] hands to [payloadSchema.safeParse]. *)
Definition draft (form : FormFields) (vars : JS.value) : JS.value :=
  VObj [ (js "workflowTag", VStr (workflowTag form));
         (js "recipients", VStr (recipients form));
         (js "message", VStr (message form));
         (js "mediaUrl", VStr (mediaUrl form));
         (js "sendAt", normalizeDateField (sendAt form));
         (js "workflowVars", vars) ].

Definition handleSubmit (form : FormFields) : submission :=
  match tryParseWorkflowVars (workflowVars form) with
  | vars_error msg => VarsRejected msg
  | vars_ok vars =>
      match safeParse P payloadSchema (draft form vars) with
      | failure iss => SchemaRejected (map ZodError.message iss)
      | success data => Posted (to_json data)
      end
  end.

(** [canSubmit]: the value of the memo for a form and a pending flag.
    The draft it checks holds the date as typed. *)
Definition canSubmit (form : FormFields) (isPending : bool) : bool :=
  match tryParseWorkflowVars (workflowVars form) with
  | vars_error _ => false
  | vars_ok vars =>
      match safeParse P payloadSchema
              (VObj [ (js "workflowTag", VStr (workflowTag form));
                      (js "recipients", VStr (recipients form));
                      (js "message", VStr (message form));
                      (js "mediaUrl", VStr (mediaUrl form));
                      (js "sendAt", VStr (sendAt form));
                      (js "workflowVars", vars) ]) with
      | success _ => negb isPending
      | failure _ => false
      end
  end.

(** [details?.k] for a key that no prototype defines. *)
Definition optional_member (details : JS.value) (k : jstring) : JS.value :=
  match details with VObj props => read_prop k props | _ => VUndefined end.

(** [a ?? b] *)
Definition coalesce (a b : JS.value) : JS.value :=
  if is_nullish a then b else a.

(** [await response.json().catch(() => null)] *)
Definition json_or_null (reply : Reply) : JS.value :=
  match reply_json reply with inr v => v | inl _ => VNull end.

(** The [try] block of [handleSubmit] once the call of the relay has
    settled as [fetched], and its [catch]: the state the form is left in. *)
Definition handleSubmit_response (fetched : thrown + Reply) : FormState :=
  match fetched with
  | inr response =>
      if negb (reply_ok response) then
        let details := json_or_null response in
        error_state
          (coalesce (optional_member details (js "message"))
             (VStr (js "Request failed with status "
                    ++ decimal (reply_status response) ++ js ".")))
          (Some (if Array_isArray (optional_member details (js "issues"))
                 then optional_member details (js "issues")
                 else VArr []))
      else
        let result := json_or_null response in
        success_state
          (coalesce (optional_member result (js "message"))
             (VStr (js "n8n workflow triggered successfully. Check your n8n execution log for details.")))
  | inl error =>
      error_state
        (VStr (if instanceof_Error error then error_message error
               else js "Unexpected network error. Try again."))
        None
  end.

(** [handleSubmit] from the form to the state it is left in; [relay]
    settles the call of [/api/trigger] for a posted body. *)
Definition handleSubmit_state (form : FormFields) (relay : JS.value -> thrown + Reply)
  : FormState :=
  match handleSubmit form with
  | VarsRejected msg => error_state (VStr msg) None
  | SchemaRejected msgs =>
      error_state (VStr (js "Fix the highlighted issues."))
        (Some (VArr (map VStr msgs)))
  | Posted body => handleSubmit_response (relay body)
  end.

End Component.
End Form.

(* ===================================================================== *)
(** * A reference platform *)
(* ===================================================================== *)

(** A platform that answers as a current engine (V8, date-fns in the UTC
    time zone) does on the finitely many inputs listed here; it refuses
    every other URL, date and JSON text, and renders every other number
    as [NaN]. Its error map is zod's default English one. It serves to
    run the definitions on concrete requests. *)
Module Reference.
Import JS ZodError.

Definition known (table : list jstring) (s : jstring) : bool :=
  existsb (eqb s) table.

Fixpoint lookup {A : Type} (table : list (jstring * A)) (s : jstring) : option A :=
  match table with
  | [] => None
  | (k, a) :: rest => if eqb s k then Some a else lookup rest s
  end.

Definition urls : list jstring :=
  [ js "https://example.com/catalog.pdf" ].

(** The last date has a space after it: V8 reads it with its legacy
    parser, as a local date. *)
Definition dates : list jstring :=
  [ js "2024-01-01T12:00:00.000Z";
    js "2024-01-01T12:00:00Z";
    js "2024-01-01 " ].

Definition SyntaxError (msg : string) : thrown :=
  Thrown true (js msg) (js "SyntaxError: " ++ js msg).

Definition RangeError (msg : string) : thrown :=
  Thrown true (js msg) (js "RangeError: " ++ js msg).

Definition TypeError (msg : string) : thrown :=
  Thrown true (js msg) (js "TypeError: " ++ js msg).

Definition quote : code_unit := 34%N.

(** [{"source":"web-portal"}], [{"retries":3,"vip":true}], [[1]], [null],
    [3] and ["x"] as JSON texts. *)
Definition text_source : jstring :=
  js "{" ++ [quote] ++ js "source" ++ [quote] ++ js ":"
  ++ [quote] ++ js "web-portal" ++ [quote] ++ js "}".

Definition text_mixed : jstring :=
  js "{" ++ [quote] ++ js "retries" ++ [quote] ++ js ":3,"
  ++ [quote] ++ js "vip" ++ [quote] ++ js ":true}".

Definition text_string : jstring := [quote] ++ js "x" ++ [quote].

(** [{"a":{"toString":1}}] *)
Definition text_own_toString : jstring :=
  js "{" ++ [quote] ++ js "a" ++ [quote] ++ js ":{"
  ++ [quote] ++ js "toString" ++ [quote] ++ js ":1}}".

Definition three : float := 3%float.

Definition documents : list (jstring * value) :=
  [ (text_source, VObj [(js "source", VStr (js "web-portal"))]);
    (text_mixed, VObj [(js "retries", VNum three); (js "vip", VBool true)]);
    (js "[1]", VArr [VNum one]);
    (js "null", VNull);
    (js "3", VNum three);
    (text_string, VStr (js "x"));
    (text_own_toString, VObj [(js "a", VObj [(js "toString", VNum one)])]) ].

Definition type_name (t : parsed_type) : jstring :=
  match t with
  | t_undefined => js "undefined"
  | t_null => js "null"
  | t_boolean => js "boolean"
  | t_number => js "number"
  | t_nan => js "nan"
  | t_string => js "string"
  | t_array => js "array"
  | t_object => js "object"
  end.

Definition defaultErrorMap (code : issue_code) : jstring :=
  match code with
  | invalid_type _ t_undefined => js "Required"
  | invalid_type expected received =>
      js "Expected " ++ type_name expected ++ js ", received " ++ type_name received
  | invalid_literal expected =>
      js "Invalid literal value, expected " ++ [quote] ++ expected ++ [quote]
  | invalid_union => js "Invalid input"
  | invalid_string_url => js "Invalid url"
  | invalid_string_regex => js "Invalid"
  | too_small_string n =>
      js "String must contain at least " ++ decimal (N.of_nat n) ++ js " character(s)"
  | too_small_array n =>
      js "Array must contain at least " ++ decimal (N.of_nat n) ++ js " element(s)"
  | custom => js "Invalid input"
  end.

Definition platform : Platform :=
  {| URL_ok := known urls;
     Date_parse_ok := known dates;
     Number_toString :=
       fun x => if PrimFloat.eqb x three then js "3"
                else if PrimFloat.eqb x one then js "1"
                else js "NaN";
     toPrimitive_TypeError := TypeError "Cannot convert object to primitive value";
     JSON_parse :=
       fun s => match lookup documents s with
                | Some v => inr v
                | None => inl (SyntaxError "Unexpected token")
                end;
     formatISO_parseISO :=
       fun s => if eqb s (js "2024-01-01T12:00")
                then inr (js "2024-01-01T12:00:00Z")
                else inl (RangeError "Invalid time value");
     errorMap := defaultErrorMap |}.

End Reference.

(* ===================================================================== *)
(** * Concrete requests *)
(* ===================================================================== *)

Module Scenario.
Import JS ZodError Zod Route.

Definition env_configured : Env :=
  {| N8N_WEBHOOK_URL := Some (js "https://n8n.example.com/webhook/whatsapp-relay");
     N8N_API_KEY := None |}.

Definition env_unset : Env :=
  {| N8N_WEBHOOK_URL := None; N8N_API_KEY := None |}.

Definition clock : jstring := js "2024-01-01T12:00:00.000Z".

(** A world whose network settles every call the same way. *)
Definition world_answering (answer : thrown + Response) : World :=
  {| toISOString_now := clock; fetch := fun _ => answer |}.

Definition request_with (body : value) (origin : option jstring) : NextRequest :=
  {| request_json := inr body; headers_get_origin := origin |}.

(** Scenario A: [{workflowTag:"promo", recipients:["15551234567"], message:"hi"}] *)
Definition body_A : value :=
  VObj [ (js "workflowTag", VStr (js "promo"));
         (js "recipients", VArr [VStr (js "15551234567")]);
         (js "message", VStr (js "hi")) ].

(** What the schema returns on [body_A]. *)
Definition data_A : value := body_A.

(** Scenario C: the workflow tag and the message are empty strings and
    there is no recipient. *)
Definition body_C : value :=
  VObj [ (js "workflowTag", VStr []);
         (js "recipients", VArr []);
         (js "message", VStr []) ].

(** Scenario D: the downstream answers 500 with the body [boom]. *)
Definition downstream_boom : Response :=
  {| response_status := 500;
     response_text := inr (js "boom");
     response_json := inl (Reference.SyntaxError "Unexpected token b in JSON at position 0") |}.

(** Scenario E: the connection fails. *)
Definition connection_error : thrown := Reference.TypeError "fetch failed".

(** A body that claims the server's own fields and adds one of its own. *)
Definition body_spoofed : value :=
  VObj [ (js "workflowTag", VStr (js " promo "));
         (js "recipients", VArr [VStr (js "15551234567 ")]);
         (js "message", VStr (js "hi"));
         (js "requestedAt", VStr (js "1999-12-31T00:00:00.000Z"));
         (js "origin", VStr (js "https://evil.example"));
         (js "admin", VBool true) ].

(** The downstream answers 200 with the JSON body [{"ok":true}]. *)
Definition downstream_ok : Response :=
  {| response_status := 200;
     response_text := inr (js "{}");
     response_json := inr (VObj [(js "ok", VBool true)]) |}.

Definition world_ok : World := world_answering (inr downstream_ok).

(** The spoofing body, sent without an Origin header. *)
Definition request_spoofed : NextRequest := request_with body_spoofed None.

(** The same body sent from a page, with the browser's Origin header. *)
Definition request_from_page : NextRequest :=
  request_with body_spoofed (Some (js "https://launchpad.example")).

(** The form as it opens, with the variables box cleared: the media
    URL and the date are left empty. *)
Definition form_blank_media : Form.FormFields :=
  {| Form.workflowTag := js "whatsapp-broadcast";
     Form.recipients := js "15551234567";
     Form.message := js "Hello from your n8n automation!";
     Form.mediaUrl := [];
     Form.sendAt := [];
     Form.workflowVars := [] |}.

(** The body that this form posts. *)
Definition body_blank_media : value :=
  VObj [ (js "workflowTag", VStr (js "whatsapp-broadcast"));
         (js "recipients", VArr [VStr (js "15551234567")]);
         (js "message", VStr (js "Hello from your n8n automation!"));
         (js "mediaUrl", VStr []) ].

(** A form whose recipient is not a number. *)
Definition form_letters : Form.FormFields :=
  {| Form.workflowTag := js "promo";
     Form.recipients := js "abc";
     Form.message := js "hi";
     Form.mediaUrl := js "https://example.com/catalog.pdf";
     Form.sendAt := [];
     Form.workflowVars := [] |}.

Definition body_letters : value :=
  VObj [ (js "workflowTag", VStr (js "promo"));
         (js "recipients", VArr [VStr (js "abc")]);
         (js "message", VStr (js "hi"));
         (js "mediaUrl", VStr (js "https://example.com/catalog.pdf")) ].

(** A form that is filled in completely. *)
Definition form_full : Form.FormFields :=
  {| Form.workflowTag := js " promo ";
     Form.recipients := js "15551234567, 15557654321";
     Form.message := js "hi";
     Form.mediaUrl := js "https://example.com/catalog.pdf";
     Form.sendAt := js "2024-01-01T12:00";
     Form.workflowVars := Reference.text_source |}.

Definition body_full : value :=
  VObj [ (js "workflowTag", VStr (js "promo"));
         (js "recipients", VArr [VStr (js "15551234567"); VStr (js "15557654321")]);
         (js "message", VStr (js "hi"));
         (js "mediaUrl", VStr (js "https://example.com/catalog.pdf"));
         (js "workflowVars", VObj [(js "source", VStr (js "web-portal"))]);
         (js "sendAt", VStr (js "2024-01-01T12:00:00Z")) ].

(** Bodies for the relay whose [workflowVars] is a mapping with a number
    and a boolean, and an array. *)
Definition body_mixed_vars : value :=
  VObj [ (js "workflowTag", VStr (js "promo"));
         (js "recipients", VArr [VStr (js "15551234567")]);
         (js "message", VStr (js "hi"));
         (js "workflowVars",
           VObj [(js "retries", VNum Reference.three); (js "vip", VBool true)]) ].

Definition body_array_vars : value :=
  VObj [ (js "workflowTag", VStr (js "promo"));
         (js "recipients", VArr [VStr (js "15551234567")]);
         (js "message", VStr (js "hi"));
         (js "workflowVars", VArr [VNum one]) ].

(** A body without recipients, and one whose date has a space after it. *)
Definition body_no_recipients : value :=
  VObj [ (js "workflowTag", VStr (js "promo"));
         (js "recipients", VArr []);
         (js "message", VStr (js "hi")) ].

Definition body_padded_date : value :=
  VObj [ (js "workflowTag", VStr (js " promo "));
         (js "recipients", VArr [VStr (js " 15551234567 ")]);
         (js "message", VStr (js "hi"));
         (js "sendAt", VStr (js "2024-01-01 ")) ].

(** A body that breaks a rule in every field but the message; two of
    its four recipients are not numeric identifiers. *)
Definition body_faulty : value :=
  VObj [ (js "workflowTag", VStr (js " "));
         (js "recipients",
           VArr [ VStr (js "15551234567"); VStr (js "abc");
                  VStr (js "15557654321"); VNum Reference.three ]);
         (js "message", VStr (js "hi"));
         (js "mediaUrl", VStr (js "not a url"));
         (js "workflowVars", VObj [(js "retries", VNum Reference.three)]);
         (js "sendAt", VStr (js "tomorrow")) ].

(** A request whose body is not JSON. *)
Definition request_malformed : NextRequest :=
  {| request_json := inl (Reference.SyntaxError "Unexpected end of JSON input");
     headers_get_origin := None |}.

(** The downstream answers 503 and the connection drops while the body
    is read. *)
Definition downstream_cut : Response :=
  {| response_status := 503;
     response_text := inl (Reference.TypeError "terminated");
     response_json := inl (Reference.TypeError "terminated") |}.

(** The environment with a credential. *)
Definition env_with_key : Env :=
  {| N8N_WEBHOOK_URL := Some (js "https://n8n.example.com/webhook/whatsapp-relay");
     N8N_API_KEY := Some (js "secret") |}.

(** A form whose recipients text holds separators only. *)
Definition form_commas : Form.FormFields :=
  {| Form.workflowTag := js "promo";
     Form.recipients := js ", ,";
     Form.message := js "hi";
     Form.mediaUrl := js "https://example.com/catalog.pdf";
     Form.sendAt := [];
     Form.workflowVars := [] |}.

Definition body_commas : value :=
  VObj [ (js "workflowTag", VStr (js "promo"));
         (js "recipients", VArr []);
         (js "message", VStr (js "hi"));
         (js "mediaUrl", VStr (js "https://example.com/catalog.pdf")) ].

(** A form whose variables box holds an array. *)
Definition form_array_vars : Form.FormFields :=
  {| Form.workflowTag := js "promo";
     Form.recipients := js "15551234567";
     Form.message := js "hi";
     Form.mediaUrl := [];
     Form.sendAt := [];
     Form.workflowVars := js "[1]" |}.

(** A form whose variables box holds an object with a value that has a
    property named [toString]. *)
Definition form_own_toString : Form.FormFields :=
  {| Form.workflowTag := js "promo";
     Form.recipients := js "15551234567";
     Form.message := js "hi";
     Form.mediaUrl := [];
     Form.sendAt := [];
     Form.workflowVars := Reference.text_own_toString |}.

(** A form with a blank workflow tag, no message and a media URL that
    is no URL. *)
Definition form_incomplete : Form.FormFields :=
  {| Form.workflowTag := js "  ";
     Form.recipients := js "15551234567";
     Form.message := [];
     Form.mediaUrl := js "not a url";
     Form.sendAt := [];
     Form.workflowVars := [] |}.

(** The reference platform with an engine that also reads the value of
    a [datetime-local] input as a date. *)
Definition platform_local_dates : Platform :=
  {| URL_ok := URL_ok Reference.platform;
     Date_parse_ok :=
       fun s => eqb s (js "2024-01-01T12:00") || Date_parse_ok Reference.platform s;
     Number_toString := Number_toString Reference.platform;
     toPrimitive_TypeError := toPrimitive_TypeError Reference.platform;
     JSON_parse := JSON_parse Reference.platform;
     formatISO_parseISO := formatISO_parseISO Reference.platform;
     errorMap := errorMap Reference.platform |}.

(** Two recipients, written on two lines with spaces and commas around. *)
Definition recipients_two_lines : jstring :=
  js " 15551234567 ," ++ [10%N] ++ js " 15557654321 ,,".

End Scenario.

(* ===================================================================== *)
(** * The rules of the specification and the shapes of the results *)
(* ===================================================================== *)

Import JS ZodError Zod.

(** The single outbound call of a request whose body validated to [data]. *)
Definition forwarded (env : Route.Env) (world : Route.World)
  (request : Route.NextRequest) (data : value) : Route.fetch_call :=
  {| Route.fetch_url := Route.webhook_url env;
     Route.fetch_method := js "POST";
     Route.fetch_headers := Route.outbound_headers env;
     Route.fetch_body := to_json (VObj (Route.payload_of world data request)) |}.

(** The text the handler reports for a thrown value. *)
Definition diagnostic (error : thrown) : jstring :=
  if instanceof_Error error then error_message error else error_String error.

(** *** The field rules of the data model, in the words of the specification *)

(** A string with its surrounding whitespace removed; anything else has
    no normal form. *)
Definition trimmed (v : value) : value :=
  match v with VStr s => VStr (trim s) | _ => VUndefined end.

Definition is_string (v : value) : bool :=
  match v with VStr _ => true | _ => false end.

(** "non-empty string", after trimming *)
Definition nonempty_after_trim (v : value) : bool :=
  match v with VStr s => negb (eqb (trim s) []) | _ => false end.

(** "a numeric identifier of 6-15 digits", after trimming *)
Definition numeric_id (v : value) : bool :=
  match v with VStr s => Route.recipient_regex (trim s) | _ => false end.

(** "ordered sequence of strings, length >= 1", each a numeric identifier *)
Definition recipients_ok (v : value) : bool :=
  match v with
  | VArr items => negb (Nat.ltb (length items) 1) && forallb numeric_id items
  | _ => false
  end.

(** "optional mapping from string key to string value" *)
Definition workflowVars_ok (v : value) : bool :=
  match v with
  | VUndefined => true
  | VObj entries => forallb (fun kv => is_string (snd kv)) entries
  | _ => false
  end.

(** "optional string; if present must parse as a valid date/time" *)
Definition sendAt_ok (P : Platform) (v : value) : bool :=
  match v with
  | VUndefined => true
  | VStr s => eqb s [] || Date_parse_ok P s
  | _ => false
  end.

(** What the server-facing schema does with [mediaUrl]: absent, or a
    string that the URL parser takes. *)
Definition mediaUrl_ok_server (P : Platform) (v : value) : bool :=
  match v with
  | VUndefined => true
  | VStr s => URL_ok P s
  | _ => false
  end.

Definition k_workflowTag : jstring := js "workflowTag".
Definition k_recipients : jstring := js "recipients".
Definition k_message : jstring := js "message".
Definition k_mediaUrl : jstring := js "mediaUrl".
Definition k_workflowVars : jstring := js "workflowVars".
Definition k_sendAt : jstring := js "sendAt".
Definition k_requestedAt : jstring := js "requestedAt".
Definition k_origin : jstring := js "origin".

(** The bodies the server-facing schema accepts. *)
Definition accepted_by_server (P : Platform) (body : value) : bool :=
  match body with
  | VObj props =>
      nonempty_after_trim (read_prop k_workflowTag props)
      && recipients_ok (read_prop k_recipients props)
      && nonempty_after_trim (read_prop k_message props)
      && mediaUrl_ok_server P (read_prop k_mediaUrl props)
      && workflowVars_ok (read_prop k_workflowVars props)
      && sendAt_ok P (read_prop k_sendAt props)
  | _ => false
  end.

(** *** The issues of a refused body, rule by rule

    What the server-facing validator reports for a body, written from
    the field rules: every rule that a field breaks gives its issue, the
    fields in the order of the schema, the recipients in the order of
    the sequence, the workflow variables in the order of the mapping. *)

(** The issue for a value that is not of the expected type; its message
    is the error map's. *)
Definition type_issue (P : Platform) (path : list path_segment)
  (expected : parsed_type) (v : value) : issue :=
  Issue path (invalid_type expected (getParsedType v))
    (errorMap P (invalid_type expected (getParsedType v))).

(** [workflowTag] and [message]: a string that is not empty once trimmed. *)
Definition text_violations (P : Platform) (k msg : jstring) (v : value) : list issue :=
  match v with
  | VStr s => if eqb (trim s) [] then [Issue [Key k] (too_small_string 1) msg] else []
  | _ => [type_issue P [Key k] t_string v]
  end.

(** The recipient at index [i]. *)
Definition recipient_violations (P : Platform) (i : nat) (x : value) : list issue :=
  match x with
  | VStr s =>
      if Route.recipient_regex (trim s) then []
      else [Issue [Key k_recipients; Index i] invalid_string_regex
              (js "Recipients must be numeric in international format")]
  | _ => [type_issue P [Key k_recipients; Index i] t_string x]
  end.

(** The recipients from index [i] on. *)
Fixpoint recipients_from (P : Platform) (i : nat) (items : list value) : list issue :=
  match items with
  | [] => []
  | x :: rest => recipient_violations P i x ++ recipients_from P (S i) rest
  end.

Definition recipients_violations (P : Platform) (v : value) : list issue :=
  match v with
  | VArr [] =>
      [Issue [Key k_recipients] (too_small_array 1) (js "Provide at least one recipient")]
  | VArr items => recipients_from P 0 items
  | _ => [type_issue P [Key k_recipients] t_array v]
  end.

Definition mediaUrl_violations (P : Platform) (v : value) : list issue :=
  match v with
  | VUndefined => []
  | VStr s =>
      if URL_ok P s then []
      else [Issue [Key k_mediaUrl] invalid_string_url (errorMap P invalid_string_url)]
  | _ => [type_issue P [Key k_mediaUrl] t_string v]
  end.

(** One entry of the workflow variables. *)
Definition entry_violations (P : Platform) (kv : jstring * value) : list issue :=
  match snd kv with
  | VStr _ => []
  | x => [type_issue P [Key k_workflowVars; Key (fst kv)] t_string x]
  end.

Definition workflowVars_violations (P : Platform) (v : value) : list issue :=
  match v with
  | VUndefined => []
  | VObj entries => flat_map (entry_violations P) entries
  | _ => [type_issue P [Key k_workflowVars] t_object v]
  end.

Definition sendAt_violations (P : Platform) (v : value) : list issue :=
  match v with
  | VUndefined => []
  | VStr s =>
      if eqb s [] || Date_parse_ok P s then []
      else [Issue [Key k_sendAt] custom
              (js "sendAt must be a valid ISO 8601 date string")]
  | _ => [type_issue P [Key k_sendAt] t_string v]
  end.

Definition violations (P : Platform) (body : value) : list issue :=
  match body with
  | VObj props =>
      text_violations P k_workflowTag (js "workflowTag is required")
        (read_prop k_workflowTag props)
      ++ recipients_violations P (read_prop k_recipients props)
      ++ text_violations P k_message (js "message is required")
           (read_prop k_message props)
      ++ mediaUrl_violations P (read_prop k_mediaUrl props)
      ++ workflowVars_violations P (read_prop k_workflowVars props)
      ++ sendAt_violations P (read_prop k_sendAt props)
  | _ => [type_issue P [] t_object body]
  end.

(** A field of the body that is copied when the body has it. *)
Definition kept (k : jstring) (props : list (jstring * value)) : list (jstring * value) :=
  if has_prop k props then [(k, read_prop k props)] else [].

(** The copy that [z.record] makes of a mapping. *)
Definition record_copy (entries : list (jstring * value)) : list (jstring * value) :=
  fold_left
    (fun acc kv =>
       if eqb (fst kv) proto_key then acc else define_prop (fst kv) (snd kv) acc)
    entries [].

Definition copied (v : value) : value :=
  match v with VObj entries => VObj (record_copy entries) | _ => v end.

Definition kept_vars (props : list (jstring * value)) : list (jstring * value) :=
  if has_prop k_workflowVars props
  then [(k_workflowVars, copied (read_prop k_workflowVars props))] else [].

Definition items_of (v : value) : list value :=
  match v with VArr items => items | _ => [] end.

(** The normalized payload of an accepted body. *)
Definition normalized (props : list (jstring * value)) : value :=
  VObj ([ (k_workflowTag, trimmed (read_prop k_workflowTag props));
          (k_recipients, VArr (map trimmed (items_of (read_prop k_recipients props))));
          (k_message, trimmed (read_prop k_message props)) ]
        ++ kept k_mediaUrl props
        ++ kept_vars props
        ++ kept k_sendAt props).

(** The sub-schemas of [inboundSchema] by name. *)
Definition required_string (msg : jstring) : schema :=
  z_string [check_trim; check_min 1 (Some msg)].

Definition recipient_schema : schema :=
  z_string [check_trim;
            check_regex Route.recipient_regex
              (Some (js "Recipients must be numeric in international format"))].

Definition recipients_schema : schema :=
  z_array recipient_schema (Some (1, Some (js "Provide at least one recipient"))).

Definition vars_schema : schema := z_optional (z_record (z_string [])).

Definition date_check (P : Platform) (value : JS.value) : bool :=
  negb (truthy value)
  || match value with VStr s => Date_parse_ok P s | _ => false end.

Definition sendAt_schema (P : Platform) (msg : jstring) : schema :=
  z_refine (z_optional (z_string [])) (date_check P) msg.

(** The pairs that [ZodRecord._parse] hands to [mergeObjectSync]. *)
Definition record_pairs (P : Platform) (path : list path_segment)
  (entries : list (jstring * value)) : list pair :=
  map (fun kv => Pair (fst kv) (parse P (z_string []) (path ++ [Key (fst kv)]) (snd kv)) true)
      entries.

(** What [mergeObjectSync] keeps of one pair. *)
Definition field_kept (k : jstring) (r : parsed) (h : bool) : list (jstring * value) :=
  if negb (is_undefined (output r)) || h then [(k, output r)] else [].

(** The six pairs of [inboundSchema] on an object. *)
Definition inbound_pairs (P : Platform) (props : list (jstring * value)) : list pair :=
  [ Pair k_workflowTag
      (parse P (required_string (js "workflowTag is required")) [Key k_workflowTag]
         (read_prop k_workflowTag props))
      (has_prop k_workflowTag props);
    Pair k_recipients
      (parse P recipients_schema [Key k_recipients] (read_prop k_recipients props))
      (has_prop k_recipients props);
    Pair k_message
      (parse P (required_string (js "message is required")) [Key k_message]
         (read_prop k_message props))
      (has_prop k_message props);
    Pair k_mediaUrl
      (parse P (z_optional (z_string [check_url None])) [Key k_mediaUrl]
         (read_prop k_mediaUrl props))
      (has_prop k_mediaUrl props);
    Pair k_workflowVars
      (parse P vars_schema [Key k_workflowVars] (read_prop k_workflowVars props))
      (has_prop k_workflowVars props);
    Pair k_sendAt
      (parse P (sendAt_schema P (js "sendAt must be a valid ISO 8601 date string"))
         [Key k_sendAt] (read_prop k_sendAt props))
      (has_prop k_sendAt props) ].

(** A field of the body as the downstream reads it: there when the body
    gave it a value. *)
Definition present (k : jstring) (props : list (jstring * value)) : list (jstring * value) :=
  if is_undefined (read_prop k props) then [] else [(k, read_prop k props)].

Definition present_vars (props : list (jstring * value)) : list (jstring * value) :=
  if is_undefined (read_prop k_workflowVars props) then []
  else [(k_workflowVars, copied (read_prop k_workflowVars props))].

(** The document sent downstream for an accepted body with the
    properties [props]. *)
Definition forwarded_json (world : Route.World) (request : Route.NextRequest)
  (props : list (jstring * value)) : value :=
  VObj ([ (k_workflowTag, trimmed (read_prop k_workflowTag props));
          (k_recipients, VArr (map trimmed (items_of (read_prop k_recipients props))));
          (k_message, trimmed (read_prop k_message props)) ]
        ++ present k_mediaUrl props
        ++ present_vars props
        ++ present k_sendAt props
        ++ [ (k_requestedAt, VStr (Route.toISOString_now world)) ]
        ++ match Route.headers_get_origin request with
           | Some o => [ (k_origin, VStr o) ]
           | None => []
           end).

(** The names of the optional fields that the body gave a value. *)
Definition named (k : jstring) (props : list (jstring * value)) : list jstring :=
  if is_undefined (read_prop k props) then [] else [k].

(** The properties of the document written for an object. *)
Definition json_props (props : list (jstring * value)) : list (jstring * value) :=
  flat_map
    (fun kv => if is_undefined (snd kv) then [] else [(fst kv, to_json (snd kv))])
    props.

(** *** The client-facing schema *)

Definition recipients_client_schema : schema :=
  z_transform
    (required_string (js "At least one recipient is required"))
    (fun value =>
       match value with
       | VStr s => VArr (map VStr (Form.split_recipients s))
       | _ => VUndefined
       end).

Definition mediaUrl_client_schema : schema :=
  z_or (z_optional (z_string [check_url (Some (js "Must be a valid URL"))]))
       (z_literal []).

(** The recipient entries that the form posts. *)
Definition entries_of (form : Form.FormFields) : list jstring :=
  Form.split_recipients (trim (Form.recipients form)).

(** The six pairs of [payloadSchema] on the draft of a form. *)
Definition client_pairs (P : Platform) (form : Form.FormFields) (vars : value) : list pair :=
  [ Pair k_workflowTag
      (parse P (required_string (js "Workflow tag is required")) [Key k_workflowTag]
         (VStr (Form.workflowTag form)))
      true;
    Pair k_recipients
      (parse P recipients_client_schema [Key k_recipients] (VStr (Form.recipients form)))
      true;
    Pair k_message
      (parse P (required_string (js "A message body is required")) [Key k_message]
         (VStr (Form.message form)))
      true;
    Pair k_mediaUrl
      (parse P mediaUrl_client_schema [Key k_mediaUrl] (VStr (Form.mediaUrl form)))
      true;
    Pair k_workflowVars
      (parse P vars_schema [Key k_workflowVars] vars)
      true;
    Pair k_sendAt
      (parse P (sendAt_schema P (js "Send at must be a valid ISO date"))
         [Key k_sendAt] (Form.normalizeDateField P (Form.sendAt form)))
      true ].

(** What the client-facing schema does with [mediaUrl]: a string that
    the URL parser takes, or the empty string. *)
Definition mediaUrl_ok_client (P : Platform) (m : jstring) : bool :=
  URL_ok P m || eqb m [].

(** The drafts the client-facing schema accepts. *)
Definition accepted_by_client (P : Platform) (form : Form.FormFields) (vars : value) : bool :=
  nonempty_after_trim (VStr (Form.workflowTag form))
  && nonempty_after_trim (VStr (Form.recipients form))
  && nonempty_after_trim (VStr (Form.message form))
  && mediaUrl_ok_client P (Form.mediaUrl form)
  && workflowVars_ok vars
  && sendAt_ok P (Form.normalizeDateField P (Form.sendAt form)).

(** A property that is written when its value is defined. *)
Definition defined_prop (k : jstring) (v : value) : list (jstring * value) :=
  if is_undefined v then [] else [(k, v)].

(** The body the form posts for an accepted draft. *)
Definition posted_props (P : Platform) (form : Form.FormFields) (vars : value)
  : list (jstring * value) :=
  [ (k_workflowTag, VStr (trim (Form.workflowTag form)));
    (k_recipients, VArr (map VStr (entries_of form)));
    (k_message, VStr (trim (Form.message form)));
    (k_mediaUrl, VStr (Form.mediaUrl form)) ]
  ++ defined_prop k_workflowVars (copied vars)
  ++ defined_prop k_sendAt (Form.normalizeDateField P (Form.sendAt form)).

Definition no_entries (entries : list jstring) : bool :=
  match entries with [] => true | _ => false end.

(** *** The workflow variables, in the words of the specification *)

(** A value has a string representation unless it is, or is an array
    that holds at any depth, an object with a property of its own named
    [toString]. *)
Fixpoint has_string (v : value) : bool :=
  match v with
  | VArr items => forallb has_string items
  | VObj props => negb (has_prop (js "toString") props)
  | _ => true
  end.

(** The string representation of a value that has one. *)
Fixpoint string_of (P : Platform) (v : value) : jstring :=
  match v with
  | VUndefined => js "undefined"
  | VNull => js "null"
  | VBool true => js "true"
  | VBool false => js "false"
  | VNum x => Number_toString P x
  | VStr s => s
  | VArr items =>
      Form.join (js ",")
        (map (fun x => if Form.is_nullish x then [] else string_of P x) items)
  | VObj _ => js "[object Object]"
  end.

(** "every value is converted to a string representation": the entry
    that [tryParseWorkflowVars] makes of an entry of the parsed object. *)
Definition converted (P : Platform) (kv : jstring * value) : jstring * value :=
  (fst kv, VStr (string_of P (snd kv))).

(** Every value of the mapping has a string representation. *)
Definition all_have_strings (entries : list (jstring * value)) : bool :=
  forallb (fun kv => has_string (snd kv)) entries.

(** The entries that the conversion keeps: all but one named [__proto__]. *)
Definition convertible (kv : jstring * value) : bool :=
  negb (eqb (fst kv) proto_key).

(** "object-shaped (not an array, not a primitive)" *)
Definition object_shaped (v : value) : bool :=
  match v with VObj _ => true | _ => false end.

(** A list of properties as [z.record] leaves it: distinct keys, none of
    them [__proto__]. *)
Definition clean (props : list (jstring * value)) : Prop :=
  NoDup (map fst props) /\ forallb convertible props = true.

(** *** The answers of the relay *)

Definition k_issues : jstring := js "issues".
Definition k_n8nResponse : jstring := js "n8nResponse".

Definition answer_500 : Route.NextResponse :=
  {| Route.status_code := 500;
     Route.json_body := VObj [ (k_message, VStr Route.not_configured_message) ] |}.

Definition answer_400 (error : thrown) : Route.NextResponse :=
  {| Route.status_code := 400;
     Route.json_body :=
       VObj [ (k_message, VStr (js "Invalid JSON payload"));
              (k_issues, VArr [VStr (error_String error)]) ] |}.

Definition answer_422 (iss : list issue) : Route.NextResponse :=
  {| Route.status_code := 422;
     Route.json_body :=
       VObj [ (k_message, VStr (js "Validation failed"));
              (k_issues, VArr (map (fun i => VStr (message i)) iss)) ] |}.

Definition answer_502 (status : N) (details : jstring) : Route.NextResponse :=
  {| Route.status_code := 502;
     Route.json_body :=
       VObj ((k_message, VStr (js "n8n responded with status " ++ decimal status))
             :: match details with
                | [] => []
                | _ => [ (k_issues, VArr [VStr details]) ]
                end) |}.

Definition answer_200 (result : value) : Route.NextResponse :=
  {| Route.status_code := 200;
     Route.json_body :=
       VObj ((k_message, VStr (js "Workflow dispatched to n8n."))
             :: if is_undefined result then []
                else [ (k_n8nResponse, to_json result) ]) |}.

Definition answer_504 (error : thrown) : Route.NextResponse :=
  {| Route.status_code := 504;
     Route.json_body :=
       VObj [ (k_message, VStr (js "Failed to communicate with n8n webhook."));
              (k_issues, VArr [VStr (diagnostic error)]) ] |}.

(** The six ways in which the handler ends: the answer, and the events
    recorded on the way. *)
Inductive outcome : Route.NextResponse -> list Route.event -> Prop :=
| not_configured : outcome answer_500 []
| malformed (error : thrown) : outcome (answer_400 error) []
| refused (iss : list issue) : outcome (answer_422 iss) []
| downstream_failed (call : Route.fetch_call) (response : Route.Response)
    (details : jstring) :
    Route.ok response = false ->
    outcome (answer_502 (Route.response_status response) details) [Route.Fetch call]
| dispatched (call : Route.fetch_call) (result : value) :
    outcome (answer_200 result) [Route.Fetch call]
| unreachable (call : Route.fetch_call) (error : thrown) :
    outcome (answer_504 error)
      [Route.Fetch call; Route.ConsoleError (js "[n8n] webhook call failed") error].

Definition is_fetch (ev : Route.event) : bool :=
  match ev with Route.Fetch _ => true | _ => false end.

Definition is_console_error (ev : Route.event) : bool :=
  match ev with Route.ConsoleError _ _ => true | _ => false end.

(** The request gets as far as the outbound call. *)
Definition reaches_downstream (P : Platform) (env : Route.Env)
  (request : Route.NextRequest) : bool :=
  Route.configured (Route.N8N_WEBHOOK_URL env)
  && match Route.request_json request with
     | inr body => accepted_by_server P body
     | inl _ => false
     end.

(** The relay's answer as the form receives it. *)
Definition reply_of (answer : Route.NextResponse) : Form.Reply :=
  {| Form.reply_status := Route.status_code answer;
     Form.reply_json := inr (Route.json_body answer) |}.

(** [String.prototype.trim] leaves nothing of a string of whitespace. *)
Definition separator_or_space (c : code_unit) : bool :=
  isSeparator c || isWhiteSpace c.

Definition no_separator (s : jstring) : bool :=
  forallb (fun c => negb (isSeparator c)) s.

(** An entry as the form posts it. *)
Definition well_formed_entry (e : jstring) : Prop :=
  e <> [] /\ trim e = e /\ no_separator e = true.

(** The six pairs of [payloadSchema] on a draft whose date is [date]. *)
Definition draft_pairs (P : Platform) (form : Form.FormFields) (vars date : value)
  : list pair :=
  [ Pair k_workflowTag
      (parse P (required_string (js "Workflow tag is required")) [Key k_workflowTag]
         (VStr (Form.workflowTag form)))
      true;
    Pair k_recipients
      (parse P recipients_client_schema [Key k_recipients] (VStr (Form.recipients form)))
      true;
    Pair k_message
      (parse P (required_string (js "A message body is required")) [Key k_message]
         (VStr (Form.message form)))
      true;
    Pair k_mediaUrl
      (parse P mediaUrl_client_schema [Key k_mediaUrl] (VStr (Form.mediaUrl form)))
      true;
    Pair k_workflowVars
      (parse P vars_schema [Key k_workflowVars] vars)
      true;
    Pair k_sendAt
      (parse P (sendAt_schema P (js "Send at must be a valid ISO date"))
         [Key k_sendAt] date)
      true ].

(** The text is the JSON text of an object whose values all have a
    string representation. *)
Definition converts_to_mapping (P : Platform) (input : jstring) : bool :=
  match JSON_parse P input with
  | inr (VObj entries) => all_have_strings entries
  | _ => false
  end.

(** The message of [tryParseWorkflowVars] for a text that is refused:
    the text is no JSON, or is the JSON of something that is no
    object, or of an object with a value that [String] cannot convert. *)
Definition refusal_message (P : Platform) (input : jstring) : jstring :=
  match JSON_parse P input with
  | inr (VObj _) => Form.catch_message (toPrimitive_TypeError P)
  | inr _ => js "Workflow variables must be a JSON object."
  | inl error => Form.catch_message error
  end.

(** The messages of the client-facing schema for a draft, in the order
    of the schema. *)
Definition client_messages (P : Platform) (form : Form.FormFields) : list jstring :=
  (if nonempty_after_trim (VStr (Form.workflowTag form)) then []
   else [js "Workflow tag is required"])
  ++ (if nonempty_after_trim (VStr (Form.recipients form)) then []
      else [js "At least one recipient is required"])
  ++ (if nonempty_after_trim (VStr (Form.message form)) then []
      else [js "A message body is required"])
  ++ (if mediaUrl_ok_client P (Form.mediaUrl form) then []
      else [js "Must be a valid URL"])
  ++ (if sendAt_ok P (Form.normalizeDateField P (Form.sendAt form)) then []
      else [js "Send at must be a valid ISO date"]).

(** [Array.isArray(v) ? v : []] *)
Definition array_or_empty (v : value) : value :=
  if Form.Array_isArray v then v else VArr [].


(* ===================================================================== *)
(** * Properties *)
(* ===================================================================== *)

(* --------------------------------------------------------------------- *)
(** ** Strings *)

Section Strings.

Lemma eqb_refl (s : jstring) : eqb s s = true.
Proof. induction s as [|c s IH]; simpl; [reflexivity|]. now rewrite N.eqb_refl, IH. Qed.

Lemma eqb_eq (a b : jstring) : eqb a b = true <-> a = b.
Proof.
  split; [|intros ->; apply eqb_refl].
  revert b; induction a as [|x a IH]; intros [|y b]; simpl; try discriminate; auto.
  intros H. apply andb_true_iff in H as [Hx Hab].
  apply N.eqb_eq in Hx. subst. f_equal. auto.
Qed.

Lemma eqb_neq (a b : jstring) : a <> b -> eqb a b = false.
Proof.
  intros Hne. destruct (eqb a b) eqn:E; [|reflexivity].
  apply eqb_eq in E. contradiction.
Qed.

Lemma eqb_nil_length (s : jstring) : eqb s [] = Nat.ltb (length s) 1.
Proof. destruct s; reflexivity. Qed.

Lemma trimStart_idempotent (s : jstring) : trimStart (trimStart s) = trimStart s.
Proof.
  induction s as [|c s IH]; simpl; [reflexivity|].
  destruct (isWhiteSpace c) eqn:E; [exact IH|]. simpl. now rewrite E.
Qed.

Lemma trimStart_snoc (l : jstring) (c : code_unit) :
  isWhiteSpace c = false -> trimStart (l ++ [c]) = trimStart l ++ [c].
Proof.
  intros Hc. induction l as [|x l IH]; simpl.
  - now rewrite Hc.
  - destruct (isWhiteSpace x); [exact IH|reflexivity].
Qed.

Lemma trimEnd_cons (c : code_unit) (s : jstring) :
  isWhiteSpace c = false -> trimEnd (c :: s) = c :: trimEnd s.
Proof.
  intros Hc. unfold trimEnd. simpl rev at 2.
  rewrite trimStart_snoc by exact Hc. rewrite rev_app_distr. reflexivity.
Qed.

Lemma trimEnd_idempotent (s : jstring) : trimEnd (trimEnd s) = trimEnd s.
Proof.
  unfold trimEnd. rewrite rev_involutive, trimStart_idempotent. reflexivity.
Qed.

Lemma trimStart_trimEnd (s : jstring) :
  trimStart s = s -> trimStart (trimEnd s) = trimEnd s.
Proof.
  destruct s as [|c s]; [reflexivity|]. simpl.
  destruct (isWhiteSpace c) eqn:E.
  - intros H. exfalso.
    assert (Hlen : length (trimStart s) <= length s).
    { clear. induction s as [|x s IH]; simpl; [lia|].
      destruct (isWhiteSpace x); simpl; lia. }
    rewrite H in Hlen. simpl in Hlen. lia.
  - intros _. rewrite trimEnd_cons by exact E. simpl. now rewrite E.
Qed.

(** [trim] removes everything it can remove: trimming twice changes nothing. *)
Lemma trim_idempotent (s : jstring) : trim (trim s) = trim s.
Proof.
  unfold trim.
  rewrite (trimStart_trimEnd (trimStart s)) by apply trimStart_idempotent.
  apply trimEnd_idempotent.
Qed.

End Strings.

(* --------------------------------------------------------------------- *)
(** ** Statuses *)

Section Statuses.

Lemma merge_status_valid (st : parse_status) (sts : list parse_status) :
  merge_status st sts = valid <-> st = valid /\ forallb is_valid sts = true.
Proof.
  unfold merge_status.
  induction sts as [|x sts IH]; simpl.
  - tauto.
  - destruct x; simpl.
    + exact IH.
    + destruct (existsb is_aborted sts); [|destruct st]; simpl;
        split; try discriminate; intros [? ?]; discriminate.
    + split; [discriminate|]. intros [_ H]; discriminate.
Qed.

Lemma is_valid_true (st : parse_status) : is_valid st = true <-> st = valid.
Proof. destruct st; simpl; split; congruence. Qed.

Lemma is_valid_merge (st : parse_status) (sts : list parse_status) :
  is_valid (merge_status st sts) = is_valid st && forallb is_valid sts.
Proof.
  destruct (is_valid st && forallb is_valid sts) eqn:E.
  - apply andb_true_iff in E as [E1 E2]. apply is_valid_true in E1.
    apply is_valid_true, merge_status_valid. auto.
  - destruct (is_valid (merge_status st sts)) eqn:E'; [|reflexivity].
    apply is_valid_true, merge_status_valid in E' as [-> E2].
    simpl in E. congruence.
Qed.

Lemma mergeObjectSync_status (pairs : list pair) :
  status (mergeObjectSync pairs)
  = merge_status valid (map status (map pair_value pairs)).
Proof.
  unfold mergeObjectSync.
  destruct (merge_status valid (map status (map pair_value pairs))); reflexivity.
Qed.

Lemma mergeObjectSync_issues (pairs : list pair) :
  issues (mergeObjectSync pairs) = all_issues (map pair_value pairs).
Proof.
  unfold mergeObjectSync.
  destruct (is_aborted _); reflexivity.
Qed.

Lemma mergeObjectSync_output (pairs : list pair) :
  status (mergeObjectSync pairs) = valid ->
  output (mergeObjectSync pairs) = VObj (finalObject pairs).
Proof.
  rewrite mergeObjectSync_status. unfold mergeObjectSync. intros ->. reflexivity.
Qed.

End Statuses.

(* --------------------------------------------------------------------- *)
(** ** The fields of the two schemas *)

Section Fields.
Variable P : Platform.

Lemma parse_required (msg : jstring) (path : list path_segment) (v : value) :
  parse P (required_string msg) path v
  = match v with
    | VStr s =>
        if eqb (trim s) []
        then Parsed dirty (VStr (trim s)) [Issue path (too_small_string 1) msg]
        else Parsed valid (VStr (trim s)) []
    | _ => wrong_type P path t_string v
    end.
Proof.
  destruct v; try reflexivity. simpl. rewrite eqb_nil_length.
  destruct (Nat.ltb (length (trim s)) 1); reflexivity.
Qed.

Lemma required_valid (msg : jstring) (path : list path_segment) (v : value) :
  is_valid (status (parse P (required_string msg) path v)) = nonempty_after_trim v.
Proof.
  rewrite parse_required. destruct v; try reflexivity.
  simpl. destruct (eqb (trim s) []); reflexivity.
Qed.

Lemma required_output (msg : jstring) (path : list path_segment) (v : value) :
  output (parse P (required_string msg) path v) = trimmed v.
Proof.
  rewrite parse_required. destruct v; try reflexivity.
  simpl. destruct (eqb (trim s) []); reflexivity.
Qed.

Lemma parse_recipient (path : list path_segment) (v : value) :
  parse P recipient_schema path v
  = match v with
    | VStr s =>
        if Route.recipient_regex (trim s)
        then Parsed valid (VStr (trim s)) []
        else Parsed dirty (VStr (trim s))
               [Issue path invalid_string_regex
                  (js "Recipients must be numeric in international format")]
    | _ => wrong_type P path t_string v
    end.
Proof.
  destruct v; try reflexivity. simpl.
  destruct (Route.recipient_regex (trim s)); reflexivity.
Qed.

Lemma recipient_valid (path : list path_segment) (v : value) :
  is_valid (status (parse P recipient_schema path v)) = numeric_id v.
Proof.
  rewrite parse_recipient. destruct v; try reflexivity.
  simpl. destruct (Route.recipient_regex (trim s)); reflexivity.
Qed.

Lemma recipient_output (path : list path_segment) (v : value) :
  output (parse P recipient_schema path v) = trimmed v.
Proof.
  rewrite parse_recipient. destruct v; try reflexivity.
  simpl. destruct (Route.recipient_regex (trim s)); reflexivity.
Qed.

Lemma map_mapi_from {A B C : Type} (g : B -> C) (f : nat -> A -> B) (h : A -> C) :
  (forall i x, g (f i x) = h x) ->
  forall l i, map g (mapi_from i f l) = map h l.
Proof.
  intros Hgf. induction l as [|x l IH]; intros i; simpl; [reflexivity|].
  now rewrite Hgf, IH.
Qed.

Lemma forallb_mapi_from {A B : Type} (g : B -> bool) (f : nat -> A -> B) (h : A -> bool) :
  (forall i x, g (f i x) = h x) ->
  forall l i, forallb g (mapi_from i f l) = forallb h l.
Proof.
  intros Hgf. induction l as [|x l IH]; intros i; simpl; [reflexivity|].
  now rewrite Hgf, IH.
Qed.

Lemma forallb_map_status (rs : list parsed) :
  forallb is_valid (map status rs) = forallb (fun r => is_valid (status r)) rs.
Proof. induction rs as [|r rs IH]; simpl; [reflexivity|]. now rewrite IH. Qed.

Lemma parse_recipients_status (path : list path_segment) (items : list value) :
  status (parse P recipients_schema path (VArr items))
  = merge_status
      (if Nat.ltb (length items) 1 then dirty else valid)
      (map status
         (mapi_from 0 (fun i item => parse P recipient_schema (path ++ [Index i]) item)
            items)).
Proof.
  unfold recipients_schema. cbn [parse]. fold recipient_schema.
  set (rs := mapi_from 0 _ items).
  destruct (Nat.ltb (length items) 1);
    cbv zeta; destruct (merge_status _ (map status rs)); reflexivity.
Qed.

Lemma recipients_valid (path : list path_segment) (v : value) :
  is_valid (status (parse P recipients_schema path v)) = recipients_ok v.
Proof.
  destruct v; try reflexivity.
  rewrite parse_recipients_status, is_valid_merge, forallb_map_status.
  rewrite (forallb_mapi_from _ _ numeric_id)
    by (intros i x; apply recipient_valid).
  simpl. destruct (Nat.ltb (length items) 1); reflexivity.
Qed.

Lemma recipients_output (path : list path_segment) (v : value) :
  is_valid (status (parse P recipients_schema path v)) = true ->
  output (parse P recipients_schema path v) = VArr (map trimmed (items_of v)).
Proof.
  destruct v; try discriminate.
  intros Hv. pose proof Hv as Hst. rewrite parse_recipients_status in Hst.
  apply is_valid_true in Hst.
  unfold recipients_schema in *. cbn [parse]. fold recipient_schema.
  set (rs := mapi_from 0 _ items) in *.
  destruct (Nat.ltb (length items) 1); cbv zeta;
    rewrite Hst; cbn [is_aborted output items_of]; f_equal;
    apply map_mapi_from; intros i x; apply recipient_output.
Qed.

Lemma parse_mediaUrl_server (path : list path_segment) (v : value) :
  parse P (z_optional (z_string [check_url None])) path v
  = match v with
    | VUndefined => OK VUndefined
    | VStr s =>
        if URL_ok P s then Parsed valid (VStr s) []
        else Parsed dirty (VStr s)
               [Issue path invalid_string_url (errorMap P invalid_string_url)]
    | _ => wrong_type P path t_string v
    end.
Proof.
  destruct v; try reflexivity. simpl. destruct (URL_ok P s); reflexivity.
Qed.

Lemma mediaUrl_server_valid (path : list path_segment) (v : value) :
  is_valid (status (parse P (z_optional (z_string [check_url None])) path v))
  = mediaUrl_ok_server P v.
Proof.
  rewrite parse_mediaUrl_server. destruct v; try reflexivity.
  simpl. destruct (URL_ok P s); reflexivity.
Qed.

Lemma mediaUrl_server_output (path : list path_segment) (v : value) :
  mediaUrl_ok_server P v = true ->
  output (parse P (z_optional (z_string [check_url None])) path v) = v.
Proof.
  rewrite parse_mediaUrl_server. destruct v; try discriminate; try reflexivity.
  simpl. intros ->. reflexivity.
Qed.

(** A mapping: [z.record(z.string(), z.string())]. *)
Lemma parse_plain_string (path : list path_segment) (v : value) :
  parse P (z_string []) path v
  = match v with
    | VStr s => Parsed valid (VStr s) []
    | _ => wrong_type P path t_string v
    end.
Proof. destruct v; reflexivity. Qed.

Lemma parse_vars (path : list path_segment) (v : value) :
  parse P vars_schema path v
  = match v with
    | VUndefined => OK VUndefined
    | VObj entries => mergeObjectSync (record_pairs P path entries)
    | _ => wrong_type P path t_object v
    end.
Proof. destruct v; reflexivity. Qed.

Lemma record_pairs_valid (path : list path_segment) (entries : list (jstring * value)) :
  forallb is_valid (map status (map pair_value (record_pairs P path entries)))
  = forallb (fun kv => is_string (snd kv)) entries.
Proof.
  induction entries as [|[k v] entries IH]; [reflexivity|].
  unfold record_pairs in *. cbn [map forallb fst snd pair_value].
  rewrite IH. f_equal. rewrite parse_plain_string. destruct v; reflexivity.
Qed.

Lemma record_pairs_final (path : list path_segment) (entries : list (jstring * value)) :
  forallb (fun kv => is_string (snd kv)) entries = true ->
  finalObject (record_pairs P path entries) = record_copy entries.
Proof.
  unfold finalObject, record_copy. generalize (@nil (jstring * value)) as acc.
  induction entries as [|[k v] entries IH]; intros acc Hall; [reflexivity|].
  cbn [forallb snd] in Hall. apply andb_true_iff in Hall as [Hv Hall].
  unfold record_pairs in *. cbn [map fold_left fst snd pair_key pair_value alwaysSet].
  rewrite parse_plain_string. destruct v; try discriminate.
  cbn [output is_undefined negb orb andb].
  rewrite andb_true_r.
  destruct (eqb k proto_key); cbn [negb]; apply IH; exact Hall.
Qed.

Lemma vars_valid (path : list path_segment) (v : value) :
  is_valid (status (parse P vars_schema path v)) = workflowVars_ok v.
Proof.
  rewrite parse_vars. destruct v; try reflexivity.
  rewrite mergeObjectSync_status, is_valid_merge. simpl.
  apply record_pairs_valid.
Qed.

Lemma vars_output (path : list path_segment) (v : value) :
  workflowVars_ok v = true ->
  output (parse P vars_schema path v) = copied v.
Proof.
  intros Hok. rewrite parse_vars. destruct v; try discriminate; try reflexivity.
  simpl in Hok.
  rewrite mergeObjectSync_output.
  - simpl. now rewrite record_pairs_final.
  - apply is_valid_true. rewrite mergeObjectSync_status, is_valid_merge.
    simpl. now rewrite record_pairs_valid.
Qed.

Lemma parse_sendAt (msg : jstring) (path : list path_segment) (v : value) :
  parse P (sendAt_schema P msg) path v
  = match v with
    | VUndefined => OK VUndefined
    | VStr s =>
        if eqb s [] || Date_parse_ok P s then Parsed valid (VStr s) []
        else Parsed dirty (VStr s) [Issue path custom msg]
    | _ => INVALID (issues (wrong_type P path t_string v))
    end.
Proof.
  destruct v; try reflexivity. simpl. unfold date_check. simpl.
  rewrite negb_involutive.
  destruct (eqb s [] || Date_parse_ok P s); reflexivity.
Qed.

Lemma sendAt_valid (msg : jstring) (path : list path_segment) (v : value) :
  is_valid (status (parse P (sendAt_schema P msg) path v)) = sendAt_ok P v.
Proof.
  rewrite parse_sendAt. destruct v; try reflexivity.
  simpl. destruct (eqb s [] || Date_parse_ok P s); reflexivity.
Qed.

Lemma sendAt_output (msg : jstring) (path : list path_segment) (v : value) :
  sendAt_ok P v = true ->
  output (parse P (sendAt_schema P msg) path v) = v.
Proof.
  rewrite parse_sendAt. destruct v; try discriminate; try reflexivity.
  simpl. intros ->. reflexivity.
Qed.

(** *** A field that is not valid reports an issue *)

Lemma app_not_nil_l {A : Type} (a b : list A) : a <> [] -> a ++ b <> [].
Proof. destruct a; [congruence|discriminate]. Qed.

Lemma app_not_nil_r {A : Type} (a b : list A) : b <> [] -> a ++ b <> [].
Proof. destruct a, b; simpl; congruence. Qed.

Lemma required_issues (msg : jstring) (path : list path_segment) (v : value) :
  nonempty_after_trim v = false ->
  issues (parse P (required_string msg) path v) <> [].
Proof.
  rewrite parse_required. destruct v; try discriminate.
  simpl. destruct (eqb (trim s) []); discriminate.
Qed.

Lemma recipient_issues (path : list path_segment) (v : value) :
  numeric_id v = false -> issues (parse P recipient_schema path v) <> [].
Proof.
  rewrite parse_recipient. destruct v; try discriminate.
  simpl. destruct (Route.recipient_regex (trim s)); discriminate.
Qed.

Lemma parse_recipients_issues (path : list path_segment) (items : list value) :
  issues (parse P recipients_schema path (VArr items))
  = (if Nat.ltb (length items) 1
     then [Issue path (too_small_array 1) (js "Provide at least one recipient")]
     else [])
    ++ all_issues
         (mapi_from 0 (fun i item => parse P recipient_schema (path ++ [Index i]) item)
            items).
Proof.
  unfold recipients_schema. cbn [parse]. fold recipient_schema.
  set (rs := mapi_from 0 _ items).
  destruct (Nat.ltb (length items) 1);
    cbv zeta; destruct (is_aborted (merge_status _ (map status rs))); reflexivity.
Qed.

Lemma recipients_issues (path : list path_segment) (v : value) :
  recipients_ok v = false -> issues (parse P recipients_schema path v) <> [].
Proof.
  destruct v; try discriminate.
  rewrite parse_recipients_issues. simpl.
  destruct (Nat.ltb (length items) 1); [discriminate|]. simpl.
  generalize 0. induction items as [|x items IH]; intros i Hno; [discriminate|].
  simpl in Hno. unfold all_issues. cbn [mapi_from map concat].
  destruct (numeric_id x) eqn:E.
  - apply app_not_nil_r. apply IH. exact Hno.
  - apply app_not_nil_l. now apply recipient_issues.
Qed.

Lemma mediaUrl_server_issues (path : list path_segment) (v : value) :
  mediaUrl_ok_server P v = false ->
  issues (parse P (z_optional (z_string [check_url None])) path v) <> [].
Proof.
  rewrite parse_mediaUrl_server. destruct v; try discriminate.
  simpl. intros ->. discriminate.
Qed.

Lemma vars_issues (path : list path_segment) (v : value) :
  workflowVars_ok v = false -> issues (parse P vars_schema path v) <> [].
Proof.
  rewrite parse_vars. destruct v; try discriminate.
  rewrite mergeObjectSync_issues. simpl.
  induction props as [|[k x] props IH]; intros Hno; [discriminate|].
  unfold record_pairs, all_issues in *. cbn [map concat fst snd pair_value forallb] in *.
  destruct (is_string x) eqn:E.
  - apply app_not_nil_r. apply IH. exact Hno.
  - apply app_not_nil_l. rewrite parse_plain_string. destruct x; discriminate.
Qed.

Lemma sendAt_issues (msg : jstring) (path : list path_segment) (v : value) :
  sendAt_ok P v = false -> issues (parse P (sendAt_schema P msg) path v) <> [].
Proof.
  rewrite parse_sendAt. destruct v; try discriminate.
  simpl. intros ->. discriminate.
Qed.

(** The issues of each field are those of its rule. *)
Lemma wrong_type_issue (path : list path_segment) (expected : parsed_type) (v : value) :
  issues (wrong_type P path expected v) = [type_issue P path expected v].
Proof. reflexivity. Qed.

Lemma text_violations_of (k msg : jstring) (v : value) :
  issues (parse P (required_string msg) [Key k] v) = text_violations P k msg v.
Proof.
  rewrite parse_required. destruct v; try reflexivity.
  simpl. destruct (eqb (trim s) []); reflexivity.
Qed.

Lemma recipient_violations_of (i : nat) (x : value) :
  issues (parse P recipient_schema [Key k_recipients; Index i] x)
  = recipient_violations P i x.
Proof.
  rewrite parse_recipient. destruct x; try reflexivity.
  simpl. destruct (Route.recipient_regex (trim s)); reflexivity.
Qed.

Lemma recipients_from_of (items : list value) (i : nat) :
  all_issues
    (mapi_from i
       (fun i item => parse P recipient_schema ([Key k_recipients] ++ [Index i]) item)
       items)
  = recipients_from P i items.
Proof.
  revert i. induction items as [|x items IH]; intros i; [reflexivity|].
  unfold all_issues in *. cbn [mapi_from map concat recipients_from].
  rewrite IH. f_equal. apply recipient_violations_of.
Qed.

Lemma recipients_violations_of (v : value) :
  issues (parse P recipients_schema [Key k_recipients] v) = recipients_violations P v.
Proof.
  destruct v; try reflexivity.
  rewrite parse_recipients_issues, recipients_from_of.
  destruct items; reflexivity.
Qed.

Lemma mediaUrl_violations_of (v : value) :
  issues (parse P (z_optional (z_string [check_url None])) [Key k_mediaUrl] v)
  = mediaUrl_violations P v.
Proof.
  rewrite parse_mediaUrl_server. destruct v; try reflexivity.
  simpl. destruct (URL_ok P s); reflexivity.
Qed.

Lemma workflowVars_violations_of (v : value) :
  issues (parse P vars_schema [Key k_workflowVars] v) = workflowVars_violations P v.
Proof.
  rewrite parse_vars. destruct v; try reflexivity.
  rewrite mergeObjectSync_issues. cbn [workflowVars_violations].
  induction props as [|[k x] props IH]; [reflexivity|].
  unfold record_pairs, all_issues in *.
  cbn [map concat fst snd pair_value flat_map].
  rewrite IH. f_equal. rewrite parse_plain_string.
  destruct x; reflexivity.
Qed.

Lemma sendAt_violations_of (v : value) :
  issues (parse P (sendAt_schema P (js "sendAt must be a valid ISO 8601 date string"))
            [Key k_sendAt] v)
  = sendAt_violations P v.
Proof.
  rewrite parse_sendAt. destruct v; try reflexivity.
  simpl. destruct (eqb s [] || Date_parse_ok P s); reflexivity.
Qed.

Lemma existsb_app_l {A : Type} (f : A -> bool) (a b : list A) :
  existsb f a = true -> existsb f (a ++ b) = true.
Proof. intros H. rewrite existsb_app, H. reflexivity. Qed.

Lemma existsb_app_r {A : Type} (f : A -> bool) (a b : list A) :
  existsb f b = true -> existsb f (a ++ b) = true.
Proof. intros H. rewrite existsb_app, H. apply orb_true_r. Qed.

Lemma vars_issues_about (k : jstring) (v : value) :
  workflowVars_ok v = false ->
  existsb (about k) (issues (parse P vars_schema [Key k] v)) = true.
Proof.
  assert (Hk : about k (mk_issue P [Key k] (invalid_type t_object (getParsedType v)) None)
               = true).
  { unfold about. simpl. apply eqb_refl. }
  rewrite parse_vars.
  destruct v; try discriminate; intros Hno;
    try (cbn [wrong_type INVALID issues existsb]; rewrite Hk; reflexivity).
  rewrite mergeObjectSync_issues. clear Hk. cbn [workflowVars_ok] in Hno.
  induction props as [|[k' x] props IH]; [discriminate|].
  unfold record_pairs, all_issues in *. cbn [map concat fst snd pair_value forallb] in *.
  destruct (is_string x) eqn:E.
  - apply existsb_app_r. apply IH. exact Hno.
  - apply existsb_app_l. rewrite parse_plain_string.
    destruct x; try discriminate; unfold about; simpl; rewrite eqb_refl; reflexivity.
Qed.

(** *** Objects with the six fields *)

Lemma finalObject_fields (r1 r2 r3 r4 r5 r6 : parsed) (h1 h2 h3 h4 h5 h6 : bool) :
  finalObject
    [ Pair k_workflowTag r1 h1; Pair k_recipients r2 h2; Pair k_message r3 h3;
      Pair k_mediaUrl r4 h4; Pair k_workflowVars r5 h5; Pair k_sendAt r6 h6 ]
  = field_kept k_workflowTag r1 h1 ++ field_kept k_recipients r2 h2
    ++ field_kept k_message r3 h3 ++ field_kept k_mediaUrl r4 h4
    ++ field_kept k_workflowVars r5 h5 ++ field_kept k_sendAt r6 h6.
Proof.
  unfold finalObject, field_kept.
  cbn [fold_left pair_key pair_value alwaysSet].
  generalize (output r1) (output r2) (output r3) (output r4) (output r5) (output r6).
  intros o1 o2 o3 o4 o5 o6.
  destruct (negb (is_undefined o1) || h1), (negb (is_undefined o2) || h2),
    (negb (is_undefined o3) || h3), (negb (is_undefined o4) || h4),
    (negb (is_undefined o5) || h5), (negb (is_undefined o6) || h6);
    reflexivity.
Qed.

Lemma read_prop_has (k : jstring) (props : list (jstring * value)) :
  has_prop k props = false -> read_prop k props = VUndefined.
Proof.
  unfold has_prop, read_prop. destruct (get_prop k props); [discriminate|reflexivity].
Qed.

Lemma field_kept_same (k : jstring) (r : parsed) (props : list (jstring * value)) :
  output r = read_prop k props ->
  field_kept k r (has_prop k props) = kept k props.
Proof.
  intros Hout. unfold field_kept, kept. rewrite Hout.
  destruct (has_prop k props) eqn:E.
  - now rewrite orb_true_r.
  - now rewrite (read_prop_has _ _ E).
Qed.

End Fields.

(* --------------------------------------------------------------------- *)
(** ** The server-facing schema *)

Section Inbound.
Variable P : Platform.

Lemma inbound_parse_object (props : list (jstring * value)) :
  parse P (Route.inboundSchema P) [] (VObj props) = mergeObjectSync (inbound_pairs P props).
Proof. reflexivity. Qed.

Lemma inbound_valid (body : value) :
  is_valid (status (parse P (Route.inboundSchema P) [] body)) = accepted_by_server P body.
Proof.
  destruct body; try reflexivity.
  rewrite inbound_parse_object, mergeObjectSync_status, is_valid_merge.
  unfold inbound_pairs, accepted_by_server.
  cbn [map pair_value forallb is_valid andb].
  rewrite !required_valid, recipients_valid, mediaUrl_server_valid, vars_valid, sendAt_valid.
  rewrite andb_true_r, !andb_assoc. reflexivity.
Qed.

Lemma accepted_fields (props : list (jstring * value)) :
  accepted_by_server P (VObj props) = true ->
  nonempty_after_trim (read_prop k_workflowTag props) = true
  /\ recipients_ok (read_prop k_recipients props) = true
  /\ nonempty_after_trim (read_prop k_message props) = true
  /\ mediaUrl_ok_server P (read_prop k_mediaUrl props) = true
  /\ workflowVars_ok (read_prop k_workflowVars props) = true
  /\ sendAt_ok P (read_prop k_sendAt props) = true.
Proof.
  unfold accepted_by_server. intros H.
  repeat (apply andb_true_iff in H as [H ?]). tauto.
Qed.

Lemma required_kept (k msg : jstring) (path : list path_segment) (v : value) (h : bool) :
  nonempty_after_trim v = true ->
  field_kept k (parse P (required_string msg) path v) h = [(k, trimmed v)].
Proof.
  intros Hv. unfold field_kept. rewrite required_output.
  destruct v; try discriminate. reflexivity.
Qed.

Lemma inbound_output (props : list (jstring * value)) :
  accepted_by_server P (VObj props) = true ->
  output (parse P (Route.inboundSchema P) [] (VObj props)) = normalized props.
Proof.
  intros Hacc. pose proof Hacc as Hst. rewrite <- inbound_valid in Hst.
  apply is_valid_true in Hst.
  rewrite inbound_parse_object in *. rewrite (mergeObjectSync_output _ Hst).
  unfold accepted_by_server in Hacc.
  repeat (apply andb_true_iff in Hacc as [Hacc ?]).
  unfold inbound_pairs. rewrite finalObject_fields.
  rewrite !required_kept by assumption.
  rewrite (field_kept_same k_mediaUrl) by (now apply mediaUrl_server_output).
  rewrite (field_kept_same k_sendAt) by (now apply sendAt_output).
  assert (Hrc : field_kept k_recipients
                  (parse P recipients_schema [Key k_recipients]
                     (read_prop k_recipients props))
                  (has_prop k_recipients props)
                = [(k_recipients,
                    VArr (map trimmed (items_of (read_prop k_recipients props))))]).
  { unfold field_kept. rewrite recipients_output by (now rewrite recipients_valid).
    reflexivity. }
  assert (Hvars : field_kept k_workflowVars
                    (parse P vars_schema [Key k_workflowVars]
                       (read_prop k_workflowVars props))
                    (has_prop k_workflowVars props)
                  = kept_vars props).
  { unfold field_kept, kept_vars. rewrite vars_output by assumption.
    destruct (has_prop k_workflowVars props) eqn:E.
    - now rewrite orb_true_r.
    - now rewrite (read_prop_has _ _ E). }
  rewrite Hrc, Hvars. reflexivity.
Qed.

(** The server-facing schema accepts exactly the bodies described by
    the field rules, and returns their normalized payload. *)
Lemma inbound_safeParse_success (body data : value) :
  safeParse P (Route.inboundSchema P) body = success data
  <-> accepted_by_server P body = true /\ data = normalized (own_props body).
Proof.
  unfold safeParse. rewrite inbound_valid.
  destruct (accepted_by_server P body) eqn:Hacc.
  - destruct body; try discriminate.
    rewrite (inbound_output _ Hacc). simpl.
    split; [intros [= <-]; auto | intros [_ ->]; reflexivity].
  - split; [discriminate | intros [? _]; discriminate].
Qed.

Lemma inbound_safeParse_failure (body : value) (iss : list issue) :
  safeParse P (Route.inboundSchema P) body = failure iss
  <-> accepted_by_server P body = false
      /\ iss = issues (parse P (Route.inboundSchema P) [] body).
Proof.
  unfold safeParse. rewrite inbound_valid.
  destruct (accepted_by_server P body).
  - split; [discriminate | intros [? _]; discriminate].
  - split; [intros [= <-]; auto | intros [_ ->]; reflexivity].
Qed.

(** The issues of an object body are those of its six fields, in the
    order of the schema. *)
Lemma inbound_issues_object (props : list (jstring * value)) :
  issues (parse P (Route.inboundSchema P) [] (VObj props))
  = all_issues (map pair_value (inbound_pairs P props)).
Proof. rewrite inbound_parse_object. apply mergeObjectSync_issues. Qed.

(** The issues of a body are those of its rules. *)
Lemma inbound_violations (body : value) :
  issues (parse P (Route.inboundSchema P) [] body) = violations P body.
Proof.
  destruct body; try reflexivity.
  rewrite inbound_issues_object. unfold inbound_pairs, all_issues, violations.
  cbn [map pair_value concat]. rewrite app_nil_r.
  now rewrite !text_violations_of, recipients_violations_of, mediaUrl_violations_of,
    workflowVars_violations_of, sendAt_violations_of.
Qed.

Lemma about_type_issue (k : jstring) (rest : list path_segment)
  (expected : parsed_type) (v : value) :
  about k (type_issue P (Key k :: rest) expected v) = true.
Proof. unfold about. simpl. apply eqb_refl. Qed.

Lemma text_violations_about (k msg : jstring) (v : value) :
  nonempty_after_trim v = false ->
  existsb (about k) (text_violations P k msg v) = true.
Proof.
  destruct v; intros Hno; try discriminate;
    try (cbn [text_violations existsb]; now rewrite about_type_issue).
  cbn [nonempty_after_trim] in Hno. apply negb_false_iff in Hno.
  cbn [text_violations]. rewrite Hno. unfold about. simpl. now rewrite eqb_refl.
Qed.

(** The recipient at index [i] that is not a numeric identifier has its
    own issue, at its own index. *)
Lemma recipients_from_nth (items : list value) (j i : nat) (x : value) :
  nth_error items i = Some x ->
  numeric_id x = false ->
  exists fault,
    In fault (recipients_from P j items)
    /\ issue_path fault = [Key k_recipients; Index (j + i)].
Proof.
  revert j i. induction items as [|y items IH]; intros j i Hnth Hno.
  - destruct i; discriminate.
  - destruct i as [|i]; cbn [nth_error recipients_from] in *.
    + injection Hnth as ->. replace (j + 0) with j by lia.
      destruct x; try discriminate;
        try (eexists; split; [apply in_or_app; left; left; reflexivity|reflexivity]).
      cbn [numeric_id] in Hno. cbn [recipient_violations]. rewrite Hno.
      eexists. split; [apply in_or_app; left; left; reflexivity|reflexivity].
    + destruct (IH (S j) i Hnth Hno) as (fault & Hin & Hpath).
      exists fault. split; [apply in_or_app; right; exact Hin|].
      rewrite Hpath. do 3 f_equal. lia.
Qed.

Lemma recipients_violations_nth (items : list value) (i : nat) (x : value) :
  nth_error items i = Some x ->
  numeric_id x = false ->
  exists fault,
    In fault (recipients_violations P (VArr items))
    /\ issue_path fault = [Key k_recipients; Index i].
Proof.
  intros Hnth Hno. destruct items as [|y items]; [destruct i; discriminate|].
  apply (recipients_from_nth (y :: items) 0 i x Hnth Hno).
Qed.

Lemma recipients_violations_about (v : value) :
  recipients_ok v = false ->
  existsb (about k_recipients) (recipients_violations P v) = true.
Proof.
  destruct v; intros Hno; try discriminate;
    try (cbn [recipients_violations existsb]; now rewrite about_type_issue).
  destruct items as [|y items]; [reflexivity|].
  cbn [recipients_ok length Nat.ltb Nat.leb negb andb] in Hno.
  assert (Hsome : exists i x, nth_error (y :: items) i = Some x /\ numeric_id x = false).
  { clear -Hno. induction (y :: items) as [|z l IH]; [discriminate|].
    cbn [forallb] in Hno. destruct (numeric_id z) eqn:Hz.
    - destruct (IH Hno) as (i & x & Hnth & Hx). exists (S i), x. auto.
    - exists 0, z. auto. }
  destruct Hsome as (i & x & Hnth & Hx).
  destruct (recipients_violations_nth _ _ _ Hnth Hx) as (fault & Hin & Hpath).
  apply existsb_exists. exists fault. split; [exact Hin|].
  unfold about. rewrite Hpath. reflexivity.
Qed.

Lemma mediaUrl_violations_about (v : value) :
  mediaUrl_ok_server P v = false ->
  existsb (about k_mediaUrl) (mediaUrl_violations P v) = true.
Proof.
  destruct v; intros Hno; try discriminate;
    try (cbn [mediaUrl_violations existsb]; now rewrite about_type_issue).
  cbn [mediaUrl_ok_server] in Hno. cbn [mediaUrl_violations]. rewrite Hno.
  reflexivity.
Qed.

(** An entry of the workflow variables that is not a string has its own
    issue, under its own key. *)
Lemma workflowVars_violations_entry (entries : list (jstring * value))
  (k : jstring) (x : value) :
  In (k, x) entries ->
  is_string x = false ->
  In (type_issue P [Key k_workflowVars; Key k] t_string x)
     (workflowVars_violations P (VObj entries)).
Proof.
  intros Hin Hno. cbn [workflowVars_violations]. apply in_flat_map.
  exists (k, x). split; [exact Hin|].
  unfold entry_violations. cbn [fst snd].
  destruct x; try discriminate; left; reflexivity.
Qed.

Lemma workflowVars_violations_about (v : value) :
  workflowVars_ok v = false ->
  existsb (about k_workflowVars) (workflowVars_violations P v) = true.
Proof.
  destruct v; intros Hno; try discriminate;
    try (cbn [workflowVars_violations existsb]; now rewrite about_type_issue).
  cbn [workflowVars_ok] in Hno.
  assert (Hsome : exists k x, In (k, x) props /\ is_string x = false).
  { clear -Hno. induction props as [|[k x] props IH]; [discriminate|].
    cbn [forallb snd] in Hno. destruct (is_string x) eqn:Hx.
    - destruct (IH Hno) as (k' & x' & Hin & Hx'). exists k', x'. split; [now right|auto].
    - exists k, x. split; [now left|auto]. }
  destruct Hsome as (k & x & Hin & Hx).
  apply existsb_exists. eexists. split.
  - apply (workflowVars_violations_entry _ _ _ Hin Hx).
  - apply about_type_issue.
Qed.

Lemma sendAt_violations_about (v : value) :
  sendAt_ok P v = false ->
  existsb (about k_sendAt) (sendAt_violations P v) = true.
Proof.
  destruct v; intros Hno; try discriminate;
    try (cbn [sendAt_violations existsb]; now rewrite about_type_issue).
  cbn [sendAt_ok] in Hno. cbn [sendAt_violations]. rewrite Hno. reflexivity.
Qed.

(** A body fails the server-facing schema exactly when it breaks a
    rule, and then with the issues of its rules. *)
Lemma inbound_failure_violations (body : value) (iss : list issue) :
  safeParse P (Route.inboundSchema P) body = failure iss
  <-> accepted_by_server P body = false /\ iss = violations P body.
Proof.
  unfold safeParse. rewrite inbound_valid, inbound_violations.
  destruct (accepted_by_server P body).
  - split; [discriminate | intros [? _]; discriminate].
  - split; [intros [= <-]; auto | intros [_ ->]; reflexivity].
Qed.

Lemma inbound_issues_nonempty (body : value) :
  accepted_by_server P body = false ->
  issues (parse P (Route.inboundSchema P) [] body) <> [].
Proof.
  destruct body; try discriminate.
  rewrite inbound_issues_object. unfold accepted_by_server, inbound_pairs, all_issues.
  cbn [map pair_value concat]. rewrite app_nil_r. intros Hno.
  destruct (nonempty_after_trim (read_prop k_workflowTag props)) eqn:E1;
    [|now apply app_not_nil_l, required_issues].
  apply app_not_nil_r.
  destruct (recipients_ok (read_prop k_recipients props)) eqn:E2;
    [|now apply app_not_nil_l, recipients_issues].
  apply app_not_nil_r.
  destruct (nonempty_after_trim (read_prop k_message props)) eqn:E3;
    [|now apply app_not_nil_l, required_issues].
  apply app_not_nil_r.
  destruct (mediaUrl_ok_server P (read_prop k_mediaUrl props)) eqn:E4;
    [|now apply app_not_nil_l, mediaUrl_server_issues].
  apply app_not_nil_r.
  destruct (workflowVars_ok (read_prop k_workflowVars props)) eqn:E5;
    [|now apply app_not_nil_l, vars_issues].
  apply app_not_nil_r.
  simpl in Hno. now apply sendAt_issues.
Qed.

Lemma normalized_reads (props : list (jstring * value)) :
  let data := own_props (normalized props) in
  read_prop k_workflowTag data = trimmed (read_prop k_workflowTag props)
  /\ read_prop k_recipients data
     = VArr (map trimmed (items_of (read_prop k_recipients props)))
  /\ read_prop k_message data = trimmed (read_prop k_message props)
  /\ read_prop k_mediaUrl data = read_prop k_mediaUrl props
  /\ read_prop k_workflowVars data = copied (read_prop k_workflowVars props)
  /\ read_prop k_sendAt data = read_prop k_sendAt props.
Proof.
  cbv zeta. unfold normalized, kept, kept_vars. cbn [own_props].
  destruct (has_prop k_mediaUrl props) eqn:E1;
    [|rewrite (read_prop_has _ _ E1)];
    (destruct (has_prop k_workflowVars props) eqn:E2;
       [|rewrite (read_prop_has _ _ E2)]);
    (destruct (has_prop k_sendAt props) eqn:E3;
       [|rewrite (read_prop_has _ _ E3)]);
    repeat split; reflexivity.
Qed.

End Inbound.

(* --------------------------------------------------------------------- *)
(** ** Documents *)

Section Documents.

Lemma to_json_strings {A : Type} (f : A -> jstring) (l : list A) :
  to_json (VArr (map (fun a => VStr (f a)) l)) = VArr (map (fun a => VStr (f a)) l).
Proof.
  simpl. f_equal. rewrite map_map. apply map_ext. reflexivity.
Qed.

Lemma to_json_trimmed (v : value) : to_json (trimmed v) = trimmed v.
Proof. destruct v; reflexivity. Qed.

Lemma to_json_trimmed_items (items : list value) :
  forallb numeric_id items = true ->
  to_json (VArr (map trimmed items)) = VArr (map trimmed items).
Proof.
  intros Hall. simpl. f_equal. rewrite map_map.
  apply map_ext_in. intros x Hx.
  rewrite forallb_forall in Hall. specialize (Hall x Hx).
  destruct x; try discriminate. reflexivity.
Qed.

Lemma to_json_string_props (props : list (jstring * value)) :
  forallb (fun kv => is_string (snd kv)) props = true ->
  to_json (VObj props) = VObj props.
Proof.
  intros Hall. simpl. f_equal.
  induction props as [|[k v] props IH]; [reflexivity|].
  cbn [forallb snd] in Hall. apply andb_true_iff in Hall as [Hv Hall].
  destruct v; try discriminate. simpl. f_equal. exact (IH Hall).
Qed.

Lemma define_prop_strings (k : jstring) (v : value) (props : list (jstring * value)) :
  is_string v = true ->
  forallb (fun kv => is_string (snd kv)) props = true ->
  forallb (fun kv => is_string (snd kv)) (define_prop k v props) = true.
Proof.
  intros Hv. induction props as [|[k' v'] props IH]; simpl.
  - now rewrite Hv.
  - intros H. apply andb_true_iff in H as [H1 H2].
    destruct (eqb k k'); simpl.
    + now rewrite Hv, H2.
    + now rewrite H1, IH.
Qed.

Lemma record_copy_strings (entries : list (jstring * value)) :
  forallb (fun kv => is_string (snd kv)) entries = true ->
  forallb (fun kv => is_string (snd kv)) (record_copy entries) = true.
Proof.
  unfold record_copy.
  assert (Hgen : forall acc,
             forallb (fun kv => is_string (snd kv)) acc = true ->
             forallb (fun kv => is_string (snd kv)) entries = true ->
             forallb (fun kv => is_string (snd kv))
               (fold_left
                  (fun acc kv =>
                     if eqb (fst kv) proto_key then acc
                     else define_prop (fst kv) (snd kv) acc)
                  entries acc) = true).
  { induction entries as [|[k v] entries IH]; intros acc Hacc Hall; [exact Hacc|].
    cbn [forallb snd] in Hall. apply andb_true_iff in Hall as [Hv Hall].
    cbn [fold_left fst snd]. apply IH; [|exact Hall].
    destruct (eqb k proto_key); [exact Hacc|]. now apply define_prop_strings. }
  apply Hgen. reflexivity.
Qed.

Lemma to_json_copied (v : value) :
  workflowVars_ok v = true -> to_json (copied v) = copied v.
Proof.
  destruct v; try discriminate; try reflexivity.
  intros Hok. apply to_json_string_props, record_copy_strings, Hok.
Qed.

Lemma to_json_object (props : list (jstring * value)) :
  to_json (VObj props) = VObj (json_props props).
Proof. reflexivity. Qed.

Lemma json_props_app (a b : list (jstring * value)) :
  json_props (a ++ b) = json_props a ++ json_props b.
Proof. apply flat_map_app. Qed.

Lemma define_prop_fresh (k : jstring) (v : value) (props : list (jstring * value)) :
  get_prop k props = None -> define_prop k v props = props ++ [(k, v)].
Proof.
  induction props as [|[k' v'] props IH]; simpl; [reflexivity|].
  destruct (eqb k k'); [discriminate|]. intros H. now rewrite IH.
Qed.

Lemma get_prop_app (k : jstring) (a b : list (jstring * value)) :
  get_prop k (a ++ b)
  = match get_prop k a with Some v => Some v | None => get_prop k b end.
Proof.
  induction a as [|[k' v'] a IH]; simpl; [reflexivity|].
  destruct (eqb k k'); [reflexivity|exact IH].
Qed.

Lemma get_prop_kept (k k' : jstring) (props : list (jstring * value)) :
  eqb k k' = false -> get_prop k (kept k' props) = None.
Proof.
  intros Hk. unfold kept. destruct (has_prop k' props); simpl; [|reflexivity].
  now rewrite Hk.
Qed.

Lemma get_prop_kept_vars (k : jstring) (props : list (jstring * value)) :
  eqb k k_workflowVars = false -> get_prop k (kept_vars props) = None.
Proof.
  intros Hk. unfold kept_vars. destruct (has_prop k_workflowVars props); simpl; [|reflexivity].
  now rewrite Hk.
Qed.

(** A key outside the six fields is not a property of a normalized payload. *)
Lemma normalized_other_key (k : jstring) (props : list (jstring * value)) :
  existsb (eqb k)
    [k_workflowTag; k_recipients; k_message; k_mediaUrl; k_workflowVars; k_sendAt]
  = false ->
  get_prop k (own_props (normalized props)) = None.
Proof.
  intros Hk. cbn [existsb] in Hk.
  repeat (apply orb_false_iff in Hk as [? Hk]).
  unfold normalized. cbn [own_props app get_prop].
  repeat match goal with H : eqb k _ = false |- _ => rewrite H; clear H end.
  rewrite !get_prop_app.
  rewrite get_prop_kept, get_prop_kept_vars, get_prop_kept by assumption.
  reflexivity.
Qed.

Lemma json_props_kept (k : jstring) (props : list (jstring * value)) :
  to_json (read_prop k props) = read_prop k props ->
  json_props (kept k props) = present k props.
Proof.
  intros Hj. unfold kept, present.
  destruct (has_prop k props) eqn:E.
  - simpl. rewrite Hj. destruct (is_undefined (read_prop k props)); reflexivity.
  - now rewrite (read_prop_has _ _ E).
Qed.

Lemma json_props_kept_vars (props : list (jstring * value)) :
  workflowVars_ok (read_prop k_workflowVars props) = true ->
  json_props (kept_vars props) = present_vars props.
Proof.
  intros Hok. unfold kept_vars, present_vars.
  destruct (has_prop k_workflowVars props) eqn:E.
  - simpl. rewrite (to_json_copied _ Hok).
    destruct (read_prop k_workflowVars props); try discriminate; reflexivity.
  - now rewrite (read_prop_has _ _ E).
Qed.

(** *** The copy of a mapping is a fixed point of the copy *)

Lemma get_prop_none_keys (k : jstring) (props : list (jstring * value)) :
  get_prop k props = None <-> ~ In k (map fst props).
Proof.
  induction props as [|[k' v'] props IH]; simpl; [tauto|].
  destruct (eqb k k') eqn:E.
  - apply eqb_eq in E. subst. split; [discriminate|]. intros H. exfalso. auto.
  - rewrite IH. split.
    + intros H [Heq|Hin]; [|auto]. subst. now rewrite eqb_refl in E.
    + intros H Hin. auto.
Qed.

Lemma define_prop_keys (k : jstring) (v : value) (props : list (jstring * value)) :
  map fst (define_prop k v props)
  = match get_prop k props with
    | Some _ => map fst props
    | None => map fst props ++ [k]
    end.
Proof.
  induction props as [|[k' v'] props IH]; simpl; [reflexivity|].
  destruct (eqb k k') eqn:E.
  - apply eqb_eq in E. now subst.
  - simpl. rewrite IH. destruct (get_prop k props); reflexivity.
Qed.

Lemma define_prop_convertible (k : jstring) (v : value) (props : list (jstring * value)) :
  eqb k proto_key = false ->
  forallb convertible props = true ->
  forallb convertible (define_prop k v props) = true.
Proof.
  intros Hk. induction props as [|[k' v'] props IH]; simpl.
  - unfold convertible. simpl. now rewrite Hk.
  - intros H. apply andb_true_iff in H as [H1 H2].
    destruct (eqb k k'); simpl.
    + unfold convertible at 1. simpl. now rewrite Hk, H2.
    + now rewrite H1, IH.
Qed.

Lemma define_prop_clean (k : jstring) (v : value) (props : list (jstring * value)) :
  eqb k proto_key = false -> clean props -> clean (define_prop k v props).
Proof.
  intros Hk [Hnd Hconv]. split; [|now apply define_prop_convertible].
  rewrite define_prop_keys. destruct (get_prop k props) eqn:E; [exact Hnd|].
  apply get_prop_none_keys in E.
  apply NoDup_app; [exact Hnd | repeat constructor; intros [] | ].
  intros x Hx [<-|[]]. auto.
Qed.

Lemma record_copy_clean (entries : list (jstring * value)) : clean (record_copy entries).
Proof.
  unfold record_copy.
  assert (Hgen : forall acc, clean acc ->
             clean (fold_left
                      (fun acc kv =>
                         if eqb (fst kv) proto_key then acc
                         else define_prop (fst kv) (snd kv) acc)
                      entries acc)).
  { induction entries as [|[k v] entries IH]; intros acc Hacc; [exact Hacc|].
    cbn [fold_left fst snd]. apply IH.
    destruct (eqb k proto_key) eqn:E; [exact Hacc|]. now apply define_prop_clean. }
  apply Hgen. split; [constructor|reflexivity].
Qed.

Lemma record_copy_fixed (props : list (jstring * value)) :
  clean props -> record_copy props = props.
Proof.
  unfold record_copy.
  assert (Hgen : forall acc,
             clean props ->
             (forall k, In k (map fst props) -> get_prop k acc = None) ->
             fold_left
               (fun acc kv =>
                  if eqb (fst kv) proto_key then acc
                  else define_prop (fst kv) (snd kv) acc)
               props acc
             = acc ++ props).
  { induction props as [|[k v] props IH]; intros acc [Hnd Hconv] Hfresh.
    - simpl. now rewrite app_nil_r.
    - cbn [map fst] in Hnd. apply NoDup_cons_iff in Hnd as [Hk Hnd].
      cbn [forallb] in Hconv. apply andb_true_iff in Hconv as [Hkp Hconv].
      unfold convertible in Hkp. cbn [fst] in Hkp. apply negb_true_iff in Hkp.
      cbn [fold_left fst snd]. rewrite Hkp.
      rewrite define_prop_fresh by (apply Hfresh; left; reflexivity).
      rewrite IH; [now rewrite <- app_assoc | now split |].
      intros k' Hk'. rewrite get_prop_app.
      rewrite (Hfresh k') by (right; exact Hk').
      cbn [get_prop]. rewrite eqb_neq; [reflexivity|].
      intros ->. contradiction. }
  intros Hclean. apply (Hgen [] Hclean). reflexivity.
Qed.

Lemma copied_idempotent (v : value) : copied (copied v) = copied v.
Proof.
  destruct v; try reflexivity. simpl. f_equal.
  apply record_copy_fixed, record_copy_clean.
Qed.

End Documents.

(* --------------------------------------------------------------------- *)
(** ** The client-facing schema *)

Section Client.
Variable P : Platform.

Lemma parse_recipients_client (path : list path_segment) (s : jstring) :
  parse P recipients_client_schema path (VStr s)
  = if eqb (trim s) []
    then Parsed dirty (VStr (trim s))
           [Issue path (too_small_string 1) (js "At least one recipient is required")]
    else Parsed valid (VArr (map VStr (Form.split_recipients (trim s)))) [].
Proof.
  unfold recipients_client_schema. cbn [parse]. rewrite parse_required.
  destruct (eqb (trim s) []); reflexivity.
Qed.

Lemma parse_mediaUrl_client (path : list path_segment) (m : jstring) :
  parse P mediaUrl_client_schema path (VStr m)
  = if mediaUrl_ok_client P m then Parsed valid (VStr m) []
    else Parsed dirty (VStr m) [Issue path invalid_string_url (js "Must be a valid URL")].
Proof.
  unfold mediaUrl_client_schema, mediaUrl_ok_client, z_or. simpl.
  destruct (URL_ok P m); [reflexivity|].
  destruct (eqb m []); reflexivity.
Qed.

Lemma client_parse_draft (form : Form.FormFields) (vars : value) :
  parse P (Form.payloadSchema P) [] (Form.draft P form vars)
  = mergeObjectSync (client_pairs P form vars).
Proof. reflexivity. Qed.

Lemma client_valid (form : Form.FormFields) (vars : value) :
  is_valid (status (parse P (Form.payloadSchema P) [] (Form.draft P form vars)))
  = accepted_by_client P form vars.
Proof.
  rewrite client_parse_draft, mergeObjectSync_status, is_valid_merge.
  unfold client_pairs, accepted_by_client.
  cbn [map pair_value forallb is_valid andb].
  rewrite !required_valid, vars_valid, sendAt_valid.
  rewrite parse_recipients_client, parse_mediaUrl_client.
  rewrite andb_true_r, !andb_assoc.
  cbn [nonempty_after_trim].
  destruct (eqb (trim (Form.recipients form)) []),
    (mediaUrl_ok_client P (Form.mediaUrl form)); reflexivity.
Qed.

Lemma client_output (form : Form.FormFields) (vars : value) :
  accepted_by_client P form vars = true ->
  to_json (output (parse P (Form.payloadSchema P) [] (Form.draft P form vars)))
  = VObj (posted_props P form vars).
Proof.
  intros Hacc. pose proof Hacc as Hst. rewrite <- client_valid in Hst.
  apply is_valid_true in Hst.
  rewrite client_parse_draft in *. rewrite (mergeObjectSync_output _ Hst).
  unfold accepted_by_client in Hacc.
  apply andb_true_iff in Hacc as [Hacc Hdate].
  apply andb_true_iff in Hacc as [Hacc Hvars].
  apply andb_true_iff in Hacc as [Hacc Hurl].
  apply andb_true_iff in Hacc as [Hacc Hmsg].
  apply andb_true_iff in Hacc as [Hwt Hrc].
  unfold client_pairs. rewrite finalObject_fields.
  rewrite !required_kept by assumption.
  unfold field_kept. rewrite !orb_true_r.
  rewrite parse_recipients_client, parse_mediaUrl_client, Hurl.
  cbn [nonempty_after_trim] in Hrc. apply negb_true_iff in Hrc. rewrite Hrc.
  rewrite vars_output by assumption. rewrite sendAt_output by assumption.
  cbn [output app trimmed].
  rewrite to_json_object. unfold posted_props, entries_of.
  change (json_props ?l) with (json_props l).
  cbn [json_props flat_map fst snd is_undefined app].
  rewrite (to_json_strings (fun e => e)).
  rewrite (to_json_copied _ Hvars).
  unfold defined_prop.
  assert (Hd : to_json (Form.normalizeDateField P (Form.sendAt form))
               = Form.normalizeDateField P (Form.sendAt form)).
  { destruct (Form.normalizeDateField P (Form.sendAt form)); try discriminate; reflexivity. }
  rewrite Hd.
  destruct (is_undefined (copied vars)),
    (is_undefined (Form.normalizeDateField P (Form.sendAt form))); reflexivity.
Qed.

(** *** The workflow variables of the form *)

(** Induction on a value through the elements of its arrays. *)
Lemma value_ind_items (Q : value -> Prop) :
  Q VUndefined -> Q VNull -> (forall b, Q (VBool b)) -> (forall x, Q (VNum x)) ->
  (forall s, Q (VStr s)) ->
  (forall items, Forall Q items -> Q (VArr items)) ->
  (forall props, Q (VObj props)) ->
  forall v, Q v.
Proof.
  intros Hund Hnull Hbool Hnum Hstr Harr Hobj.
  fix IH 1. intros [| |b|x|s|items|props].
  - exact Hund.
  - exact Hnull.
  - apply Hbool.
  - apply Hnum.
  - apply Hstr.
  - apply Harr. induction items as [|x items IHitems]; constructor.
    + apply IH.
    + exact IHitems.
  - apply Hobj.
Qed.

(** [String] gives the string representation of a value that has one,
    and throws on any other. *)
Lemma String_spec (v : value) :
  Form.String_ P v
  = if has_string v then inr (string_of P v) else inl (toPrimitive_TypeError P).
Proof.
  induction v as [| |b|x|s|items IH|props] using value_ind_items; try reflexivity.
  - destruct b; reflexivity.
  - cbn [Form.String_ has_string string_of].
    assert (Hitems :
              Form.all_or_thrown
                (map (fun x => if Form.is_nullish x then inr [] else Form.String_ P x)
                   items)
              = if forallb has_string items
                then inr (map (fun x => if Form.is_nullish x then []
                                        else string_of P x) items)
                else inl (toPrimitive_TypeError P)).
    { induction IH as [|x items Hx _ IHitems]; [reflexivity|].
      cbn [map Form.all_or_thrown forallb].
      destruct (Form.is_nullish x) eqn:Hnull.
      - assert (Hs : has_string x = true) by (destruct x; try discriminate; reflexivity).
        rewrite Hs, IHitems. cbn [andb].
        destruct (forallb has_string items); reflexivity.
      - rewrite Hx. destruct (has_string x); cbn [andb]; [|reflexivity].
        rewrite IHitems. destruct (forallb has_string items); reflexivity. }
    rewrite Hitems. destruct (forallb has_string items); reflexivity.
  - cbn [Form.String_ has_string string_of].
    destruct (has_prop (js "toString") props); reflexivity.
Qed.

(** The [reduce] on a mapping whose values all have a string, and on
    one that has a value without. *)
Lemma reduce_entries_fold (entries acc : list (jstring * value)) :
  all_have_strings entries = true ->
  Form.reduce_entries P entries acc
  = inr (fold_left (fun acc kv => assign_string (fst kv) (string_of P (snd kv)) acc)
           entries acc).
Proof.
  revert acc. induction entries as [|[k v] entries IH]; intros acc Hall; [reflexivity|].
  unfold all_have_strings in *. cbn [forallb snd] in Hall.
  apply andb_true_iff in Hall as [Hv Hall].
  cbn [Form.reduce_entries fold_left fst snd]. rewrite String_spec, Hv.
  now apply IH.
Qed.

Lemma reduce_entries_throws (entries acc : list (jstring * value)) :
  all_have_strings entries = false ->
  Form.reduce_entries P entries acc = inl (toPrimitive_TypeError P).
Proof.
  revert acc. induction entries as [|[k v] entries IH]; intros acc Hall; [discriminate|].
  unfold all_have_strings in *. cbn [forallb snd] in Hall.
  cbn [Form.reduce_entries fst snd]. rewrite String_spec.
  destruct (has_string v); [|reflexivity]. now apply IH.
Qed.

Lemma stringify_entries_strings (entries out : list (jstring * value)) :
  Form.stringify_entries P entries = inr out ->
  forallb (fun kv => is_string (snd kv)) out = true.
Proof.
  unfold Form.stringify_entries.
  destruct (all_have_strings entries) eqn:Hall;
    [|now rewrite reduce_entries_throws].
  rewrite (reduce_entries_fold _ _ Hall). intros [= <-].
  assert (Hgen : forall acc,
             forallb (fun kv => is_string (snd kv)) acc = true ->
             forallb (fun kv => is_string (snd kv))
               (fold_left
                  (fun acc kv => assign_string (fst kv) (string_of P (snd kv)) acc)
                  entries acc) = true).
  { clear Hall.
    induction entries as [|[k v] entries IH]; intros acc Hacc; [exact Hacc|].
    cbn [fold_left fst snd]. apply IH. unfold assign_string.
    destruct (eqb k proto_key); [exact Hacc|]. now apply define_prop_strings. }
  apply Hgen. reflexivity.
Qed.

Lemma tryParseWorkflowVars_ok (input : jstring) (vars : value) :
  Form.tryParseWorkflowVars P input = Form.vars_ok vars ->
  workflowVars_ok vars = true.
Proof.
  unfold Form.tryParseWorkflowVars.
  destruct (eqb (trim input) []); [intros [= <-]; reflexivity|].
  destruct (JSON_parse P input) as [e|parsed]; [discriminate|].
  destruct (negb (truthy parsed) || negb (Form.typeof_object parsed)
            || Form.Array_isArray parsed); [discriminate|].
  destruct (Form.stringify_entries P (own_props parsed)) as [e|out] eqn:Hout;
    [discriminate|].
  intros [= <-]. exact (stringify_entries_strings _ _ Hout).
Qed.

(** On an object, whose keys are distinct and whose values all have a
    string, the [reduce] turns each entry into its converted entry, in
    order, and drops [__proto__]. *)
Lemma stringify_entries_map (entries : list (jstring * value)) :
  NoDup (map fst entries) ->
  all_have_strings entries = true ->
  Form.stringify_entries P entries
  = inr (map (converted P) (filter convertible entries)).
Proof.
  intros Hnd Hall. unfold Form.stringify_entries.
  rewrite (reduce_entries_fold _ _ Hall). f_equal. clear Hall.
  assert (Hgen : forall acc,
             NoDup (map fst entries) ->
             (forall kv, In kv entries -> get_prop (fst kv) acc = None) ->
             fold_left
               (fun acc kv => assign_string (fst kv) (string_of P (snd kv)) acc)
               entries acc
             = acc ++ map (converted P) (filter convertible entries)).
  { clear Hnd.
    induction entries as [|[k v] entries IH]; intros acc Hnd Hfresh.
    - simpl. now rewrite app_nil_r.
    - cbn [map fst] in Hnd. apply NoDup_cons_iff in Hnd as [Hk Hnd].
      cbn [fold_left filter fst snd]. unfold assign_string, convertible at 1.
      cbn [fst]. destruct (eqb k proto_key); cbn [negb].
      + apply IH; [exact Hnd|]. intros kv Hin. apply Hfresh. right. exact Hin.
      + rewrite define_prop_fresh by (apply (Hfresh (k, v)); left; reflexivity).
        rewrite IH; [now rewrite <- app_assoc|exact Hnd|].
        intros kv Hin. rewrite get_prop_app.
        rewrite (Hfresh kv) by (right; exact Hin).
        cbn [get_prop]. rewrite eqb_neq; [reflexivity|].
        intros Heq. apply Hk. rewrite <- Heq. now apply in_map. }
  apply (Hgen [] Hnd). reflexivity.
Qed.

(** What [handleSubmit] posts, and when. *)
Lemma handleSubmit_posted (form : Form.FormFields) (body : value) :
  Form.handleSubmit P form = Form.Posted body
  <-> exists vars,
        Form.tryParseWorkflowVars P (Form.workflowVars form) = Form.vars_ok vars
        /\ accepted_by_client P form vars = true
        /\ body = VObj (posted_props P form vars).
Proof.
  unfold Form.handleSubmit, safeParse.
  destruct (Form.tryParseWorkflowVars P (Form.workflowVars form)) as [vars|msg] eqn:Hvars.
  - rewrite client_valid.
    destruct (accepted_by_client P form vars) eqn:Hacc.
    + rewrite (client_output _ _ Hacc). split.
      * intros [= <-]. exists vars. auto.
      * intros (vars' & [= <-] & _ & ->). reflexivity.
    + split; [discriminate|]. intros (vars' & [= <-] & Hacc' & _). congruence.
  - split; [discriminate|]. intros (vars' & Hno & _). discriminate.
Qed.

(** *** The posted body, read by the server *)

Lemma posted_reads (form : Form.FormFields) (vars : value) :
  let props := posted_props P form vars in
  read_prop k_workflowTag props = VStr (trim (Form.workflowTag form))
  /\ read_prop k_recipients props = VArr (map VStr (entries_of form))
  /\ read_prop k_message props = VStr (trim (Form.message form))
  /\ read_prop k_mediaUrl props = VStr (Form.mediaUrl form)
  /\ read_prop k_workflowVars props = copied vars
  /\ read_prop k_sendAt props = Form.normalizeDateField P (Form.sendAt form).
Proof.
  cbv zeta. unfold posted_props, defined_prop.
  destruct (copied vars), (Form.normalizeDateField P (Form.sendAt form));
    repeat split; reflexivity.
Qed.

Lemma split_recipients_trimmed (s e : jstring) :
  In e (Form.split_recipients s) -> trim e = e.
Proof.
  unfold Form.split_recipients. intros Hin.
  apply filter_In in Hin as [Hin _].
  apply in_map_iff in Hin as (x & <- & _). apply trim_idempotent.
Qed.

Lemma copied_ok (v : value) : workflowVars_ok v = true -> workflowVars_ok (copied v) = true.
Proof.
  destruct v; try discriminate; try reflexivity.
  apply record_copy_strings.
Qed.

(** The server-facing schema on the body that the form posts. *)
Lemma posted_accepted (form : Form.FormFields) (vars : value) :
  accepted_by_client P form vars = true ->
  accepted_by_server P (VObj (posted_props P form vars))
  = recipients_ok (VArr (map VStr (entries_of form)))
    && URL_ok P (Form.mediaUrl form).
Proof.
  intros Hacc. unfold accepted_by_client in Hacc.
  apply andb_true_iff in Hacc as [Hacc Hdate].
  apply andb_true_iff in Hacc as [Hacc Hvars].
  apply andb_true_iff in Hacc as [Hacc Hurl].
  apply andb_true_iff in Hacc as [Hacc Hmsg].
  apply andb_true_iff in Hacc as [Hwt Hrc].
  unfold accepted_by_server.
  destruct (posted_reads form vars) as (-> & -> & -> & -> & -> & ->).
  cbn [nonempty_after_trim mediaUrl_ok_server] in *.
  rewrite !trim_idempotent, Hwt, Hmsg, (copied_ok _ Hvars), Hdate.
  rewrite !andb_true_r. reflexivity.
Qed.

Lemma posted_has (form : Form.FormFields) (vars : value) :
  let props := posted_props P form vars in
  has_prop k_mediaUrl props = true
  /\ has_prop k_workflowVars props = negb (is_undefined (copied vars))
  /\ has_prop k_sendAt props
     = negb (is_undefined (Form.normalizeDateField P (Form.sendAt form))).
Proof.
  cbv zeta. unfold posted_props, defined_prop.
  destruct (copied vars), (Form.normalizeDateField P (Form.sendAt form));
    repeat split; reflexivity.
Qed.

(** The server-facing normalization changes nothing in a posted body. *)
Lemma normalized_posted (form : Form.FormFields) (vars : value) :
  normalized (posted_props P form vars) = VObj (posted_props P form vars).
Proof.
  assert (Hentries : map trimmed (map VStr (entries_of form)) = map VStr (entries_of form)).
  { rewrite map_map. apply map_ext_in. intros e He. cbn [trimmed].
    now rewrite (split_recipients_trimmed _ _ He). }
  unfold normalized, kept, kept_vars.
  destruct (posted_has form vars) as (-> & -> & ->).
  destruct (posted_reads form vars) as (-> & -> & -> & -> & -> & ->).
  rewrite copied_idempotent. cbn [trimmed items_of].
  rewrite !trim_idempotent, Hentries.
  unfold posted_props, defined_prop.
  destruct (is_undefined (copied vars)),
    (is_undefined (Form.normalizeDateField P (Form.sendAt form))); reflexivity.
Qed.

Lemma recipients_ok_entries (entries : list jstring) :
  (forall e, In e entries -> trim e = e) ->
  recipients_ok (VArr (map VStr entries))
  = negb (no_entries entries) && forallb Route.recipient_regex entries.
Proof.
  intros Htrim. cbn [recipients_ok]. f_equal.
  - destruct entries; reflexivity.
  - induction entries as [|e entries IH]; [reflexivity|].
    cbn [map forallb numeric_id]. rewrite (Htrim e) by (left; reflexivity).
    f_equal. apply IH. intros e' He'. apply Htrim. right. exact He'.
Qed.

(** C1, as the code has it. A form that the client-facing validator
    accepts, whose recipient entries are at least one and each of 6 to
    15 digits, and whose media URL is filled in, posts a body that the
    server-facing validator accepts; the payload that the server-facing
    validator returns is the posted body itself. *)
Theorem client_accepted_then_server_accepts (form : Form.FormFields) (body : value) :
  Form.handleSubmit P form = Form.Posted body ->
  entries_of form <> [] ->
  forallb Route.recipient_regex (entries_of form) = true ->
  Form.mediaUrl form <> [] ->
  safeParse P (Route.inboundSchema P) body = success body.
Proof.
  intros Hposted Hsome Hdigits Hmedia.
  apply handleSubmit_posted in Hposted as (vars & _ & Hacc & ->).
  apply inbound_safeParse_success.
  split; [|cbn [own_props]; now rewrite normalized_posted].
  rewrite (posted_accepted _ _ Hacc).
  rewrite recipients_ok_entries
    by (intros e He; exact (split_recipients_trimmed _ _ He)).
  rewrite Hdigits.
  unfold accepted_by_client in Hacc.
  apply andb_true_iff in Hacc as [Hacc _].
  apply andb_true_iff in Hacc as [Hacc _].
  apply andb_true_iff in Hacc as [_ Hurl].
  unfold mediaUrl_ok_client in Hurl.
  destruct (entries_of form); [congruence|].
  destruct (Form.mediaUrl form); [congruence|].
  cbn [eqb] in Hurl. rewrite orb_false_r in Hurl. rewrite Hurl. reflexivity.
Qed.

End Client.

(* --------------------------------------------------------------------- *)
(** ** The relay endpoint *)

Section Relay.
Variable P : Platform.
Variable env : Route.Env.
Variable world : Route.World.
Variable request : Route.NextRequest.

(** C6. When [N8N_WEBHOOK_URL] is unset (or empty) the handler answers
    500, its message names the variable, and no event is recorded: no
    call of [fetch] is made, whatever the request is. *)
Theorem POST_not_configured :
  Route.configured (Route.N8N_WEBHOOK_URL env) = false ->
  Route.handle P env world request
  = (inr {| Route.status_code := 500;
            Route.json_body := VObj [(js "message", VStr Route.not_configured_message)] |},
     [])
  /\ firstn 15 Route.not_configured_message = js "N8N_WEBHOOK_URL".
Proof.
  intros Hcfg. split; [|reflexivity].
  unfold Route.handle, Route.POST. rewrite Hcfg. reflexivity.
Qed.

(** The document sent downstream for an accepted body. *)
Lemma forwarded_body (props : list (jstring * value)) :
  accepted_by_server P (VObj props) = true ->
  to_json (VObj (Route.payload_of world (normalized props) request))
  = forwarded_json world request props.
Proof.
  intros Hacc.
  destruct (accepted_fields P _ Hacc) as (Hwt & Hrc & Hmsg & Hurl & Hvars & Hdate).
  unfold Route.payload_of, spread_with. cbn [fold_left fst snd].
  rewrite (define_prop_fresh k_requestedAt)
    by (apply normalized_other_key; reflexivity).
  rewrite (define_prop_fresh k_origin)
    by (rewrite get_prop_app, normalized_other_key by reflexivity; reflexivity).
  rewrite to_json_object, !json_props_app.
  unfold normalized, forwarded_json. cbn [own_props].
  rewrite !json_props_app. f_equal.
  rewrite <- !app_assoc. f_equal; [|f_equal; [|f_equal; [|f_equal; [|f_equal]]]].
  - cbn [json_props flat_map fst snd app].
    rewrite !to_json_trimmed, to_json_trimmed_items.
    + destruct (read_prop k_workflowTag props); try discriminate.
      destruct (read_prop k_message props); try discriminate. reflexivity.
    + destruct (read_prop k_recipients props); try discriminate.
      simpl in *. now apply andb_true_iff in Hrc as [_ ?].
  - apply json_props_kept.
    destruct (read_prop k_mediaUrl props); try discriminate; reflexivity.
  - now apply json_props_kept_vars.
  - apply json_props_kept.
    destruct (read_prop k_sendAt props); try discriminate; reflexivity.
  - destruct (Route.headers_get_origin request); reflexivity.
Qed.

(** A body that fails the schema is answered 422 with the messages of
    its issues, and nothing else happens. *)
Lemma POST_rejects (body : value) (iss : list issue) :
  Route.configured (Route.N8N_WEBHOOK_URL env) = true ->
  Route.request_json request = inr body ->
  safeParse P (Route.inboundSchema P) body = failure iss ->
  Route.handle P env world request
  = (inr {| Route.status_code := 422;
            Route.json_body :=
              VObj [ (js "message", VStr (js "Validation failed"));
                     (js "issues", VArr (map (fun i => VStr (message i)) iss)) ] |},
     []).
Proof.
  intros Hcfg Hjson Hfail.
  unfold Route.handle, Route.POST. rewrite Hcfg. cbn [negb].
  unfold Route.bind, Route.attempt, Route.await. rewrite Hjson, Hfail.
  unfold Route.ret, Route.NextResponse_json. do 2 f_equal.
  rewrite to_json_object. cbn [json_props flat_map fst snd is_undefined app].
  now rewrite to_json_strings.
Qed.

(** C3. A body that fails the server-facing schema is answered 422 with
    the messages of all its issues, in order, and nothing is sent. The
    issues are those of the rules that the body breaks, none left out:
    they are not empty, they are the issues of the six fields in the
    order of the schema, every field that breaks its rule has an issue
    about it, and every recipient that is not a numeric identifier has
    an issue at its own index. A body fails exactly when it breaks a
    rule. The body of scenario C gets the three messages of its three
    fields. *)
Theorem POST_validation_failure :
  Route.configured (Route.N8N_WEBHOOK_URL env) = true ->
  (forall (body : value) (iss : list issue),
      Route.request_json request = inr body ->
      safeParse P (Route.inboundSchema P) body = failure iss ->
      Route.handle P env world request
      = (inr {| Route.status_code := 422;
                Route.json_body :=
                  VObj [ (js "message", VStr (js "Validation failed"));
                         (js "issues", VArr (map (fun i => VStr (message i)) iss)) ] |},
         [])
      /\ iss <> []
      /\ iss = violations P body
      /\ (forall props, body = VObj props ->
            (nonempty_after_trim (read_prop k_workflowTag props) = false ->
             existsb (about k_workflowTag) iss = true)
            /\ (recipients_ok (read_prop k_recipients props) = false ->
                existsb (about k_recipients) iss = true)
            /\ (nonempty_after_trim (read_prop k_message props) = false ->
                existsb (about k_message) iss = true)
            /\ (mediaUrl_ok_server P (read_prop k_mediaUrl props) = false ->
                existsb (about k_mediaUrl) iss = true)
            /\ (workflowVars_ok (read_prop k_workflowVars props) = false ->
                existsb (about k_workflowVars) iss = true)
            /\ (sendAt_ok P (read_prop k_sendAt props) = false ->
                existsb (about k_sendAt) iss = true)
            /\ (forall items i x,
                  read_prop k_recipients props = VArr items ->
                  nth_error items i = Some x ->
                  numeric_id x = false ->
                  exists fault,
                    In fault iss
                    /\ issue_path fault = [Key k_recipients; Index i])))
  /\ (forall body : value,
        accepted_by_server P body = false ->
        safeParse P (Route.inboundSchema P) body = failure (violations P body))
  /\ (Route.request_json request = inr Scenario.body_C ->
      Route.handle P env world request
      = (inr {| Route.status_code := 422;
                Route.json_body :=
                  VObj [ (js "message", VStr (js "Validation failed"));
                         (js "issues",
                           VArr [ VStr (js "workflowTag is required");
                                  VStr (js "Provide at least one recipient");
                                  VStr (js "message is required") ]) ] |},
         [])).
Proof.
  intros Hcfg. split; [|split].
  - intros body iss Hjson Hfail. split; [now apply (POST_rejects body)|].
    apply (proj1 (inbound_failure_violations P body iss)) in Hfail as [Hno ->].
    split; [rewrite <- inbound_violations; now apply inbound_issues_nonempty|].
    split; [reflexivity|].
    intros props ->. cbn [violations].
    split; [intros H; apply existsb_app_l; now apply text_violations_about|].
    split; [intros H; apply existsb_app_r, existsb_app_l;
            now apply recipients_violations_about|].
    split; [intros H; do 2 apply existsb_app_r; apply existsb_app_l;
            now apply text_violations_about|].
    split; [intros H; do 3 apply existsb_app_r; apply existsb_app_l;
            now apply mediaUrl_violations_about|].
    split; [intros H; do 4 apply existsb_app_r; apply existsb_app_l;
            now apply workflowVars_violations_about|].
    split; [intros H; do 5 apply existsb_app_r;
            now apply sendAt_violations_about|].
    intros items i x Hrc Hnth Hx. rewrite Hrc.
    destruct (recipients_violations_nth P items i x Hnth Hx) as (fault & Hin & Hpath).
    exists fault. split; [|exact Hpath].
    apply in_or_app. right. apply in_or_app. left. exact Hin.
  - intros body Hno. now apply inbound_failure_violations.
  - intros Hjson. now rewrite (POST_rejects _ _ Hcfg Hjson eq_refl).
Qed.

Local Ltac step :=
  cbv beta iota zeta
    delta [Route.try_catch Route.bind Route.do_fetch Route.emit Route.await
           Route.safeJson Route.ret app snd].

(** Every call of [fetch] that a request makes is the call that forwards
    the normalized payload of its accepted body. *)
Lemma fetch_inversion (call : Route.fetch_call) :
  In (Route.Fetch call) (snd (Route.handle P env world request)) ->
  Route.configured (Route.N8N_WEBHOOK_URL env) = true
  /\ exists props,
       Route.request_json request = inr (VObj props)
       /\ accepted_by_server P (VObj props) = true
       /\ call = forwarded env world request (normalized props).
Proof.
  unfold Route.handle, Route.POST.
  destruct (Route.configured (Route.N8N_WEBHOOK_URL env)); cbn [negb];
    [|intros []].
  unfold Route.bind at 1, Route.attempt, Route.await at 1.
  destruct (Route.request_json request) as [e|body] eqn:Hjson; [intros []|].
  destruct (safeParse P (Route.inboundSchema P) body) as [data|iss] eqn:Hparse;
    [|intros []].
  apply (proj1 (inbound_safeParse_success P body data)) in Hparse as [Hacc ->].
  destruct body; try discriminate. cbn [own_props].
  fold (forwarded env world request (normalized props)).
  set (c := forwarded env world request (normalized props)).
  intros Hin. split; [reflexivity|]. exists props. repeat split; auto.
  revert Hin.
  assert (Hcases : forall tail : list Route.event,
             (forall call', In (Route.Fetch call') tail -> False) ->
             In (Route.Fetch call) (Route.Fetch c :: tail) -> call = c).
  { intros tail Hnone [H|H]; [now injection H as H|]. destruct (Hnone _ H). }
  step. destruct (Route.fetch world c) as [e|response]; step.
  - apply Hcases. intros call' [H|[]]. discriminate H.
  - destruct (negb (Route.ok response)); step.
    + destruct (Route.response_text response); step;
        apply Hcases; intros call' H;
        [destruct H as [H|[]]; discriminate H | destruct H].
    + destruct (Route.response_json response); step;
        apply Hcases; intros call' [].
Qed.

(** C2. Whatever the body says, the document sent downstream carries
    the server's clock as [requestedAt], and as [origin] the Origin
    header of the caller, or no [origin] at all when there is none. *)
Theorem forwarded_metadata_is_server_owned (call : Route.fetch_call) :
  In (Route.Fetch call) (snd (Route.handle P env world request)) ->
  get_prop k_requestedAt (own_props (Route.fetch_body call))
  = Some (VStr (Route.toISOString_now world))
  /\ get_prop k_origin (own_props (Route.fetch_body call))
     = option_map VStr (Route.headers_get_origin request).
Proof.
  intros Hin. apply fetch_inversion in Hin as (_ & props & _ & Hacc & ->).
  unfold forwarded. cbn [Route.fetch_body].
  rewrite (forwarded_body _ Hacc).
  unfold forwarded_json, present, present_vars. cbn [own_props].
  destruct (is_undefined (read_prop k_mediaUrl props)),
    (is_undefined (read_prop k_workflowVars props)),
    (is_undefined (read_prop k_sendAt props)),
    (Route.headers_get_origin request); split; reflexivity.
Qed.

(** C10. The document sent downstream has the three required fields,
    those of [mediaUrl], [workflowVars] and [sendAt] that the body gave a
    value, [requestedAt], and [origin] when the caller sent the header:
    these properties and no other, whatever else the body contains. *)
Theorem forwarded_fields (call : Route.fetch_call) :
  In (Route.Fetch call) (snd (Route.handle P env world request)) ->
  exists props,
    Route.request_json request = inr (VObj props)
    /\ Route.fetch_body call = forwarded_json world request props
    /\ map fst (own_props (Route.fetch_body call))
       = [k_workflowTag; k_recipients; k_message]
         ++ named k_mediaUrl props ++ named k_workflowVars props
         ++ named k_sendAt props
         ++ [k_requestedAt]
         ++ match Route.headers_get_origin request with
            | Some _ => [k_origin]
            | None => []
            end.
Proof.
  intros Hin. apply fetch_inversion in Hin as (_ & props & Hjson & Hacc & ->).
  exists props. split; [exact Hjson|].
  unfold forwarded. cbn [Route.fetch_body].
  rewrite (forwarded_body _ Hacc). split; [reflexivity|].
  unfold forwarded_json, present, present_vars, named. cbn [own_props].
  destruct (is_undefined (read_prop k_mediaUrl props)),
    (is_undefined (read_prop k_workflowVars props)),
    (is_undefined (read_prop k_sendAt props)),
    (Route.headers_get_origin request); reflexivity.
Qed.

(** From here on the request reached the schema and passed it. *)
Section ValidRequest.
Variables (body data : value).
Hypothesis Hconfigured : Route.configured (Route.N8N_WEBHOOK_URL env) = true.
Hypothesis Hjson : Route.request_json request = inr body.
Hypothesis Hvalid : safeParse P (Route.inboundSchema P) body = success data.

Let call := forwarded env world request data.

Lemma POST_valid_unfold (tr : list Route.event) :
  Route.POST P env world request tr
  = Route.try_catch
      (Route.bind (Route.do_fetch world call)
         (fun response =>
            if negb (Route.ok response) then
              Route.bind (Route.await (Route.response_text response))
                (fun details =>
                   Route.ret
                     (Route.NextResponse_json
                        [ (js "message",
                            VStr (js "n8n responded with status "
                                  ++ decimal (Route.response_status response)));
                          (js "issues",
                            if eqb details [] then VUndefined else VArr [VStr details]) ]
                        502))
            else
              Route.bind (Route.safeJson response)
                (fun result =>
                   Route.ret
                     (Route.NextResponse_json
                        [ (js "message", VStr (js "Workflow dispatched to n8n."));
                          (js "n8nResponse", result) ]
                        200))))
      (fun error =>
         Route.bind (Route.emit (Route.ConsoleError (js "[n8n] webhook call failed") error))
           (fun _ =>
              Route.ret
                (Route.NextResponse_json
                   [ (js "message", VStr (js "Failed to communicate with n8n webhook."));
                     (js "issues", VArr [VStr (diagnostic error)]) ]
                   504)))
      tr.
Proof.
  unfold Route.POST. rewrite Hconfigured. cbn [negb].
  unfold Route.bind at 1, Route.attempt, Route.await at 1.
  rewrite Hjson, Hvalid. reflexivity.
Qed.

(** C8. When the call of [fetch] throws, the handler logs the error and
    answers 504 with the error's message as the only issue. *)
Theorem POST_fetch_throws (error : thrown) :
  Route.fetch world call = inl error ->
  Route.handle P env world request
  = (inr {| Route.status_code := 504;
            Route.json_body :=
              VObj [ (js "message", VStr (js "Failed to communicate with n8n webhook."));
                     (js "issues", VArr [VStr (diagnostic error)]) ] |},
     [ Route.Fetch call;
       Route.ConsoleError (js "[n8n] webhook call failed") error ]).
Proof.
  intros Hthrow. unfold Route.handle. rewrite POST_valid_unfold.
  unfold Route.try_catch, Route.bind, Route.do_fetch, Route.emit, Route.await, Route.bind.
  rewrite Hthrow. reflexivity.
Qed.

(** C7. When the downstream answers with a status outside 200..299 the
    handler reads its body. When the body reads as [details], the
    handler answers 502; the message carries the downstream status, and
    [issues] is [[details]] when [details] is not empty and is left out
    when it is; one call was made and nothing was logged. When the
    reading of the body throws, the handler logs the error and answers
    504, as for a call that failed. *)
Theorem POST_downstream_failure (response : Route.Response) :
  Route.fetch world call = inr response ->
  Route.ok response = false ->
  Route.handle P env world request
  = match Route.response_text response with
    | inr details =>
        (inr {| Route.status_code := 502;
                Route.json_body :=
                  VObj ((js "message",
                          VStr (js "n8n responded with status "
                                ++ decimal (Route.response_status response)))
                        :: match details with
                           | [] => []
                           | _ => [(js "issues", VArr [VStr details])]
                           end) |},
         [ Route.Fetch call ])
    | inl error =>
        (inr {| Route.status_code := 504;
                Route.json_body :=
                  VObj [ (js "message",
                           VStr (js "Failed to communicate with n8n webhook."));
                         (js "issues", VArr [VStr (diagnostic error)]) ] |},
         [ Route.Fetch call;
           Route.ConsoleError (js "[n8n] webhook call failed") error ])
    end.
Proof.
  intros Hresp Hok. unfold Route.handle. rewrite POST_valid_unfold.
  unfold Route.try_catch, Route.bind, Route.do_fetch, Route.emit, Route.await, Route.bind.
  rewrite Hresp. cbn [negb]. rewrite Hok. cbn [negb].
  destruct (Route.response_text response) as [error|details]; [reflexivity|].
  destruct details; reflexivity.
Qed.

(** When the downstream answers with a status in 200..299, the handler
    answers 200 with the downstream's JSON body, left out when it does
    not parse. *)
Lemma POST_success (response : Route.Response) :
  Route.fetch world call = inr response ->
  Route.ok response = true ->
  Route.handle P env world request
  = (inr (Route.NextResponse_json
            [ (js "message", VStr (js "Workflow dispatched to n8n."));
              (js "n8nResponse",
                match Route.response_json response with
                | inr result => result
                | inl _ => VUndefined
                end) ]
            200),
     [ Route.Fetch call ]).
Proof.
  intros Hresp Hok. unfold Route.handle. rewrite POST_valid_unfold.
  unfold Route.try_catch, Route.bind, Route.do_fetch, Route.emit, Route.await,
    Route.safeJson, Route.try_catch, Route.bind, Route.await.
  rewrite Hresp. cbn [negb]. rewrite Hok. cbn [negb].
  destruct (Route.response_json response); reflexivity.
Qed.

(** A valid request makes exactly one call of [fetch], and always gets
    an answer. *)
Lemma POST_fetches_once :
  exists (answer : Route.NextResponse) (rest : list Route.event),
    Route.handle P env world request = (inr answer, Route.Fetch call :: rest)
    /\ forall call', ~ In (Route.Fetch call') rest.
Proof.
  unfold Route.handle. rewrite POST_valid_unfold.
  unfold Route.try_catch, Route.bind, Route.do_fetch, Route.emit, Route.await,
    Route.safeJson, Route.try_catch, Route.bind, Route.await.
  cbn [app].
  destruct (Route.fetch world call) as [e|response].
  - do 2 eexists. split; [reflexivity|]. intros call' [H|[]]. discriminate H.
  - destruct (negb (Route.ok response)).
    + destruct (Route.response_text response).
      * do 2 eexists. split; [reflexivity|]. intros call' [H|[]]. discriminate H.
      * do 2 eexists. split; [reflexivity|]. intros call' [].
    + destruct (Route.response_json response);
        do 2 eexists; (split; [reflexivity|]); intros call' [].
Qed.

End ValidRequest.

End Relay.

(* --------------------------------------------------------------------- *)
(** ** The form and the relay together *)

(** C5, as the code has it. The form turns an object-shaped text whose
    values all have a string representation into the object of its
    entries with every value replaced by its string (an entry named
    [__proto__] is dropped), which the client-facing schema accepts; an
    object-shaped text with a value that has none (an object with a
    property of its own named [toString], or an array that holds one)
    is refused with the message of the error that [String] throws; a
    text that parses as an array or a primitive is refused with the
    message "Workflow variables must be a JSON object.". The
    server-facing schema converts nothing: it accepts [workflowVars]
    only when it is absent or a mapping whose values are all strings,
    and returns a copy of it; a value that is no object fails with
    zod's type issue on [workflowVars], and every entry that is no
    string with zod's type issue on that entry. The messages of these
    issues are the error map's: with zod's default map they read
    "Expected object, received array" and the like. *)
Theorem workflowVars_rules (P : Platform) :
  (forall (input : jstring) (entries : list (jstring * value)),
      eqb (trim input) [] = false ->
      JSON_parse P input = inr (VObj entries) ->
      NoDup (map fst entries) ->
      (all_have_strings entries = true ->
       Form.tryParseWorkflowVars P input
       = Form.vars_ok (VObj (map (converted P) (filter convertible entries)))
       /\ is_valid
            (status
               (parse P vars_schema [Key k_workflowVars]
                  (VObj (map (converted P) (filter convertible entries)))))
          = true)
      /\ (all_have_strings entries = false ->
          Form.tryParseWorkflowVars P input
          = Form.vars_error (Form.catch_message (toPrimitive_TypeError P))))
  /\ (forall (input : jstring) (parsed : value),
        eqb (trim input) [] = false ->
        JSON_parse P input = inr parsed ->
        object_shaped parsed = false ->
        Form.tryParseWorkflowVars P input
        = Form.vars_error (js "Workflow variables must be a JSON object."))
  /\ (forall props : list (jstring * value),
        (workflowVars_ok (read_prop k_workflowVars props) = false ->
         exists iss,
           safeParse P (Route.inboundSchema P) (VObj props) = failure iss
           /\ (object_shaped (read_prop k_workflowVars props) = false ->
               In (type_issue P [Key k_workflowVars] t_object
                     (read_prop k_workflowVars props)) iss)
           /\ (forall entries k x,
                 read_prop k_workflowVars props = VObj entries ->
                 In (k, x) entries ->
                 is_string x = false ->
                 In (type_issue P [Key k_workflowVars; Key k] t_string x) iss))
        /\ (forall data,
              safeParse P (Route.inboundSchema P) (VObj props) = success data ->
              workflowVars_ok (read_prop k_workflowVars props) = true
              /\ read_prop k_workflowVars (own_props data)
                 = copied (read_prop k_workflowVars props)))
  /\ ((forall code, errorMap P code = Reference.defaultErrorMap code) ->
      forall (path : list path_segment) (expected : parsed_type) (v : value),
        is_undefined v = false ->
        message (type_issue P path expected v)
        = js "Expected " ++ Reference.type_name expected
          ++ js ", received " ++ Reference.type_name (getParsedType v)).
Proof.
  split; [|split; [|split]].
  - intros input entries Hblank Hjson Hnd. split.
    + intros Hall.
      assert (Hvars : Form.tryParseWorkflowVars P input
                      = Form.vars_ok
                          (VObj (map (converted P) (filter convertible entries)))).
      { unfold Form.tryParseWorkflowVars. rewrite Hblank, Hjson.
        cbn [truthy Form.typeof_object Form.Array_isArray negb orb own_props].
        now rewrite (stringify_entries_map P entries Hnd Hall). }
      split; [exact Hvars|].
      rewrite vars_valid. exact (tryParseWorkflowVars_ok P _ _ Hvars).
    + intros Hall. unfold Form.tryParseWorkflowVars. rewrite Hblank, Hjson.
      cbn [truthy Form.typeof_object Form.Array_isArray negb orb own_props].
      unfold Form.stringify_entries.
      now rewrite (reduce_entries_throws P entries [] Hall).
  - intros input parsed Hblank Hjson Hshape.
    unfold Form.tryParseWorkflowVars. rewrite Hblank, Hjson.
    destruct parsed; try discriminate; try reflexivity.
    + destruct b; reflexivity.
    + simpl. destruct (negb (negb (is_nan x || is_zero x))); reflexivity.
    + simpl. destruct s; reflexivity.
  - intros props. split.
    + intros Hno.
      exists (violations P (VObj props)). split; [|split].
      * apply inbound_failure_violations. split; [|reflexivity].
        unfold accepted_by_server. rewrite Hno.
        now rewrite andb_false_r.
      * intros Hshape. cbn [violations].
        do 4 (apply in_or_app; right). apply in_or_app. left.
        destruct (read_prop k_workflowVars props); try discriminate;
          left; reflexivity.
      * intros entries k x Hread Hin Hx. cbn [violations].
        do 4 (apply in_or_app; right). apply in_or_app. left.
        rewrite Hread. now apply workflowVars_violations_entry.
    + intros data Hok.
      apply (proj1 (inbound_safeParse_success P _ _)) in Hok as [Hacc ->].
      destruct (accepted_fields P _ Hacc) as (_ & _ & _ & _ & Hvars & _).
      split; [exact Hvars|].
      cbn [own_props]. apply (normalized_reads props).
  - intros Hmap path expected v Hv. unfold type_issue. cbn [message].
    rewrite Hmap. destruct v; try discriminate; try reflexivity.
    cbn [getParsedType]. destruct (is_nan x); reflexivity.
Qed.

(** C9, as the code has it. A body whose [workflowTag] and [message] are
    strings that are not empty once trimmed, whose [recipients] is a
    sequence of at least one string of 6 to 15 digits once trimmed, and
    whose [mediaUrl], [workflowVars] and [sendAt] are absent or pass
    their own rule, passes the server-facing schema; the payload has
    [workflowTag], every recipient and [message] trimmed, and [sendAt]
    as the body gave it. A form whose workflow tag, recipients text
    and message are not empty once trimmed and whose other fields pass,
    is posted with the workflow tag and the message trimmed, the
    recipients split into their trimmed, non-empty entries, and the date
    as [normalizeDateField] returned it. *)
Theorem valid_input_is_normalized (P : Platform) :
  (forall props : list (jstring * value),
      nonempty_after_trim (read_prop k_workflowTag props) = true ->
      recipients_ok (read_prop k_recipients props) = true ->
      nonempty_after_trim (read_prop k_message props) = true ->
      mediaUrl_ok_server P (read_prop k_mediaUrl props) = true ->
      workflowVars_ok (read_prop k_workflowVars props) = true ->
      sendAt_ok P (read_prop k_sendAt props) = true ->
      exists data,
        safeParse P (Route.inboundSchema P) (VObj props) = success (VObj data)
        /\ read_prop k_workflowTag data = trimmed (read_prop k_workflowTag props)
        /\ read_prop k_recipients data
           = VArr (map trimmed (items_of (read_prop k_recipients props)))
        /\ read_prop k_message data = trimmed (read_prop k_message props)
        /\ read_prop k_sendAt data = read_prop k_sendAt props)
  /\ (forall (form : Form.FormFields) (vars : value),
        Form.tryParseWorkflowVars P (Form.workflowVars form) = Form.vars_ok vars ->
        nonempty_after_trim (VStr (Form.workflowTag form)) = true ->
        nonempty_after_trim (VStr (Form.recipients form)) = true ->
        nonempty_after_trim (VStr (Form.message form)) = true ->
        mediaUrl_ok_client P (Form.mediaUrl form) = true ->
        sendAt_ok P (Form.normalizeDateField P (Form.sendAt form)) = true ->
        exists body,
          Form.handleSubmit P form = Form.Posted (VObj body)
          /\ read_prop k_workflowTag body = VStr (trim (Form.workflowTag form))
          /\ read_prop k_recipients body = VArr (map VStr (entries_of form))
          /\ read_prop k_message body = VStr (trim (Form.message form))
          /\ read_prop k_sendAt body = Form.normalizeDateField P (Form.sendAt form)
          /\ (forall e, In e (entries_of form) -> trim e = e /\ e <> [])).
Proof.
  split.
  - intros props Hwt Hrc Hmsg Hurl Hvars Hdate.
    exists (own_props (normalized props)).
    destruct (normalized_reads props) as (R1 & R2 & R3 & _ & _ & R6).
    split; [|now repeat split].
    apply inbound_safeParse_success. split; [|reflexivity].
    unfold accepted_by_server. now rewrite Hwt, Hrc, Hmsg, Hurl, Hvars, Hdate.
  - intros form vars Hparse Hwt Hrc Hmsg Hurl Hdate.
    exists (posted_props P form vars).
    destruct (posted_reads P form vars) as (R1 & R2 & R3 & _ & _ & R6).
    split; [|repeat (split; [assumption|])].
    + apply handleSubmit_posted. exists vars. split; [exact Hparse|].
      split; [|reflexivity].
      unfold accepted_by_client.
      rewrite Hwt, Hrc, Hmsg, Hurl, Hdate, (tryParseWorkflowVars_ok P _ _ Hparse).
      reflexivity.
    + intros e He. split; [exact (split_recipients_trimmed _ _ He)|].
      unfold entries_of, Form.split_recipients in He.
      apply filter_In in He as [_ He].
      intros ->. discriminate He.
Qed.

(** C4, at the failing input. The form with the media URL left empty
    passes the client-facing validator, which posts [mediaUrl] as the
    empty string; the server-facing validator reports an issue on
    [mediaUrl] for that body, and the relay answers 422. *)
Theorem blank_mediaUrl_rejected_by_server
  (P : Platform) (env : Route.Env) (world : Route.World) :
  URL_ok P [] = false ->
  Route.configured (Route.N8N_WEBHOOK_URL env) = true ->
  Form.handleSubmit P Scenario.form_blank_media = Form.Posted Scenario.body_blank_media
  /\ safeParse P (Route.inboundSchema P) Scenario.body_blank_media
     = failure [Issue [Key k_mediaUrl] invalid_string_url (errorMap P invalid_string_url)]
  /\ Route.handle P env world (Scenario.request_with Scenario.body_blank_media None)
     = (inr {| Route.status_code := 422;
               Route.json_body :=
                 VObj [ (js "message", VStr (js "Validation failed"));
                        (js "issues", VArr [VStr (errorMap P invalid_string_url)]) ] |},
        []).
Proof.
  intros Hurl Hcfg.
  assert (Hserver : safeParse P (Route.inboundSchema P) Scenario.body_blank_media
                    = failure [Issue [Key k_mediaUrl] invalid_string_url
                                 (errorMap P invalid_string_url)]).
  { destruct P as [url date num prim json iso map]. cbn [URL_ok] in Hurl.
    vm_compute. rewrite Hurl. reflexivity. }
  split; [|split; [exact Hserver|]].
  - apply handleSubmit_posted. exists VUndefined. split; [reflexivity|].
    split; [|reflexivity].
    unfold accepted_by_client, mediaUrl_ok_client. cbn [Scenario.form_blank_media Form.mediaUrl].
    rewrite Hurl. reflexivity.
  - now rewrite (POST_rejects P env world
                    (Scenario.request_with Scenario.body_blank_media None)
                    _ _ Hcfg eq_refl Hserver).
Qed.


(* --------------------------------------------------------------------- *)
(** ** The form and the relay on concrete inputs *)

Lemma POST_not_configured_witness :
  Route.handle Reference.platform Scenario.env_unset
    (Scenario.world_answering (inl Scenario.connection_error))
    (Scenario.request_with Scenario.body_A None)
  = (inr {| Route.status_code := 500;
            Route.json_body := VObj [(js "message", VStr Route.not_configured_message)] |},
     [])
  /\ firstn 15 Route.not_configured_message = js "N8N_WEBHOOK_URL".
Proof.
  exact (POST_not_configured Reference.platform Scenario.env_unset
           (Scenario.world_answering (inl Scenario.connection_error))
           (Scenario.request_with Scenario.body_A None) eq_refl).
Defined.

Lemma POST_fetch_throws_witness :
  Route.handle Reference.platform Scenario.env_configured
    (Scenario.world_answering (inl Scenario.connection_error))
    (Scenario.request_with Scenario.body_A None)
  = (inr {| Route.status_code := 504;
            Route.json_body :=
              VObj [ (js "message", VStr (js "Failed to communicate with n8n webhook."));
                     (js "issues", VArr [VStr (js "fetch failed")]) ] |},
     [ Route.Fetch
         (forwarded Scenario.env_configured
            (Scenario.world_answering (inl Scenario.connection_error))
            (Scenario.request_with Scenario.body_A None) Scenario.data_A);
       Route.ConsoleError (js "[n8n] webhook call failed") Scenario.connection_error ]).
Proof.
  exact (POST_fetch_throws Reference.platform Scenario.env_configured
           (Scenario.world_answering (inl Scenario.connection_error))
           (Scenario.request_with Scenario.body_A None)
           Scenario.body_A Scenario.data_A eq_refl eq_refl eq_refl
           Scenario.connection_error eq_refl).
Defined.

Lemma POST_downstream_failure_witness :
  Route.handle Reference.platform Scenario.env_configured
    (Scenario.world_answering (inr Scenario.downstream_boom))
    (Scenario.request_with Scenario.body_A None)
  = (inr {| Route.status_code := 502;
            Route.json_body :=
              VObj [ (js "message", VStr (js "n8n responded with status 500"));
                     (js "issues", VArr [VStr (js "boom")]) ] |},
     [ Route.Fetch
         (forwarded Scenario.env_configured
            (Scenario.world_answering (inr Scenario.downstream_boom))
            (Scenario.request_with Scenario.body_A None) Scenario.data_A) ]).
Proof.
  exact (POST_downstream_failure Reference.platform Scenario.env_configured
           (Scenario.world_answering (inr Scenario.downstream_boom))
           (Scenario.request_with Scenario.body_A None)
           Scenario.body_A Scenario.data_A eq_refl eq_refl eq_refl
           Scenario.downstream_boom eq_refl eq_refl).
Defined.

(** C7, as stated, fails: a valid request whose downstream answers 503
    and drops the connection while its body is read is answered 504,
    not 502, and the error is logged. *)
Lemma unreadable_failure_is_answered_504 :
  safeParse Reference.platform (Route.inboundSchema Reference.platform) Scenario.body_A
  = success Scenario.data_A
  /\ Route.ok Scenario.downstream_cut = false
  /\ Route.handle Reference.platform Scenario.env_configured
       (Scenario.world_answering (inr Scenario.downstream_cut))
       (Scenario.request_with Scenario.body_A None)
     = (inr {| Route.status_code := 504;
               Route.json_body :=
                 VObj [ (js "message",
                          VStr (js "Failed to communicate with n8n webhook."));
                        (js "issues", VArr [VStr (js "terminated")]) ] |},
        [ Route.Fetch
            (forwarded Scenario.env_configured
               (Scenario.world_answering (inr Scenario.downstream_cut))
               (Scenario.request_with Scenario.body_A None) Scenario.data_A);
          Route.ConsoleError (js "[n8n] webhook call failed")
            (Reference.TypeError "terminated") ]).
Proof. repeat split; reflexivity. Qed.

Lemma POST_validation_failure_witness :
  Route.handle Reference.platform Scenario.env_configured Scenario.world_ok
    (Scenario.request_with Scenario.body_C None)
  = (inr {| Route.status_code := 422;
            Route.json_body :=
              VObj [ (js "message", VStr (js "Validation failed"));
                     (js "issues",
                       VArr [ VStr (js "workflowTag is required");
                              VStr (js "Provide at least one recipient");
                              VStr (js "message is required") ]) ] |},
     [])
  /\ Route.handle Reference.platform Scenario.env_configured Scenario.world_ok
       (Scenario.request_with Scenario.body_faulty None)
     = (inr {| Route.status_code := 422;
               Route.json_body :=
                 VObj [ (js "message", VStr (js "Validation failed"));
                        (js "issues",
                          VArr [ VStr (js "workflowTag is required");
                                 VStr (js "Recipients must be numeric in international format");
                                 VStr (js "Expected string, received number");
                                 VStr (js "Invalid url");
                                 VStr (js "Expected string, received number");
                                 VStr (js "sendAt must be a valid ISO 8601 date string") ]) ] |},
        [])
  /\ violations Reference.platform Scenario.body_faulty
     = [ Issue [Key k_workflowTag] (too_small_string 1) (js "workflowTag is required");
         Issue [Key k_recipients; Index 1] invalid_string_regex
           (js "Recipients must be numeric in international format");
         Issue [Key k_recipients; Index 3] (invalid_type t_string t_number)
           (js "Expected string, received number");
         Issue [Key k_mediaUrl] invalid_string_url (js "Invalid url");
         Issue [Key k_workflowVars; Key (js "retries")] (invalid_type t_string t_number)
           (js "Expected string, received number");
         Issue [Key k_sendAt] custom
           (js "sendAt must be a valid ISO 8601 date string") ].
Proof.
  split; [|split].
  - exact (proj2 (proj2 (POST_validation_failure Reference.platform
                           Scenario.env_configured Scenario.world_ok
                           (Scenario.request_with Scenario.body_C None) eq_refl))
             eq_refl).
  - exact (proj1 (proj1 (POST_validation_failure Reference.platform
                           Scenario.env_configured Scenario.world_ok
                           (Scenario.request_with Scenario.body_faulty None) eq_refl)
                    Scenario.body_faulty
                    (violations Reference.platform Scenario.body_faulty)
                    eq_refl eq_refl)).
  - symmetry.
    exact (proj1 (proj2 (proj2 (proj1 (POST_validation_failure Reference.platform
                           Scenario.env_configured Scenario.world_ok
                           (Scenario.request_with Scenario.body_faulty None) eq_refl)
                    Scenario.body_faulty
                    [ Issue [Key k_workflowTag] (too_small_string 1)
                        (js "workflowTag is required");
                      Issue [Key k_recipients; Index 1] invalid_string_regex
                        (js "Recipients must be numeric in international format");
                      Issue [Key k_recipients; Index 3] (invalid_type t_string t_number)
                        (js "Expected string, received number");
                      Issue [Key k_mediaUrl] invalid_string_url (js "Invalid url");
                      Issue [Key k_workflowVars; Key (js "retries")]
                        (invalid_type t_string t_number)
                        (js "Expected string, received number");
                      Issue [Key k_sendAt] custom
                        (js "sendAt must be a valid ISO 8601 date string") ]
                    eq_refl eq_refl)))).
Defined.

Lemma forwarded_metadata_witness :
  In (Route.Fetch
        (forwarded Scenario.env_configured Scenario.world_ok Scenario.request_spoofed
           (normalized (own_props Scenario.body_spoofed))))
     (snd (Route.handle Reference.platform Scenario.env_configured Scenario.world_ok
             Scenario.request_spoofed))
  /\ get_prop k_requestedAt
       (own_props
          (Route.fetch_body
             (forwarded Scenario.env_configured Scenario.world_ok Scenario.request_spoofed
                (normalized (own_props Scenario.body_spoofed)))))
     = Some (VStr Scenario.clock)
  /\ get_prop k_origin
       (own_props
          (Route.fetch_body
             (forwarded Scenario.env_configured Scenario.world_ok Scenario.request_spoofed
                (normalized (own_props Scenario.body_spoofed)))))
     = None.
Proof.
  assert (Hin : In (Route.Fetch
                      (forwarded Scenario.env_configured Scenario.world_ok
                         Scenario.request_spoofed
                         (normalized (own_props Scenario.body_spoofed))))
                   (snd (Route.handle Reference.platform Scenario.env_configured
                           Scenario.world_ok Scenario.request_spoofed))).
  { left. reflexivity. }
  exact (conj Hin
           (forwarded_metadata_is_server_owned Reference.platform
              Scenario.env_configured Scenario.world_ok Scenario.request_spoofed _ Hin)).
Defined.

Lemma forwarded_fields_witness :
  In (Route.Fetch
        (forwarded Scenario.env_configured Scenario.world_ok Scenario.request_from_page
           (normalized (own_props Scenario.body_spoofed))))
     (snd (Route.handle Reference.platform Scenario.env_configured Scenario.world_ok
             Scenario.request_from_page))
  /\ exists props,
       Route.request_json Scenario.request_from_page = inr (VObj props)
       /\ Route.fetch_body
            (forwarded Scenario.env_configured Scenario.world_ok Scenario.request_from_page
               (normalized (own_props Scenario.body_spoofed)))
          = forwarded_json Scenario.world_ok Scenario.request_from_page props
       /\ map fst
            (own_props
               (Route.fetch_body
                  (forwarded Scenario.env_configured Scenario.world_ok
                     Scenario.request_from_page
                     (normalized (own_props Scenario.body_spoofed)))))
          = [k_workflowTag; k_recipients; k_message]
            ++ named k_mediaUrl props ++ named k_workflowVars props
            ++ named k_sendAt props
            ++ [k_requestedAt]
            ++ match Route.headers_get_origin Scenario.request_from_page with
               | Some _ => [k_origin]
               | None => []
               end.
Proof.
  assert (Hin : In (Route.Fetch
                      (forwarded Scenario.env_configured Scenario.world_ok
                         Scenario.request_from_page
                         (normalized (own_props Scenario.body_spoofed))))
                   (snd (Route.handle Reference.platform Scenario.env_configured
                           Scenario.world_ok Scenario.request_from_page))).
  { left. reflexivity. }
  exact (conj Hin
           (forwarded_fields Reference.platform
              Scenario.env_configured Scenario.world_ok Scenario.request_from_page _ Hin)).
Defined.

Lemma client_accepted_then_server_accepts_witness :
  Form.handleSubmit Reference.platform Scenario.form_full
  = Form.Posted Scenario.body_full
  /\ safeParse Reference.platform (Route.inboundSchema Reference.platform)
       Scenario.body_full
     = success Scenario.body_full.
Proof.
  split; [reflexivity|].
  apply (client_accepted_then_server_accepts Reference.platform Scenario.form_full);
    [reflexivity | vm_compute; discriminate | reflexivity | vm_compute; discriminate].
Defined.

(** C1, as stated, fails: the client-facing validator accepts a
    recipient that is not a number and posts it; the server-facing
    validator refuses the posted body. *)
Lemma letters_pass_client_fail_server :
  Form.handleSubmit Reference.platform Scenario.form_letters
  = Form.Posted Scenario.body_letters
  /\ safeParse Reference.platform (Route.inboundSchema Reference.platform)
       Scenario.body_letters
     = failure
         [ Issue [Key k_recipients; Index 0] invalid_string_regex
             (js "Recipients must be numeric in international format") ].
Proof. split; reflexivity. Qed.

Lemma blank_mediaUrl_rejected_by_server_witness :
  Form.handleSubmit Reference.platform Scenario.form_blank_media
  = Form.Posted Scenario.body_blank_media
  /\ safeParse Reference.platform (Route.inboundSchema Reference.platform)
       Scenario.body_blank_media
     = failure [Issue [Key k_mediaUrl] invalid_string_url (js "Invalid url")]
  /\ Route.handle Reference.platform Scenario.env_configured Scenario.world_ok
       (Scenario.request_with Scenario.body_blank_media None)
     = (inr {| Route.status_code := 422;
               Route.json_body :=
                 VObj [ (js "message", VStr (js "Validation failed"));
                        (js "issues", VArr [VStr (js "Invalid url")]) ] |},
        []).
Proof.
  exact (blank_mediaUrl_rejected_by_server Reference.platform
           Scenario.env_configured Scenario.world_ok eq_refl eq_refl).
Defined.

Lemma workflowVars_rules_witness :
  Form.tryParseWorkflowVars Reference.platform Reference.text_mixed
  = Form.vars_ok (VObj [ (js "retries", VStr (js "3")); (js "vip", VStr (js "true")) ])
  /\ Form.tryParseWorkflowVars Reference.platform Reference.text_own_toString
     = Form.vars_error
         (js "Invalid workflow variables JSON: Cannot convert object to primitive value")
  /\ Form.tryParseWorkflowVars Reference.platform (js "[1]")
     = Form.vars_error (js "Workflow variables must be a JSON object.")
  /\ (exists iss,
        safeParse Reference.platform (Route.inboundSchema Reference.platform)
          Scenario.body_array_vars
        = failure iss
        /\ In (Issue [Key k_workflowVars] (invalid_type t_object t_array)
                 (js "Expected object, received array")) iss
        /\ message (type_issue Reference.platform [Key k_workflowVars] t_object
                      (VArr [VNum one]))
           = js "Expected object, received array")
  /\ (exists iss,
        safeParse Reference.platform (Route.inboundSchema Reference.platform)
          Scenario.body_mixed_vars
        = failure iss
        /\ In (Issue [Key k_workflowVars; Key (js "vip")]
                 (invalid_type t_string t_boolean)
                 (js "Expected string, received boolean")) iss).
Proof.
  split; [|split; [|split; [|split]]].
  - refine (proj1 (proj1 (proj1 (workflowVars_rules Reference.platform)
                            Reference.text_mixed
                            [ (js "retries", VNum Reference.three);
                              (js "vip", VBool true) ]
                            eq_refl eq_refl _)
                     eq_refl)).
    repeat constructor; simpl; intuition discriminate.
  - refine (proj2 (proj1 (workflowVars_rules Reference.platform)
                     Reference.text_own_toString
                     [ (js "a", VObj [(js "toString", VNum one)]) ]
                     eq_refl eq_refl _)
              eq_refl).
    repeat constructor; simpl; intuition discriminate.
  - exact (proj1 (proj2 (workflowVars_rules Reference.platform))
             (js "[1]") (VArr [VNum one]) eq_refl eq_refl eq_refl).
  - destruct (proj1 (proj1 (proj2 (proj2 (workflowVars_rules Reference.platform)))
                       (own_props Scenario.body_array_vars))
                eq_refl) as (iss & Hfail & Hshape & _).
    exists iss. split; [exact Hfail|]. split; [exact (Hshape eq_refl)|].
    exact (proj2 (proj2 (proj2 (workflowVars_rules Reference.platform)))
             (fun code => eq_refl) [Key k_workflowVars] t_object (VArr [VNum one])
             eq_refl).
  - destruct (proj1 (proj1 (proj2 (proj2 (workflowVars_rules Reference.platform)))
                       (own_props Scenario.body_mixed_vars))
                eq_refl) as (iss & Hfail & _ & Hentry).
    exists iss. split; [exact Hfail|].
    exact (Hentry [ (js "retries", VNum Reference.three); (js "vip", VBool true) ]
             (js "vip") (VBool true) eq_refl (or_intror (or_introl eq_refl)) eq_refl).
Defined.

(** C5, as stated, fails on the server-facing validator: where the form
    converts the values of [{"retries":3,"vip":true}] to strings, the
    relay refuses the same mapping with one type issue for each value;
    and it refuses an array with zod's type issue, whose message comes
    from the error map. *)
Lemma server_refuses_unconverted_vars :
  Form.tryParseWorkflowVars Reference.platform Reference.text_mixed
  = Form.vars_ok (VObj [ (js "retries", VStr (js "3")); (js "vip", VStr (js "true")) ])
  /\ safeParse Reference.platform (Route.inboundSchema Reference.platform)
       Scenario.body_mixed_vars
     = failure
         [ Issue [Key k_workflowVars; Key (js "retries")]
             (invalid_type t_string t_number) (js "Expected string, received number");
           Issue [Key k_workflowVars; Key (js "vip")]
             (invalid_type t_string t_boolean) (js "Expected string, received boolean") ]
  /\ safeParse Reference.platform (Route.inboundSchema Reference.platform)
       Scenario.body_array_vars
     = failure
         [ Issue [Key k_workflowVars] (invalid_type t_object t_array)
             (js "Expected object, received array") ].
Proof. repeat split; reflexivity. Qed.

Lemma valid_input_is_normalized_witness :
  exists data,
    safeParse Reference.platform (Route.inboundSchema Reference.platform)
      Scenario.body_padded_date
    = success (VObj data)
    /\ read_prop k_workflowTag data = VStr (js "promo")
    /\ read_prop k_recipients data = VArr [VStr (js "15551234567")]
    /\ read_prop k_message data = VStr (js "hi")
    /\ read_prop k_sendAt data = VStr (js "2024-01-01 ").
Proof.
  exact (proj1 (valid_input_is_normalized Reference.platform)
           (own_props Scenario.body_padded_date)
           eq_refl eq_refl eq_refl eq_refl eq_refl eq_refl).
Defined.

(** C9, as stated, fails: with no recipient at all every recipient
    matches, and the body is refused; and a date that [Date.parse] takes
    with a space after it is returned with the space. *)
Lemma matching_fields_do_not_suffice :
  safeParse Reference.platform (Route.inboundSchema Reference.platform)
    Scenario.body_no_recipients
  = failure
      [ Issue [Key k_recipients] (too_small_array 1)
          (js "Provide at least one recipient") ]
  /\ (exists data,
        safeParse Reference.platform (Route.inboundSchema Reference.platform)
          Scenario.body_padded_date
        = success (VObj data)
        /\ read_prop k_sendAt data = VStr (js "2024-01-01 ")
        /\ trim (js "2024-01-01 ") <> js "2024-01-01 ").
Proof.
  split; [reflexivity|].
  eexists. split; [reflexivity|]. split; [reflexivity|].
  vm_compute. discriminate.
Qed.

(* ===================================================================== *)
(** * Further properties of the relay endpoint *)
(* ===================================================================== *)

Ltac run_handler :=
  cbv beta iota zeta
    delta [Route.try_catch Route.bind Route.do_fetch Route.emit Route.await
           Route.safeJson Route.ret app snd].

Section RelayOutcomes.
Variable P : Platform.
Variable env : Route.Env.
Variable world : Route.World.
Variable request : Route.NextRequest.

Lemma NextResponse_json_200 (result : value) :
  Route.NextResponse_json
    [ (js "message", VStr (js "Workflow dispatched to n8n."));
      (js "n8nResponse", result) ]
    200
  = answer_200 result.
Proof. destruct result; reflexivity. Qed.

Lemma NextResponse_json_502 (status : N) (details : jstring) :
  Route.NextResponse_json
    [ (js "message", VStr (js "n8n responded with status " ++ decimal status));
      (js "issues", if eqb details [] then VUndefined else VArr [VStr details]) ]
    502
  = answer_502 status details.
Proof. destruct details; reflexivity. Qed.

(** The handler always ends in one of the six ways. *)
Lemma POST_outcome :
  exists answer events,
    Route.handle P env world request = (inr answer, events) /\ outcome answer events.
Proof.
  unfold Route.handle, Route.POST.
  destruct (Route.configured (Route.N8N_WEBHOOK_URL env)); cbn [negb];
    [|do 2 eexists; split; [reflexivity|apply not_configured]].
  unfold Route.bind at 1, Route.attempt, Route.await at 1.
  destruct (Route.request_json request) as [e|body];
    [do 2 eexists; split; [reflexivity|apply (malformed e)]|].
  destruct (safeParse P (Route.inboundSchema P) body) as [data|iss].
  2:{ do 2 eexists. split; [reflexivity|].
      unfold Route.NextResponse_json. rewrite to_json_object.
      cbn [json_props flat_map fst snd is_undefined app].
      rewrite to_json_strings. apply (refused iss). }
  set (c := {| Route.fetch_url := _ |}).
  run_handler. destruct (Route.fetch world c) as [e|response]; run_handler.
  - do 2 eexists. split; [reflexivity|]. apply (unreachable c e).
  - destruct (negb (Route.ok response)) eqn:Hok; run_handler.
    + apply negb_true_iff in Hok.
      destruct (Route.response_text response) as [e|details]; run_handler.
      * do 2 eexists. split; [reflexivity|]. apply (unreachable c e).
      * do 2 eexists. split; [reflexivity|]. rewrite NextResponse_json_502.
        now apply downstream_failed.
    + destruct (Route.response_json response) as [e|result]; run_handler;
        do 2 eexists; (split; [reflexivity|]); rewrite NextResponse_json_200;
        apply dispatched.
Qed.

(** X1. A request whose body is not JSON is answered 400 with the text
    of the parse error as the only issue; the schema is not run and
    nothing is sent. *)
Theorem POST_malformed_json (error : thrown) :
  Route.configured (Route.N8N_WEBHOOK_URL env) = true ->
  Route.request_json request = inl error ->
  Route.handle P env world request = (inr (answer_400 error), []).
Proof.
  intros Hcfg Hjson. unfold Route.handle, Route.POST. rewrite Hcfg. cbn [negb].
  unfold Route.bind, Route.attempt, Route.await. rewrite Hjson. reflexivity.
Qed.

(** X2. The handler always answers: no exception escapes it, and the
    status of the answer is one of 200, 400, 422, 500, 502 and 504. *)
Theorem POST_never_throws :
  exists answer,
    fst (Route.handle P env world request) = inr answer
    /\ In (Route.status_code answer) [200; 400; 422; 500; 502; 504]%N.
Proof.
  destruct POST_outcome as (answer & events & -> & Hout).
  exists answer. split; [reflexivity|].
  destruct Hout; cbn [Route.status_code answer_500 answer_400 answer_422 answer_502
                      answer_200 answer_504 In]; auto 10.
Qed.

(** X3. The body of every answer is an object with a string [message];
    [issues] is absent or an array of strings; the only other key it may
    have is [n8nResponse]. *)
Theorem POST_answer_shape :
  exists answer events props m,
    Route.handle P env world request = (inr answer, events)
    /\ Route.json_body answer = VObj props
    /\ read_prop k_message props = VStr m
    /\ (read_prop k_issues props = VUndefined
        \/ exists msgs : list jstring, read_prop k_issues props = VArr (map VStr msgs))
    /\ (forall k, has_prop k props = true ->
                  k = k_message \/ k = k_issues \/ k = k_n8nResponse).
Proof.
  destruct POST_outcome as (answer & events & Hrun & Hout).
  exists answer, events.
  assert (Hkeys2 : forall a b k,
             has_prop k [(k_message, a); (k_issues, b)] = true ->
             k = k_message \/ k = k_issues \/ k = k_n8nResponse).
  { intros a b k. unfold has_prop. cbn [get_prop].
    destruct (eqb k k_message) eqn:E1; [apply eqb_eq in E1; auto|].
    destruct (eqb k k_issues) eqn:E2; [apply eqb_eq in E2; auto|discriminate]. }
  assert (Hkeys1 : forall a k,
             has_prop k [(k_message, a)] = true ->
             k = k_message \/ k = k_issues \/ k = k_n8nResponse).
  { intros a k. unfold has_prop. cbn [get_prop].
    destruct (eqb k k_message) eqn:E1; [apply eqb_eq in E1; auto|discriminate]. }
  destruct Hout.
  - do 2 eexists. split; [exact Hrun|]. split; [reflexivity|].
    split; [reflexivity|]. split; [left; reflexivity|apply Hkeys1].
  - do 2 eexists. split; [exact Hrun|]. split; [reflexivity|].
    split; [reflexivity|]. split; [|apply Hkeys2].
    right. exists [error_String error]. reflexivity.
  - do 2 eexists. split; [exact Hrun|]. split; [reflexivity|].
    split; [reflexivity|]. split; [|apply Hkeys2].
    right. exists (map message iss).
    change (read_prop k_issues _) with (VArr (map (fun i => VStr (message i)) iss)).
    now rewrite map_map.
  - destruct details as [|c details].
    + do 2 eexists. split; [exact Hrun|]. split; [reflexivity|].
      split; [reflexivity|]. split; [left; reflexivity|apply Hkeys1].
    + do 2 eexists. split; [exact Hrun|]. split; [reflexivity|].
      split; [reflexivity|]. split; [|apply Hkeys2].
      right. exists [c :: details]. reflexivity.
  - destruct (is_undefined result) eqn:E.
    + do 2 eexists. unfold answer_200 in *. rewrite E in *.
      split; [exact Hrun|]. split; [reflexivity|].
      split; [reflexivity|]. split; [left; reflexivity|apply Hkeys1].
    + do 2 eexists. unfold answer_200 in *. rewrite E in *.
      split; [exact Hrun|]. split; [reflexivity|].
      split; [reflexivity|]. split; [left; reflexivity|].
      intros k. unfold has_prop. cbn [get_prop].
      destruct (eqb k k_message) eqn:E1; [apply eqb_eq in E1; auto|].
      destruct (eqb k k_n8nResponse) eqn:E2; [apply eqb_eq in E2; auto|discriminate].
  - do 2 eexists. split; [exact Hrun|]. split; [reflexivity|].
    split; [reflexivity|]. split; [|apply Hkeys2].
    right. exists [diagnostic error]. reflexivity.
Qed.

(** X4. [console.error] is called exactly for the requests that are
    answered 504, once, and after the call of [fetch]. *)
Theorem console_error_iff_504 :
  exists answer events,
    Route.handle P env world request = (inr answer, events)
    /\ length (filter is_console_error events)
       = (if N.eqb (Route.status_code answer) 504 then 1 else 0)
    /\ (N.eqb (Route.status_code answer) 504 = true ->
        exists call error,
          events = [ Route.Fetch call;
                     Route.ConsoleError (js "[n8n] webhook call failed") error ]).
Proof.
  destruct POST_outcome as (answer & events & Hrun & Hout).
  exists answer, events. split; [exact Hrun|].
  destruct Hout; (split; [reflexivity|]); try discriminate.
  intros _. eauto.
Qed.

(** X7. A request makes one call of [fetch] when the endpoint is
    configured and its body is JSON that the schema accepts, and none
    otherwise: never two. *)
Theorem fetch_count :
  length (filter is_fetch (snd (Route.handle P env world request)))
  = if reaches_downstream P env request then 1 else 0.
Proof.
  unfold reaches_downstream.
  destruct (Route.configured (Route.N8N_WEBHOOK_URL env)) eqn:Hcfg; cbn [andb].
  2:{ unfold Route.handle, Route.POST. rewrite Hcfg. reflexivity. }
  destruct (Route.request_json request) as [e|body] eqn:Hjson.
  { unfold Route.handle, Route.POST. rewrite Hcfg. cbn [negb].
    unfold Route.bind, Route.attempt, Route.await. rewrite Hjson. reflexivity. }
  destruct (accepted_by_server P body) eqn:Hacc.
  - assert (Hvalid : safeParse P (Route.inboundSchema P) body
                     = success (normalized (own_props body))).
    { apply inbound_safeParse_success. auto. }
    destruct (POST_fetches_once P env world request body _ Hcfg Hjson Hvalid)
      as (answer & rest & -> & Hrest).
    cbn [snd filter is_fetch length]. f_equal.
    assert (Hnone : filter is_fetch rest = []).
    { clear -Hrest. induction rest as [|ev rest IH]; [reflexivity|].
      cbn [filter]. destruct ev as [call|l e]; cbn [is_fetch].
      - exfalso. apply (Hrest call). left. reflexivity.
      - apply IH. intros call' Hin. apply (Hrest call'). right. exact Hin. }
    now rewrite Hnone.
  - assert (Hfail : safeParse P (Route.inboundSchema P) body
                    = failure (issues (parse P (Route.inboundSchema P) [] body))).
    { apply inbound_safeParse_failure. auto. }
    now rewrite (POST_rejects P env world request _ _ Hcfg Hjson Hfail).
Qed.

(** X6. Every call the handler makes is a POST to the configured URL with
    the content type of JSON; it carries the header [X-N8N-API-KEY]
    exactly when [N8N_API_KEY] is set and not empty, with that value,
    and no other header. *)
Theorem outbound_call_shape (call : Route.fetch_call) :
  In (Route.Fetch call) (snd (Route.handle P env world request)) ->
  Route.fetch_method call = js "POST"
  /\ Route.N8N_WEBHOOK_URL env = Some (Route.fetch_url call)
  /\ Route.fetch_url call <> []
  /\ Route.fetch_headers call
     = (js "Content-Type", js "application/json")
       :: match Route.N8N_API_KEY env with
          | Some (c :: key) => [ (js "X-N8N-API-KEY", c :: key) ]
          | _ => []
          end.
Proof.
  intros Hin. apply fetch_inversion in Hin as (Hcfg & props & _ & _ & ->).
  unfold forwarded. cbn [Route.fetch_method Route.fetch_url Route.fetch_headers].
  split; [reflexivity|].
  unfold Route.webhook_url, Route.outbound_headers, Route.configured in *.
  destruct (Route.N8N_WEBHOOK_URL env) as [url|]; [|discriminate].
  split; [reflexivity|]. split.
  - intros ->. discriminate Hcfg.
  - destruct (Route.N8N_API_KEY env) as [[|c key]|]; reflexivity.
Qed.

Section ValidRequestMore.
Variables (body data : value).
Hypothesis Hconfigured : Route.configured (Route.N8N_WEBHOOK_URL env) = true.
Hypothesis Hjson : Route.request_json request = inr body.
Hypothesis Hvalid : safeParse P (Route.inboundSchema P) body = success data.

(** X5. When the downstream answers with a status outside 200..299 and
    the reading of its body throws, the handler treats it as a failed
    call: it logs the error and answers 504, not 502. *)
Theorem POST_unreadable_body (response : Route.Response) (error : thrown) :
  Route.fetch world (forwarded env world request data) = inr response ->
  Route.ok response = false ->
  Route.response_text response = inl error ->
  Route.handle P env world request
  = (inr (answer_504 error),
     [ Route.Fetch (forwarded env world request data);
       Route.ConsoleError (js "[n8n] webhook call failed") error ]).
Proof.
  intros Hresp Hok Htext. unfold Route.handle.
  rewrite (POST_valid_unfold P env world request body data Hconfigured Hjson Hvalid).
  unfold Route.try_catch, Route.bind, Route.do_fetch, Route.emit, Route.await, Route.bind.
  rewrite Hresp. cbn [negb]. rewrite Hok. cbn [negb]. rewrite Htext. reflexivity.
Qed.

(** X8. When the downstream answers with a status in 200..299 the
    handler answers 200 with the message "Workflow dispatched to n8n."
    and the downstream's JSON body under [n8nResponse]; the key is left
    out when that body is not JSON. One call was made and nothing was
    logged. *)
Theorem POST_downstream_success (response : Route.Response) :
  Route.fetch world (forwarded env world request data) = inr response ->
  Route.ok response = true ->
  Route.handle P env world request
  = (inr {| Route.status_code := 200;
            Route.json_body :=
              VObj ((k_message, VStr (js "Workflow dispatched to n8n."))
                    :: match Route.response_json response with
                       | inr result =>
                           if is_undefined result then []
                           else [ (k_n8nResponse, to_json result) ]
                       | inl _ => []
                       end) |},
     [ Route.Fetch (forwarded env world request data) ]).
Proof.
  intros Hresp Hok.
  rewrite (POST_success P env world request body data Hconfigured Hjson Hvalid
             response Hresp Hok).
  rewrite NextResponse_json_200.
  destruct (Route.response_json response); reflexivity.
Qed.

End ValidRequestMore.

End RelayOutcomes.

(* --------------------------------------------------------------------- *)
(** ** The server-facing schema, applied twice *)

Section Revalidation.
Variable P : Platform.

Lemma trimmed_idempotent (v : value) : trimmed (trimmed v) = trimmed v.
Proof. destruct v; try reflexivity. simpl. now rewrite trim_idempotent. Qed.

Lemma numeric_id_trimmed (v : value) : numeric_id (trimmed v) = numeric_id v.
Proof. destruct v; try reflexivity. simpl. now rewrite trim_idempotent. Qed.

Lemma nonempty_trimmed (v : value) : nonempty_after_trim (trimmed v) = nonempty_after_trim v.
Proof. destruct v; try reflexivity. simpl. now rewrite trim_idempotent. Qed.

Lemma normalized_has (props : list (jstring * value)) :
  let data := own_props (normalized props) in
  has_prop k_mediaUrl data = has_prop k_mediaUrl props
  /\ has_prop k_workflowVars data = has_prop k_workflowVars props
  /\ has_prop k_sendAt data = has_prop k_sendAt props.
Proof.
  cbv zeta. unfold normalized, kept, kept_vars. cbn [own_props].
  destruct (has_prop k_mediaUrl props), (has_prop k_workflowVars props),
    (has_prop k_sendAt props); repeat split; reflexivity.
Qed.

Lemma normalized_idempotent (props : list (jstring * value)) :
  normalized (own_props (normalized props)) = normalized props.
Proof.
  unfold normalized at 1. unfold kept, kept_vars.
  destruct (normalized_has props) as (-> & -> & ->).
  destruct (normalized_reads props) as (-> & -> & -> & -> & -> & ->).
  rewrite !trimmed_idempotent, copied_idempotent. cbn [items_of].
  rewrite map_map.
  rewrite (map_ext (fun x => trimmed (trimmed x)) trimmed trimmed_idempotent).
  reflexivity.
Qed.

Lemma normalized_accepted (props : list (jstring * value)) :
  accepted_by_server P (VObj props) = true ->
  accepted_by_server P (normalized props) = true.
Proof.
  intros Hacc.
  destruct (accepted_fields P _ Hacc) as (Hwt & Hrc & Hmsg & Hurl & Hvars & Hdate).
  assert (E : normalized props = VObj (own_props (normalized props))) by reflexivity.
  rewrite E. unfold accepted_by_server.
  destruct (normalized_reads props) as (-> & -> & -> & -> & -> & ->).
  rewrite !nonempty_trimmed, Hwt, Hmsg, Hurl, Hdate, (copied_ok _ Hvars).
  rewrite !andb_true_r. cbn [andb].
  destruct (read_prop k_recipients props); try discriminate.
  cbn [items_of recipients_ok] in *. rewrite length_map.
  apply andb_true_iff in Hrc as [Hlen Hall]. rewrite Hlen. cbn [andb].
  clear -Hall. induction items as [|x items IH]; [reflexivity|].
  cbn [map forallb] in *. apply andb_true_iff in Hall as [Hx Hall].
  now rewrite numeric_id_trimmed, Hx, IH.
Qed.

(** X9. The server-facing schema is idempotent: the payload it returns
    for an accepted body is itself accepted, and returned unchanged. *)
Theorem inbound_revalidation (body data : value) :
  safeParse P (Route.inboundSchema P) body = success data ->
  safeParse P (Route.inboundSchema P) data = success data.
Proof.
  intros Hok.
  apply (proj1 (inbound_safeParse_success P body data)) in Hok as [Hacc ->].
  destruct body; try discriminate. cbn [own_props].
  apply inbound_safeParse_success. split.
  - now apply normalized_accepted.
  - symmetry. apply normalized_idempotent.
Qed.

End Revalidation.

(* ===================================================================== *)
(** * Further properties of the form *)
(* ===================================================================== *)

(* --------------------------------------------------------------------- *)
(** ** The recipients text *)

Section Recipients.

Lemma In_trimStart (c : code_unit) (s : jstring) : In c (trimStart s) -> In c s.
Proof.
  induction s as [|x s IH]; simpl; [auto|].
  destruct (isWhiteSpace x); simpl; auto.
Qed.

Lemma In_trim (c : code_unit) (s : jstring) : In c (trim s) -> In c s.
Proof.
  unfold trim, trimEnd. intros H.
  apply in_rev in H. apply In_trimStart in H. apply in_rev in H.
  now apply In_trimStart.
Qed.

Lemma trim_whitespace (s : jstring) : forallb isWhiteSpace s = true -> trim s = [].
Proof.
  intros Hall. unfold trim.
  assert (Hstart : trimStart s = []).
  { induction s as [|x s IH]; [reflexivity|].
    simpl in *. apply andb_true_iff in Hall as [Hx Hall]. rewrite Hx. auto. }
  now rewrite Hstart.
Qed.

(** The pieces of a split are made of code units of the text that are
    not separators. *)
Lemma split_from_pieces (s cur : jstring) (in_sep : bool) (piece : jstring) (c : code_unit) :
  In piece (split_from cur in_sep s) -> In c piece ->
  In c cur \/ (In c s /\ isSeparator c = false).
Proof.
  revert cur in_sep. induction s as [|x r IH]; intros cur in_sep Hp Hc.
  - simpl in Hp. destruct Hp as [<-|[]]. left. now apply in_rev.
  - cbn [split_from] in Hp. destruct (isSeparator x) eqn:Ex.
    + destruct in_sep.
      * destruct (IH _ _ Hp Hc) as [H|[H1 H2]]; [auto|right; split; [right|]; auto].
      * destruct Hp as [<-|Hp]; [left; now apply in_rev|].
        destruct (IH _ _ Hp Hc) as [[]|[H1 H2]]. right; split; [right|]; auto.
    + destruct (IH _ _ Hp Hc) as [[<-|H]|[H1 H2]].
      * right. split; [left; reflexivity|exact Ex].
      * auto.
      * right. split; [right|]; auto.
Qed.

(** X10. Every recipient entry that the form posts is non-empty, has no
    whitespace around it and contains no comma and no line feed. *)
Theorem entries_well_formed (s e : jstring) :
  In e (Form.split_recipients s) -> well_formed_entry e.
Proof.
  intros Hin. pose proof (split_recipients_trimmed _ _ Hin) as Htrim.
  unfold Form.split_recipients in Hin. apply filter_In in Hin as [Hin Hne].
  apply in_map_iff in Hin as (piece & <- & Hpiece).
  repeat split.
  - intros E. rewrite E in Hne. discriminate.
  - exact Htrim.
  - unfold no_separator. apply forallb_forall. intros c Hc.
    apply In_trim in Hc.
    destruct (split_from_pieces _ _ _ _ _ Hpiece Hc) as [[]|[_ ->]]. reflexivity.
Qed.

Lemma split_from_plain (x cur : jstring) (in_sep : bool) :
  no_separator x = true -> split_from cur in_sep x = [rev cur ++ x].
Proof.
  revert cur in_sep. induction x as [|c r IH]; intros cur in_sep Hx.
  - simpl. now rewrite app_nil_r.
  - cbn [no_separator forallb] in Hx. apply andb_true_iff in Hx as [Hc Hr].
    apply negb_true_iff in Hc. cbn [split_from]. rewrite Hc.
    rewrite (IH _ _ Hr). simpl. now rewrite <- app_assoc.
Qed.

Lemma split_from_comma (x rest cur : jstring) (in_sep : bool) :
  no_separator x = true -> x <> [] \/ in_sep = false ->
  split_from cur in_sep (x ++ 44%N :: rest) = (rev cur ++ x) :: split_from [] true rest.
Proof.
  revert cur in_sep. induction x as [|c r IH]; intros cur in_sep Hx Hne.
  - destruct Hne as [Hne| ->]; [congruence|]. simpl. now rewrite app_nil_r.
  - cbn [no_separator forallb] in Hx. apply andb_true_iff in Hx as [Hc Hr].
    apply negb_true_iff in Hc. cbn [app split_from]. rewrite Hc.
    rewrite (IH _ _ Hr) by (right; reflexivity). simpl. now rewrite <- app_assoc.
Qed.

Lemma split_join (es : list jstring) (in_sep : bool) :
  es <> [] ->
  (forall e, In e es -> well_formed_entry e) ->
  split_from [] in_sep (Form.join (js ",") es) = es.
Proof.
  revert in_sep. induction es as [|x es IH]; intros in_sep Hne Hwf; [congruence|].
  destruct (Hwf x (or_introl eq_refl)) as (Hx & _ & Hsep).
  destruct es as [|y es].
  - cbn [Form.join]. now rewrite split_from_plain.
  - change (Form.join (js ",") (x :: y :: es))
      with (x ++ 44%N :: Form.join (js ",") (y :: es)).
    rewrite split_from_comma by auto. cbn [rev app]. f_equal.
    apply IH; [discriminate|]. intros e He. apply Hwf. right. exact He.
Qed.

(** X11. Splitting is the inverse of joining with commas: a list of
    entries that are non-empty, trimmed and free of commas and line
    feeds, written as one comma-separated text, is read back as the
    same list. *)
Theorem split_recipients_join (es : list jstring) :
  (forall e, In e es -> well_formed_entry e) ->
  Form.split_recipients (Form.join (js ",") es) = es.
Proof.
  intros Hwf. unfold Form.split_recipients, split.
  destruct es as [|x es]; [reflexivity|].
  rewrite split_join by (auto; discriminate).
  induction (x :: es) as [|e l IH]; [reflexivity|].
  destruct (Hwf e (or_introl eq_refl)) as (He & Htrim & _).
  cbn [map filter]. rewrite Htrim.
  destruct e; [congruence|]. cbn [eqb negb]. f_equal.
  apply IH. intros e' He'. apply Hwf. right. exact He'.
Qed.

(** A text of separators and whitespace has no entry. *)
Lemma split_recipients_blank (s : jstring) :
  forallb separator_or_space s = true -> Form.split_recipients s = [].
Proof.
  intros Hall. unfold Form.split_recipients.
  assert (Hpieces : forall piece, In piece (split s) -> trim piece = []).
  { intros piece Hp. apply trim_whitespace. apply forallb_forall. intros c Hc.
    destruct (split_from_pieces _ _ _ _ _ Hp Hc) as [[]|[Hin Hsep]].
    rewrite forallb_forall in Hall. specialize (Hall c Hin).
    unfold separator_or_space in Hall. now rewrite Hsep in Hall. }
  induction (split s) as [|piece l IH]; [reflexivity|].
  cbn [map filter]. rewrite (Hpieces piece) by (left; reflexivity).
  cbn [eqb negb]. apply IH. intros p Hp. apply Hpieces. right. exact Hp.
Qed.

End Recipients.

(* --------------------------------------------------------------------- *)
(** ** What the form posts *)

Section Posting.
Variable P : Platform.

Lemma forallb_trim (f : code_unit -> bool) (s : jstring) :
  forallb f s = true -> forallb f (trim s) = true.
Proof.
  intros Hall. apply forallb_forall. intros c Hc.
  rewrite forallb_forall in Hall. apply Hall. now apply In_trim.
Qed.

(** X12. A recipients text made of commas, line feeds and whitespace
    only, if the form posts it, is posted as an empty list, which the
    server-facing schema refuses with "Provide at least one recipient". *)
Theorem separators_only_recipients (form : Form.FormFields) (body : value) :
  Form.handleSubmit P form = Form.Posted body ->
  forallb separator_or_space (Form.recipients form) = true ->
  read_prop k_recipients (own_props body) = VArr []
  /\ exists iss,
       safeParse P (Route.inboundSchema P) body = failure iss
       /\ In (Issue [Key k_recipients] (too_small_array 1)
                (js "Provide at least one recipient")) iss.
Proof.
  intros Hposted Hblank.
  apply handleSubmit_posted in Hposted as (vars & _ & Hacc & ->).
  assert (Hentries : entries_of form = []).
  { unfold entries_of. apply split_recipients_blank. now apply forallb_trim. }
  cbn [own_props].
  destruct (posted_reads P form vars) as (_ & Hrc & _).
  rewrite Hentries in Hrc. split; [exact Hrc|].
  exists (issues (parse P (Route.inboundSchema P) [] (VObj (posted_props P form vars)))).
  split.
  - apply inbound_safeParse_failure. split; [|reflexivity].
    rewrite (posted_accepted P _ _ Hacc), Hentries. reflexivity.
  - rewrite inbound_issues_object. unfold inbound_pairs, all_issues.
    cbn [map pair_value concat]. apply in_or_app. right. apply in_or_app. left.
    rewrite Hrc, parse_recipients_issues. left. reflexivity.
Qed.

Lemma tryParseWorkflowVars_cases (input : jstring) :
  (eqb (trim input) [] = true
   /\ Form.tryParseWorkflowVars P input = Form.vars_ok VUndefined)
  \/ (eqb (trim input) [] = false
      /\ converts_to_mapping P input = true
      /\ exists out, Form.tryParseWorkflowVars P input = Form.vars_ok (VObj out))
  \/ (eqb (trim input) [] = false
      /\ converts_to_mapping P input = false
      /\ Form.tryParseWorkflowVars P input
         = Form.vars_error (refusal_message P input)).
Proof.
  unfold Form.tryParseWorkflowVars, converts_to_mapping, refusal_message.
  destruct (eqb (trim input) []); [left; auto|right].
  destruct (JSON_parse P input) as [e|v]; [right; auto|].
  destruct v; try (right; split; [reflexivity|split; reflexivity]).
  - right. destruct b; auto.
  - right. simpl. destruct (negb (negb (is_nan x || is_zero x))); auto.
  - right. simpl. destruct s; auto.
  - cbn [truthy Form.typeof_object Form.Array_isArray negb orb own_props].
    unfold Form.stringify_entries.
    destruct (all_have_strings props) eqn:Hall.
    + left. rewrite (reduce_entries_fold P props [] Hall). eauto.
    + right. now rewrite (reduce_entries_throws P props [] Hall).
Qed.

(** X13. The form stops on the workflow variables, before any other
    field is looked at, exactly when their text is not blank and is not
    the JSON text of an object whose values all have a string
    representation; the message it shows says which: the parse error,
    "Workflow variables must be a JSON object.", or the error that
    [String] throws on a value. *)
Theorem variables_rejected_iff (form : Form.FormFields) (msg : jstring) :
  Form.handleSubmit P form = Form.VarsRejected msg
  <-> eqb (trim (Form.workflowVars form)) [] = false
      /\ converts_to_mapping P (Form.workflowVars form) = false
      /\ msg = refusal_message P (Form.workflowVars form).
Proof.
  unfold Form.handleSubmit.
  destruct (tryParseWorkflowVars_cases (Form.workflowVars form))
    as [[Hblank ->]|[(Hblank & Hconv & out & ->)|(Hblank & Hconv & ->)]];
    rewrite Hblank, Hconv || rewrite Hblank.
  - split; [|intros [? _]; discriminate].
    destruct (safeParse P _ _); discriminate.
  - split; [|intros (_ & ? & _); discriminate].
    destruct (safeParse P _ _); discriminate.
  - split; [intros [= <-]; auto|intros (_ & _ & ->); reflexivity].
Qed.

Lemma NoDup_map_filter {A B : Type} (g : A -> B) (f : A -> bool) (l : list A) :
  NoDup (map g l) -> NoDup (map g (filter f l)).
Proof.
  induction l as [|x l IH]; simpl; [auto|].
  intros Hnd. apply NoDup_cons_iff in Hnd as [Hx Hnd].
  destruct (f x); simpl; [|auto].
  constructor; [|auto]. intros Hin. apply Hx.
  apply in_map_iff in Hin as (y & <- & Hy). apply filter_In in Hy as [Hy _].
  now apply in_map.
Qed.

(** X14. The conversion of the workflow variables is idempotent: on an
    object (distinct keys) that it converts, converting the converted
    entries again changes nothing. *)
Theorem conversion_idempotent (entries out : list (jstring * value)) :
  NoDup (map fst entries) ->
  Form.stringify_entries P entries = inr out ->
  Form.stringify_entries P out = inr out.
Proof.
  intros Hnd Hout.
  destruct (all_have_strings entries) eqn:Hall.
  2:{ unfold Form.stringify_entries in Hout.
      rewrite (reduce_entries_throws P entries [] Hall) in Hout. discriminate. }
  rewrite (stringify_entries_map P entries Hnd Hall) in Hout.
  injection Hout as <-.
  set (kept_entries := filter convertible entries).
  assert (Hnd' : NoDup (map fst (map (converted P) kept_entries))).
  { rewrite map_map. cbn [converted fst].
    now apply (NoDup_map_filter fst). }
  assert (Hall' : all_have_strings (map (converted P) kept_entries) = true).
  { unfold all_have_strings. clear. induction kept_entries as [|kv l IH]; [reflexivity|].
    cbn [map forallb converted snd has_string andb]. exact IH. }
  rewrite (stringify_entries_map P _ Hnd' Hall'). f_equal.
  assert (Hkept : forall kv, In kv kept_entries -> convertible kv = true).
  { intros kv Hin. now apply filter_In in Hin as [_ ?]. }
  clearbody kept_entries. clear Hnd Hnd' Hall Hall'.
  induction kept_entries as [|[k v] l IH]; [reflexivity|].
  cbn [map filter]. unfold convertible at 1. cbn [converted fst snd].
  pose proof (Hkept (k, v) (or_introl eq_refl)) as Hk.
  unfold convertible in Hk. cbn [fst] in Hk. rewrite Hk.
  cbn [map converted fst snd string_of]. f_equal.
  apply IH. intros kv Hin. apply Hkept. right. exact Hin.
Qed.

(** X15. The body that the form posts has the keys [workflowTag],
    [recipients], [message] and [mediaUrl], then [workflowVars] when the
    variables text is not blank, then [sendAt] when the date is not
    empty: [mediaUrl] is posted even when it is the empty string. *)
Theorem posted_keys (form : Form.FormFields) (body : value) :
  Form.handleSubmit P form = Form.Posted body ->
  map fst (own_props body)
  = [k_workflowTag; k_recipients; k_message; k_mediaUrl]
    ++ (if eqb (trim (Form.workflowVars form)) [] then [] else [k_workflowVars])
    ++ (if eqb (Form.sendAt form) [] then [] else [k_sendAt])
  /\ read_prop k_mediaUrl (own_props body) = VStr (Form.mediaUrl form).
Proof.
  intros Hposted.
  apply handleSubmit_posted in Hposted as (vars & Hvars & _ & ->).
  cbn [own_props]. split; [|apply (posted_reads P form vars)].
  unfold posted_props, defined_prop.
  assert (Hdate : is_undefined (Form.normalizeDateField P (Form.sendAt form))
                  = eqb (Form.sendAt form) []).
  { unfold Form.normalizeDateField. destruct (eqb (Form.sendAt form) []); [reflexivity|].
    destruct (formatISO_parseISO P (Form.sendAt form)); reflexivity. }
  rewrite Hdate.
  destruct (tryParseWorkflowVars_cases (Form.workflowVars form))
    as [[Hblank Hcase]|[(Hblank & _ & out & Hcase)|(Hblank & _ & Hcase)]];
    rewrite Hcase in Hvars; rewrite Hblank; [| |discriminate];
    injection Hvars as <-; cbn [copied is_undefined app];
    destruct (eqb (Form.sendAt form) []); reflexivity.
Qed.

Lemma draft_pairs_valid (form : Form.FormFields) (vars date : value) :
  is_valid (status (mergeObjectSync (draft_pairs P form vars date)))
  = nonempty_after_trim (VStr (Form.workflowTag form))
    && nonempty_after_trim (VStr (Form.recipients form))
    && nonempty_after_trim (VStr (Form.message form))
    && mediaUrl_ok_client P (Form.mediaUrl form)
    && workflowVars_ok vars
    && sendAt_ok P date.
Proof.
  rewrite mergeObjectSync_status, is_valid_merge.
  unfold draft_pairs.
  cbn [map pair_value forallb is_valid andb].
  rewrite !required_valid, vars_valid, sendAt_valid.
  rewrite parse_recipients_client, parse_mediaUrl_client.
  rewrite andb_true_r, !andb_assoc.
  cbn [nonempty_after_trim].
  destruct (eqb (trim (Form.recipients form)) []),
    (mediaUrl_ok_client P (Form.mediaUrl form)); reflexivity.
Qed.

Lemma normalizeDateField_ok (value : jstring) :
  (forall iso, formatISO_parseISO P value = inr iso -> Date_parse_ok P iso = true) ->
  sendAt_ok P (VStr value) = true ->
  sendAt_ok P (Form.normalizeDateField P value) = true.
Proof.
  intros Hiso Hraw. unfold Form.normalizeDateField.
  destruct (eqb value []) eqn:Hempty; [reflexivity|].
  destruct (formatISO_parseISO P value) as [e|iso]; [exact Hraw|].
  cbn [sendAt_ok]. rewrite (Hiso iso eq_refl). apply orb_true_r.
Qed.

(** X16. The submit button is enabled only on a form that is not being
    sent and whose submission posts a body, as long as [Date.parse]
    reads the date that [formatISO] writes for the date typed: the
    button checks the date as typed, the submission the date
    normalised. *)
Theorem canSubmit_then_posts (form : Form.FormFields) (isPending : bool) :
  (forall iso, formatISO_parseISO P (Form.sendAt form) = inr iso ->
               Date_parse_ok P iso = true) ->
  Form.canSubmit P form isPending = true ->
  isPending = false /\ exists body, Form.handleSubmit P form = Form.Posted body.
Proof.
  intros Hiso Hcan. unfold Form.canSubmit in Hcan.
  destruct (Form.tryParseWorkflowVars P (Form.workflowVars form)) as [vars|msg] eqn:Hvars;
    [|discriminate].
  unfold safeParse in Hcan.
  change (parse P (Form.payloadSchema P) [] _)
    with (mergeObjectSync (draft_pairs P form vars (VStr (Form.sendAt form)))) in Hcan.
  rewrite draft_pairs_valid in Hcan.
  destruct (_ && sendAt_ok P (VStr (Form.sendAt form))) eqn:Hacc in Hcan; [|discriminate].
  split; [now destruct isPending|].
  apply andb_true_iff in Hacc as [Hacc Hdate].
  exists (VObj (posted_props P form vars)).
  apply handleSubmit_posted. exists vars. split; [exact Hvars|]. split; [|reflexivity].
  unfold accepted_by_client. rewrite Hacc.
  now apply normalizeDateField_ok.
Qed.

Lemma vars_no_issues (path : list path_segment) (v : value) :
  workflowVars_ok v = true -> issues (parse P vars_schema path v) = [].
Proof.
  rewrite parse_vars. destruct v; try discriminate; [reflexivity|].
  rewrite mergeObjectSync_issues. cbn [workflowVars_ok].
  induction props as [|[k x] props IH]; intros Hok; [reflexivity|].
  unfold record_pairs, all_issues in *.
  cbn [map concat fst snd pair_value forallb] in *.
  apply andb_true_iff in Hok as [Hx Hok].
  rewrite (IH Hok), app_nil_r. rewrite parse_plain_string.
  destruct x; try discriminate. reflexivity.
Qed.

Lemma client_messages_of (form : Form.FormFields) (vars : value) :
  workflowVars_ok vars = true ->
  map message (issues (parse P (Form.payloadSchema P) [] (Form.draft P form vars)))
  = client_messages P form.
Proof.
  intros Hvars.
  rewrite client_parse_draft, mergeObjectSync_issues.
  unfold client_pairs, all_issues, client_messages.
  cbn [map pair_value concat]. rewrite app_nil_r.
  rewrite !parse_required, parse_recipients_client, parse_mediaUrl_client.
  rewrite (vars_no_issues _ _ Hvars), parse_sendAt.
  cbn [nonempty_after_trim app].
  rewrite !map_app.
  destruct (eqb (trim (Form.workflowTag form)) []),
    (eqb (trim (Form.recipients form)) []),
    (eqb (trim (Form.message form)) []),
    (mediaUrl_ok_client P (Form.mediaUrl form));
    cbn [negb issues map app message];
    (destruct (Form.normalizeDateField P (Form.sendAt form)) as [| | | |d| |] eqn:Hd;
     try (unfold Form.normalizeDateField in Hd;
          destruct (eqb (Form.sendAt form) []);
          [discriminate|destruct (formatISO_parseISO P (Form.sendAt form)); discriminate]);
     cbn [sendAt_ok issues OK map app message];
     [reflexivity|destruct (eqb d [] || Date_parse_ok P d); reflexivity]).
Qed.

(** X17. When the form stops on the schema, the issues it shows are the
    messages of exactly the fields that fail, in the order workflow
    tag, recipients, message, media URL, date, and there is at least
    one; the workflow variables never add one, since the form has
    already converted them. *)
Theorem schema_rejection_messages (form : Form.FormFields) (msgs : list jstring) :
  Form.handleSubmit P form = Form.SchemaRejected msgs ->
  msgs = client_messages P form /\ msgs <> [].
Proof.
  unfold Form.handleSubmit, safeParse. cbv zeta.
  destruct (Form.tryParseWorkflowVars P (Form.workflowVars form)) as [vars|msg] eqn:Hvars;
    [|discriminate].
  apply tryParseWorkflowVars_ok in Hvars.
  pose proof (client_valid P form vars) as Hvalid.
  destruct (is_valid _); [discriminate|].
  intros Hmsgs.
  assert (Heq : msgs = client_messages P form).
  { rewrite <- (client_messages_of form vars Hvars). congruence. }
  split; [exact Heq|]. rewrite Heq. clear Hmsgs Heq.
  unfold accepted_by_client in Hvalid. rewrite Hvars in Hvalid.
  unfold client_messages.
  destruct (nonempty_after_trim (VStr (Form.workflowTag form))); [|discriminate].
  destruct (nonempty_after_trim (VStr (Form.recipients form))); [|discriminate].
  destruct (nonempty_after_trim (VStr (Form.message form))); [|discriminate].
  destruct (mediaUrl_ok_client P (Form.mediaUrl form)); [|discriminate].
  destruct (sendAt_ok P (Form.normalizeDateField P (Form.sendAt form))); discriminate.
Qed.

(** X18. The form ends in the success state only when the draft passed
    its validation, the call of the relay returned, and the reply had a
    status from 200 to 299: a refused draft or a call that throws never
    shows as a success. *)
Theorem success_only_after_ok_reply (form : Form.FormFields)
  (relay : value -> thrown + Form.Reply) (shown : value) :
  Form.handleSubmit_state P form relay = Form.success_state shown ->
  exists body reply,
    Form.handleSubmit P form = Form.Posted body
    /\ relay body = inr reply
    /\ Form.reply_ok reply = true.
Proof.
  unfold Form.handleSubmit_state.
  destruct (Form.handleSubmit P form) as [msg|msgs|body]; try discriminate.
  unfold Form.handleSubmit_response.
  destruct (relay body) as [e|reply] eqn:Hrelay; [discriminate|].
  destruct (Form.reply_ok reply) eqn:Hok; [|discriminate].
  intros _. exists body, reply. auto.
Qed.

End Posting.

(* ===================================================================== *)
(** * The form on the answers of the relay *)
(* ===================================================================== *)

Section FormOnRelay.
Variable P : Platform.
Variable env : Route.Env.
Variable world : Route.World.
Variable request : Route.NextRequest.

Lemma response_of_outcome (answer : Route.NextResponse) (events : list Route.event) :
  outcome answer events ->
  Form.handleSubmit_response (inr (reply_of answer))
  = (if (Route.status_code answer =? 200)%N
     then Form.success_state (VStr (js "Workflow dispatched to n8n."))
     else Form.error_state
            (read_prop k_message (own_props (Route.json_body answer)))
            (Some (array_or_empty
                     (read_prop k_issues (own_props (Route.json_body answer))))))
  /\ exists text, read_prop k_message (own_props (Route.json_body answer)) = VStr text.
Proof.
  intros [ |error|iss|call response details Hok|call result|call error].
  - split; [reflexivity|eexists; reflexivity].
  - split; [reflexivity|eexists; reflexivity].
  - split; [reflexivity|eexists; reflexivity].
  - split; [destruct details; reflexivity|eexists; reflexivity].
  - split; [destruct (is_undefined result); reflexivity|eexists; reflexivity].
  - split; [reflexivity|eexists; reflexivity].
Qed.

(** X19. Whatever the relay answers, the form shows the relay's own
    message: the confirmation on a 200, and on any other answer the
    relay's message with its issues, or with no issue where the answer
    has none; the form's fallback texts are never shown for an answer
    of the relay. *)
Theorem form_shows_relay_message :
  exists answer events text,
    Route.handle P env world request = (inr answer, events)
    /\ read_prop k_message (own_props (Route.json_body answer)) = VStr text
    /\ Form.handleSubmit_response (inr (reply_of answer))
       = (if (Route.status_code answer =? 200)%N
          then Form.success_state (VStr (js "Workflow dispatched to n8n."))
          else Form.error_state (VStr text)
                 (Some (array_or_empty
                          (read_prop k_issues (own_props (Route.json_body answer)))))).
Proof.
  destruct (POST_outcome P env world request) as (answer & events & Hrun & Hout).
  destruct (response_of_outcome answer events Hout) as [Hshown [text Htext]].
  exists answer, events, text. split; [exact Hrun|]. split; [exact Htext|].
  rewrite Hshown, Htext. reflexivity.
Qed.

End FormOnRelay.

(* ===================================================================== *)
(** * Instances on concrete requests *)
(* ===================================================================== *)

Lemma POST_malformed_json_witness :
  Route.handle Reference.platform Scenario.env_configured Scenario.world_ok
    Scenario.request_malformed
  = (inr {| Route.status_code := 400;
            Route.json_body :=
              VObj [ (js "message", VStr (js "Invalid JSON payload"));
                     (js "issues",
                       VArr [VStr (js "SyntaxError: Unexpected end of JSON input")]) ] |},
     []).
Proof.
  exact (POST_malformed_json Reference.platform Scenario.env_configured Scenario.world_ok
           Scenario.request_malformed
           (Reference.SyntaxError "Unexpected end of JSON input") eq_refl eq_refl).
Defined.

Lemma POST_unreadable_body_witness :
  Route.handle Reference.platform Scenario.env_configured
    (Scenario.world_answering (inr Scenario.downstream_cut))
    (Scenario.request_with Scenario.body_A None)
  = (inr {| Route.status_code := 504;
            Route.json_body :=
              VObj [ (js "message", VStr (js "Failed to communicate with n8n webhook."));
                     (js "issues", VArr [VStr (js "terminated")]) ] |},
     [ Route.Fetch
         (forwarded Scenario.env_configured
            (Scenario.world_answering (inr Scenario.downstream_cut))
            (Scenario.request_with Scenario.body_A None) Scenario.data_A);
       Route.ConsoleError (js "[n8n] webhook call failed")
         (Reference.TypeError "terminated") ]).
Proof.
  exact (POST_unreadable_body Reference.platform Scenario.env_configured
           (Scenario.world_answering (inr Scenario.downstream_cut))
           (Scenario.request_with Scenario.body_A None)
           Scenario.body_A Scenario.data_A eq_refl eq_refl eq_refl
           Scenario.downstream_cut (Reference.TypeError "terminated")
           eq_refl eq_refl eq_refl).
Defined.

Lemma outbound_call_shape_witness :
  Route.fetch_method
    (forwarded Scenario.env_with_key Scenario.world_ok
       (Scenario.request_with Scenario.body_A None) Scenario.data_A)
  = js "POST"
  /\ Route.N8N_WEBHOOK_URL Scenario.env_with_key
     = Some (js "https://n8n.example.com/webhook/whatsapp-relay")
  /\ js "https://n8n.example.com/webhook/whatsapp-relay" <> []
  /\ Route.fetch_headers
       (forwarded Scenario.env_with_key Scenario.world_ok
          (Scenario.request_with Scenario.body_A None) Scenario.data_A)
     = [ (js "Content-Type", js "application/json");
         (js "X-N8N-API-KEY", js "secret") ].
Proof.
  exact (outbound_call_shape Reference.platform Scenario.env_with_key Scenario.world_ok
           (Scenario.request_with Scenario.body_A None)
           (forwarded Scenario.env_with_key Scenario.world_ok
              (Scenario.request_with Scenario.body_A None) Scenario.data_A)
           (or_introl eq_refl)).
Defined.

Lemma POST_downstream_success_witness :
  Route.handle Reference.platform Scenario.env_configured Scenario.world_ok
    (Scenario.request_with Scenario.body_A None)
  = (inr {| Route.status_code := 200;
            Route.json_body :=
              VObj [ (js "message", VStr (js "Workflow dispatched to n8n."));
                     (js "n8nResponse", VObj [(js "ok", VBool true)]) ] |},
     [ Route.Fetch
         (forwarded Scenario.env_configured Scenario.world_ok
            (Scenario.request_with Scenario.body_A None) Scenario.data_A) ]).
Proof.
  exact (POST_downstream_success Reference.platform Scenario.env_configured
           Scenario.world_ok (Scenario.request_with Scenario.body_A None)
           Scenario.body_A Scenario.data_A eq_refl eq_refl eq_refl
           Scenario.downstream_ok eq_refl eq_refl).
Defined.

Lemma inbound_revalidation_witness :
  safeParse Reference.platform (Route.inboundSchema Reference.platform)
    (VObj [ (js "workflowTag", VStr (js "promo"));
            (js "recipients", VArr [VStr (js "15551234567")]);
            (js "message", VStr (js "hi")) ])
  = success
      (VObj [ (js "workflowTag", VStr (js "promo"));
              (js "recipients", VArr [VStr (js "15551234567")]);
              (js "message", VStr (js "hi")) ]).
Proof.
  exact (inbound_revalidation Reference.platform Scenario.body_spoofed
           (VObj [ (js "workflowTag", VStr (js "promo"));
                   (js "recipients", VArr [VStr (js "15551234567")]);
                   (js "message", VStr (js "hi")) ])
           eq_refl).
Defined.

Lemma entries_well_formed_witness :
  Form.split_recipients Scenario.recipients_two_lines
  = [js "15551234567"; js "15557654321"]
  /\ well_formed_entry (js "15557654321").
Proof.
  split; [reflexivity|].
  exact (entries_well_formed Scenario.recipients_two_lines (js "15557654321")
           (or_intror (or_introl eq_refl))).
Defined.

Lemma split_recipients_join_witness :
  Form.join (js ",") [js "15551234567"; js "15557654321"]
  = js "15551234567,15557654321"
  /\ Form.split_recipients (Form.join (js ",") [js "15551234567"; js "15557654321"])
     = [js "15551234567"; js "15557654321"].
Proof.
  split; [reflexivity|].
  apply (split_recipients_join [js "15551234567"; js "15557654321"]).
  intros e [<-|[<-|[]]]; repeat split; vm_compute; discriminate.
Defined.

Lemma separators_only_recipients_witness :
  Form.handleSubmit Reference.platform Scenario.form_commas
  = Form.Posted Scenario.body_commas
  /\ read_prop k_recipients (own_props Scenario.body_commas) = VArr []
  /\ exists iss,
       safeParse Reference.platform (Route.inboundSchema Reference.platform)
         Scenario.body_commas
       = failure iss
       /\ In (Issue [Key k_recipients] (too_small_array 1)
                (js "Provide at least one recipient")) iss.
Proof.
  split; [reflexivity|].
  exact (separators_only_recipients Reference.platform Scenario.form_commas
           Scenario.body_commas eq_refl eq_refl).
Defined.

Lemma variables_rejected_iff_witness :
  Form.handleSubmit Reference.platform Scenario.form_array_vars
  = Form.VarsRejected (js "Workflow variables must be a JSON object.")
  /\ Form.handleSubmit Reference.platform Scenario.form_own_toString
     = Form.VarsRejected
         (js "Invalid workflow variables JSON: Cannot convert object to primitive value").
Proof.
  split.
  - exact (proj2 (variables_rejected_iff Reference.platform Scenario.form_array_vars
                    (js "Workflow variables must be a JSON object."))
             (conj eq_refl (conj eq_refl eq_refl))).
  - exact (proj2 (variables_rejected_iff Reference.platform Scenario.form_own_toString
                    (js "Invalid workflow variables JSON: Cannot convert object to primitive value"))
             (conj eq_refl (conj eq_refl eq_refl))).
Defined.

Lemma conversion_idempotent_witness :
  Form.stringify_entries Reference.platform
    [ (js "retries", VNum Reference.three); (js "vip", VBool true) ]
  = inr [ (js "retries", VStr (js "3")); (js "vip", VStr (js "true")) ]
  /\ Form.stringify_entries Reference.platform
       [ (js "retries", VStr (js "3")); (js "vip", VStr (js "true")) ]
     = inr [ (js "retries", VStr (js "3")); (js "vip", VStr (js "true")) ].
Proof.
  split; [reflexivity|].
  apply (conversion_idempotent Reference.platform
           [ (js "retries", VNum Reference.three); (js "vip", VBool true) ]
           [ (js "retries", VStr (js "3")); (js "vip", VStr (js "true")) ]);
    [|reflexivity].
  repeat constructor; simpl; intuition discriminate.
Defined.

Lemma posted_keys_witness :
  Form.handleSubmit Reference.platform Scenario.form_blank_media
  = Form.Posted Scenario.body_blank_media
  /\ map fst (own_props Scenario.body_blank_media)
     = [k_workflowTag; k_recipients; k_message; k_mediaUrl]
  /\ read_prop k_mediaUrl (own_props Scenario.body_blank_media) = VStr [].
Proof.
  split; [reflexivity|].
  exact (posted_keys Reference.platform Scenario.form_blank_media
           Scenario.body_blank_media eq_refl).
Defined.

Lemma canSubmit_then_posts_witness :
  Form.canSubmit Scenario.platform_local_dates Scenario.form_full false = true
  /\ false = false
  /\ exists body,
       Form.handleSubmit Scenario.platform_local_dates Scenario.form_full
       = Form.Posted body.
Proof.
  split; [reflexivity|].
  apply (canSubmit_then_posts Scenario.platform_local_dates Scenario.form_full false).
  - intros iso Hiso. vm_compute in Hiso. injection Hiso as <-. reflexivity.
  - reflexivity.
Defined.

Lemma schema_rejection_messages_witness :
  Form.handleSubmit Reference.platform Scenario.form_incomplete
  = Form.SchemaRejected
      [ js "Workflow tag is required"; js "A message body is required";
        js "Must be a valid URL" ]
  /\ [ js "Workflow tag is required"; js "A message body is required";
       js "Must be a valid URL" ]
     = client_messages Reference.platform Scenario.form_incomplete
  /\ [ js "Workflow tag is required"; js "A message body is required";
       js "Must be a valid URL" ] <> [].
Proof.
  split; [reflexivity|].
  exact (schema_rejection_messages Reference.platform Scenario.form_incomplete
           [ js "Workflow tag is required"; js "A message body is required";
             js "Must be a valid URL" ]
           eq_refl).
Defined.

Lemma success_only_after_ok_reply_witness :
  exists body reply,
    Form.handleSubmit Reference.platform Scenario.form_full = Form.Posted body
    /\ (inr (reply_of (answer_200 (VObj [(js "ok", VBool true)])))
        : thrown + Form.Reply) = inr reply
    /\ Form.reply_ok reply = true.
Proof.
  exact (success_only_after_ok_reply Reference.platform Scenario.form_full
           (fun _ => inr (reply_of (answer_200 (VObj [(js "ok", VBool true)]))))
           (VStr (js "Workflow dispatched to n8n.")) eq_refl).
Defined.
